(** * The editor's virtual file store, bundler, extractor and AI-edit merge

    A shallow embedding of [src/components/InputSection.tsx] (the [Editor]
    component: [parseProjectCode], [bundlePreview], the file handlers and
    [handleSendMessage]) and of [streamCodeEdit] from the Gemini service,
    together with the properties the specification states about them. *)

From Stdlib Require Import String Ascii.
From Stdlib Require Import List NArith Bool Arith Lia.
Import ListNotations.

Set Implicit Arguments.

(** ** JavaScript strings

    A JavaScript string is a sequence of UTF-16 code units; a code unit is
    modelled as its number. *)

Module JS.

Definition char := N.
Definition jsstring := list char.

(** A string literal of the source, written with 8-bit characters. *)
Definition str (s : string) : jsstring :=
  map N_of_ascii (list_ascii_of_string s).

Fixpoint jsstring_eqb (a b : jsstring) : bool :=
  match a, b with
  | [], [] => true
  | x :: a', y :: b' => N.eqb x y && jsstring_eqb a' b'
  | _, _ => false
  end.

(** A string is truthy when it is not empty. *)
Definition truthy (s : jsstring) : bool :=
  match s with [] => false | _ :: _ => true end.

(** WhiteSpace and LineTerminator code units, the ones [trim] strips. *)
Definition is_whitespace (c : char) : bool :=
  ((9 <=? c) && (c <=? 13) || (c =? 32) || (c =? 160) || (c =? 5760)
   || (8192 <=? c) && (c <=? 8202) || (c =? 8232) || (c =? 8233)
   || (c =? 8239) || (c =? 8287) || (c =? 12288) || (c =? 65279))%N.

Fixpoint trimStart (s : jsstring) : jsstring :=
  match s with
  | c :: s' => if is_whitespace c then trimStart s' else s
  | [] => []
  end.

Definition trimEnd (s : jsstring) : jsstring := rev (trimStart (rev s)).

Definition trim (s : jsstring) : jsstring := trimEnd (trimStart s).

(** [s.startsWith(pat)] at position 0. *)
Fixpoint starts_with (pat s : jsstring) : bool :=
  match pat, s with
  | [], _ => true
  | p :: pat', c :: s' => N.eqb p c && starts_with pat' s'
  | _ :: _, [] => false
  end.

(** [s.indexOf(pat)]: the least position at which [pat] occurs. *)
Fixpoint indexOf (pat s : jsstring) : option nat :=
  if starts_with pat s then Some 0
  else match s with
       | [] => None
       | _ :: s' => option_map S (indexOf pat s')
       end.

Definition includes (pat s : jsstring) : bool :=
  match indexOf pat s with Some _ => true | None => false end.

Definition endsWith (suffix s : jsstring) : bool :=
  (length suffix <=? length s)
  && jsstring_eqb (skipn (length s - length suffix) s) suffix.

Definition dollar : char := 36%N.

(** GetSubstitution of ECMA-262 for a match without capture groups: [$$] is
    a dollar, [$&] the matched text, [$`] the text before the match and [$']
    the text after it; a dollar followed by anything else stands for
    itself. *)
Fixpoint getSubstitution (matched preceding following template : jsstring)
  : jsstring :=
  match template with
  | [] => []
  | c :: t' =>
      if N.eqb c dollar then
        match t' with
        | [] => [dollar]
        | d :: t'' =>
            if N.eqb d 36 then
              dollar :: getSubstitution matched preceding following t''
            else if N.eqb d 38 then
              matched ++ getSubstitution matched preceding following t''
            else if N.eqb d 96 then
              preceding ++ getSubstitution matched preceding following t''
            else if N.eqb d 39 then
              following ++ getSubstitution matched preceding following t''
            else dollar :: getSubstitution matched preceding following t'
        end
      else c :: getSubstitution matched preceding following t'
  end.

(** [s.replace(pat, replacement)] with a string pattern: only the first
    occurrence is replaced, and the replacement is a template. *)
Definition replace (pat replacement s : jsstring) : jsstring :=
  match indexOf pat s with
  | None => s
  | Some i =>
      let preceding := firstn i s in
      let following := skipn (i + length pat) s in
      preceding ++ getSubstitution pat preceding following replacement
        ++ following
  end.

(** [s.replace(/pat/g, '')] for a pattern made of literal characters: every
    occurrence, scanning from the left without overlap, is removed.  [skip]
    counts the characters of the current occurrence still to drop. *)
Fixpoint removeAll_from (pat : jsstring) (skip : nat) (s : jsstring)
  : jsstring :=
  match s with
  | [] => []
  | c :: s' =>
      match skip with
      | S k => removeAll_from pat k s'
      | O =>
          if truthy pat && starts_with pat s
          then removeAll_from pat (length pat - 1) s'
          else c :: removeAll_from pat 0 s'
      end
  end.

Definition removeAll (pat s : jsstring) : jsstring := removeAll_from pat 0 s.

(** [parts.join(sep)]. *)
Fixpoint join (sep : jsstring) (parts : list jsstring) : jsstring :=
  match parts with
  | [] => []
  | x :: rest =>
      match rest with
      | [] => x
      | _ :: _ => x ++ sep ++ join sep rest
      end
  end.

(** [n.toString()] of a non-negative integer: its decimal digits. *)
Fixpoint digits (u : Decimal.uint) : jsstring :=
  match u with
  | Decimal.Nil => []
  | Decimal.D0 u' => 48%N :: digits u'
  | Decimal.D1 u' => 49%N :: digits u'
  | Decimal.D2 u' => 50%N :: digits u'
  | Decimal.D3 u' => 51%N :: digits u'
  | Decimal.D4 u' => 52%N :: digits u'
  | Decimal.D5 u' => 53%N :: digits u'
  | Decimal.D6 u' => 54%N :: digits u'
  | Decimal.D7 u' => 55%N :: digits u'
  | Decimal.D8 u' => 56%N :: digits u'
  | Decimal.D9 u' => 57%N :: digits u'
  end.

Definition toString (n : N) : jsstring := digits (N.to_uint n).

End JS.

(** ** Regular expressions

    The fragment of ECMAScript regular expressions the extractor uses, with
    the [i] flag, as a backtracking matcher: alternatives are tried in the
    order the language fixes, and the first success is the result. *)

Module RegExp.
Import JS.

(** Canonicalize under the [i] flag without [u].  Every character of the
    two patterns is ASCII, and a code unit of 128 or more never
    canonicalizes to an ASCII one, so only the folding of [a]-[z] matters. *)
Definition canonicalize (c : char) : char :=
  if ((97 <=? c) && (c <=? 122))%N then (c - 32)%N else c.

Inductive cclass :=
| CAny                      (* [\s\S] *)
| CNot (c : char)           (* [^c] *)
| CLit (c : char).          (* the character c *)

Definition cmatch (cl : cclass) (c : char) : bool :=
  match cl with
  | CAny => true
  | CNot x => negb (N.eqb (canonicalize x) (canonicalize c))
  | CLit x => N.eqb (canonicalize x) (canonicalize c)
  end.

Inductive regex :=
| Eps
| Class (cl : cclass)
| Seq (r1 r2 : regex)
| Star (greedy : bool) (cl : cclass)     (* cl* and cl*? *)
| Group (r : regex)                      (* the capture group ( r ) *)
| NegLookahead (r : regex).              (* (?! r ) *)

(** A pattern of literal characters. *)
Definition lit (s : string) : regex :=
  fold_right (fun c r => Seq (Class (CLit c)) r) Eps (str s).

Section Matcher.
Variable A : Type.

(** [cl*]: take as many characters as possible, give them back one by one
    while the rest of the pattern fails. *)
Fixpoint star_greedy (p : char -> bool) (s : jsstring)
         (k : jsstring -> option A) : option A :=
  match s with
  | c :: s' =>
      if p c then
        match star_greedy p s' k with
        | Some r => Some r
        | None => k s
        end
      else k s
  | [] => k []
  end.

(** [cl*?]: take as few characters as possible, one more each time the
    rest of the pattern fails. *)
Fixpoint star_lazy (p : char -> bool) (s : jsstring)
         (k : jsstring -> option A) : option A :=
  match k s with
  | Some r => Some r
  | None =>
      match s with
      | c :: s' => if p c then star_lazy p s' k else None
      | [] => None
      end
  end.
End Matcher.

(** The state of a match: the input still to read and capture group 1. *)
Definition mstate := (jsstring * option jsstring)%type.

Fixpoint rmatch (r : regex) (s : jsstring) (cap : option jsstring)
         (k : jsstring -> option jsstring -> option mstate) : option mstate :=
  match r with
  | Eps => k s cap
  | Class cl =>
      match s with
      | c :: s' => if cmatch cl c then k s' cap else None
      | [] => None
      end
  | Seq r1 r2 => rmatch r1 s cap (fun s' cap' => rmatch r2 s' cap' k)
  | Star true cl => star_greedy (cmatch cl) s (fun s' => k s' cap)
  | Star false cl => star_lazy (cmatch cl) s (fun s' => k s' cap)
  | Group r1 =>
      rmatch r1 s cap
        (fun s' _ => k s' (Some (firstn (length s - length s') s)))
  | NegLookahead r1 =>
      match rmatch r1 s cap (fun s' c => Some (s', c)) with
      | Some _ => None
      | None => k s cap
      end
  end.

Definition accept : jsstring -> option jsstring -> option mstate :=
  fun s' c => Some (s', c).

(** The result array of [String.prototype.match] without the [g] flag:
    position, matched text, and group 1. *)
Record MatchResult := {
  index : nat;
  matched : jsstring;
  group1 : option jsstring
}.

(** The match is tried at every position from the left, the end of the
    input included; [i] is the position of [s] in the whole input. *)
Fixpoint exec_from (r : regex) (i : nat) (s : jsstring) : option MatchResult :=
  match rmatch r s None accept with
  | Some (s', c) =>
      Some {| index := i;
              matched := firstn (length s - length s') s;
              group1 := c |}
  | None =>
      match s with
      | [] => None
      | _ :: s' => exec_from r (S i) s'
      end
  end.

Definition exec (r : regex) (s : jsstring) : option MatchResult :=
  exec_from r 0 s.

(** [m[1]] of a match result; the group of both patterns below always
    takes part in a match (lemma [group1_defined]). *)
Definition group_1 (m : MatchResult) : jsstring :=
  match group1 m with Some g => g | None => [] end.

End RegExp.

(** ** The editor *)

Module Editor.
Import JS RegExp.

Inductive Language := html | css | javascript.

Definition Language_eqb (a b : Language) : bool :=
  match a, b with
  | html, html | css, css | javascript, javascript => true
  | _, _ => false
  end.

Record VirtualFile := {
  id : jsstring;
  name : jsstring;
  language : Language;
  content : jsstring
}.

(** [{ ...f, content: c }] *)
Definition with_content (f : VirtualFile) (c : jsstring) : VirtualFile :=
  {| id := id f; name := name f; language := language f; content := c |}.

Inductive Role := user | model.

Record ChatMessage := { role : Role; text : jsstring }.

(** The fields of [Project] the editor reads or writes; the others are
    carried along unchanged by [{ ...project, ... }]. *)
Record Project := {
  title : jsstring;
  code : option jsstring;
  projectChatHistory : option (list ChatMessage)
}.

Inductive EditorView := preview | codeView.

(** [/<style[^>]*>([\s\S]*?)<\/style>/i] *)
Definition styleRe : regex :=
  Seq (lit "<style")
    (Seq (Star true (CNot 62%N))
       (Seq (Class (CLit 62%N))
          (Seq (Group (Star false CAny)) (lit "</style>")))).

(** [/<script(?![^>]*src)[^>]*>([\s\S]*?)<\/script>/i] *)
Definition scriptRe : regex :=
  Seq (lit "<script")
    (Seq (NegLookahead (Seq (Star true (CNot 62%N)) (lit "src")))
       (Seq (Star true (CNot 62%N))
          (Seq (Class (CLit 62%N))
             (Seq (Group (Star false CAny)) (lit "</script>"))))).

Definition index_html : jsstring := str "index.html".

(** Helper to extract CSS/JS from HTML to populate the file store. *)
Definition parseProjectCode (fullHtml : jsstring) : list VirtualFile :=
  let cssContent :=
    match exec styleRe fullHtml with
    | Some styleMatch => trim (group_1 styleMatch)
    | None => []
    end in
  let jsContent :=
    match exec scriptRe fullHtml with
    | Some scriptMatch => trim (group_1 scriptMatch)
    | None => []
    end in
  [ {| id := str "1"; name := index_html; language := html;
       content := fullHtml |} ]
  ++ (if 0 <? length cssContent
      then [ {| id := str "2"; name := str "styles.css"; language := css;
                content := cssContent |} ]
      else [])
  ++ (if 0 <? length jsContent
      then [ {| id := str "3"; name := str "script.js";
                language := javascript; content := jsContent |} ]
      else []).

Definition is_index (f : VirtualFile) : bool :=
  jsstring_eqb (name f) index_html.

Definition has_language (l : Language) (f : VirtualFile) : bool :=
  Language_eqb (language f) l.

(** Helper to bundle the files back into a single HTML string. *)
Definition bundlePreview (files : list VirtualFile) : jsstring :=
  let indexHtml :=
    match find is_index files with
    | Some f => content f
    | None => []
    end in
  let styles :=
    join [10%N] (map content (filter (has_language css) files)) in
  let scripts :=
    join [10%N]
      (map content (filter (has_language javascript) files)) in
  let bundled := indexHtml in
  let bundled :=
    if truthy (trim styles) then
      if includes (str "</head>") bundled
      then replace (str "</head>")
             (str "<style>" ++ styles ++ str "</style></head>") bundled
      else bundled ++ str "<style>" ++ styles ++ str "</style>"
    else bundled in
  let bundled :=
    if truthy (trim scripts) then
      if includes (str "</body>") bundled
      then replace (str "</body>")
             (str "<script>" ++ scripts ++ str "</script></body>") bundled
      else bundled ++ str "<script>" ++ scripts ++ str "</script>"
    else bundled in
  bundled.

(** *** Editor state

    The [useState] cells of the [Editor] component that the handlers below
    read or write.  A handler is a function from the state it runs in to the
    state after its updates have been applied, with the events it sends to
    the outside. *)

Record EditorState := {
  files : list VirtualFile;
  activeFileId : jsstring;
  chatInput : jsstring;
  isEditing : bool;
  chatHistory : list ChatMessage;
  viewMode : EditorView
}.

Inductive Event :=
| Alert (message : jsstring)        (* alert(message) *)
| OnUpdate (p : Project).           (* onUpdate(p) *)

Definition setFiles (fs : list VirtualFile) (st : EditorState) :=
  {| files := fs; activeFileId := activeFileId st;
     chatInput := chatInput st; isEditing := isEditing st;
     chatHistory := chatHistory st; viewMode := viewMode st |}.

Definition setActiveFileId (a : jsstring) (st : EditorState) :=
  {| files := files st; activeFileId := a;
     chatInput := chatInput st; isEditing := isEditing st;
     chatHistory := chatHistory st; viewMode := viewMode st |}.

Definition setChatInput (s : jsstring) (st : EditorState) :=
  {| files := files st; activeFileId := activeFileId st;
     chatInput := s; isEditing := isEditing st;
     chatHistory := chatHistory st; viewMode := viewMode st |}.

Definition setIsEditing (b : bool) (st : EditorState) :=
  {| files := files st; activeFileId := activeFileId st;
     chatInput := chatInput st; isEditing := b;
     chatHistory := chatHistory st; viewMode := viewMode st |}.

Definition setChatHistory (h : list ChatMessage) (st : EditorState) :=
  {| files := files st; activeFileId := activeFileId st;
     chatInput := chatInput st; isEditing := isEditing st;
     chatHistory := h; viewMode := viewMode st |}.

Definition setViewMode (v : EditorView) (st : EditorState) :=
  {| files := files st; activeFileId := activeFileId st;
     chatInput := chatInput st; isEditing := isEditing st;
     chatHistory := chatHistory st; viewMode := v |}.

(** [o || d] for an optional string. *)
Definition or_else (o : option jsstring) (d : jsstring) : jsstring :=
  match o with
  | Some s => if truthy s then s else d
  | None => d
  end.

(** The state of a freshly mounted editor. *)
Definition initialState (project : Project) : EditorState :=
  let fs := parseProjectCode (or_else (code project) []) in
  {| files := fs;
     activeFileId := or_else (option_map id (hd_error fs)) (str "1");
     chatInput := [];
     isEditing := false;
     chatHistory :=
       match projectChatHistory project with Some h => h | None => [] end;
     viewMode := preview |}.

Definition id_is (i : jsstring) (f : VirtualFile) : bool :=
  jsstring_eqb (id f) i.

Definition id_is_not (i : jsstring) (f : VirtualFile) : bool :=
  negb (jsstring_eqb (id f) i).

Definition handleFileChange (newContent : jsstring) (st : EditorState)
  : EditorState * list Event :=
  (setFiles
     (map (fun f => if id_is (activeFileId st) f
                    then with_content f newContent else f)
        (files st))
     st,
   []).

(** [promptResult] is what [prompt] returns ([None] for [null]) and [now]
    what [Date.now()] returns. *)
Definition handleCreateFile (promptResult : option jsstring) (now : N)
           (st : EditorState) : EditorState * list Event :=
  match promptResult with
  | None => (st, [])
  | Some name0 =>
      if negb (truthy name0) then (st, [])
      else
        let lang := html in
        let lang := if endsWith (str ".css") name0 then css else lang in
        let lang :=
          if endsWith (str ".js") name0 then javascript else lang in
        let newFile :=
          {| id := toString now;
             name := name0;
             language := lang;
             content := if Language_eqb lang html
                        then str "<!-- New Page -->"
                        else str "/* New Style */" |} in
        (setActiveFileId (id newFile)
           (setFiles (files st ++ [newFile]) st),
         [])
  end.

(** [confirmed] is what [window.confirm] returns when it is asked. *)
Definition handleDeleteFile (i : jsstring) (confirmed : bool)
           (st : EditorState) : EditorState * list Event :=
  if length (files st) <=? 1 then
    (st, [Alert (str "Cannot delete the last file.")])
  else if confirmed then
    let st' := setFiles (filter (id_is_not i) (files st)) st in
    if jsstring_eqb (activeFileId st) i then
      (setActiveFileId
         (or_else (option_map id (find (id_is_not i) (files st))) [])
         st',
       [])
    else (st', [])
  else (st, []).

(** *** The generation backend

    What [ai.models.generateContentStream] does for a request: it delivers
    some chunks, each with or without a [text], and then either completes or
    throws (a rejected call is a stream that throws before its first
    chunk). *)

Inductive StreamEnd := Completes | Throws.

Record ContentStream := {
  chunks : list (option jsstring);
  stream_end : StreamEnd
}.

Definition Backend := jsstring -> jsstring -> ContentStream.

Definition chunk_texts (cs : list (option jsstring)) : list jsstring :=
  flat_map (fun c => match c with
                     | Some t => if truthy t then [t] else []
                     | None => []
                     end) cs.

(** The sequence of strings the generator [streamCodeEdit] yields: the
    non-empty chunk texts and, when the backend throws, the current code
    ("return original on failure").  The generator itself never throws. *)
Definition streamCodeEdit (ai : Backend) (currentCode prompt : jsstring)
  : list jsstring :=
  let response := ai currentCode prompt in
  chunk_texts (chunks response)
  ++ match stream_end response with
     | Throws => [currentCode]
     | Completes => []
     end.

Inductive Exn := Error (message : jsstring).

Definition analyzingMsg : ChatMessage :=
  {| role := model;
     text := str "Analyzing project structure and applying changes..." |}.

Definition successMsg : ChatMessage :=
  {| role := model; text := str "Code updated successfully." |}.

Definition errorMsg : ChatMessage :=
  {| role := model; text := str "Error applying changes." |}.

(** The response after the loop over the stream and the stripping of code
    fences. *)
Definition receivedCode (ai : Backend) (currentBundled userMsg : jsstring)
  : jsstring :=
  let updatedCode :=
    fold_left (fun acc chunk => acc ++ chunk)
      (streamCodeEdit ai currentBundled userMsg) [] in
  trim (removeAll (str "```") (removeAll (str "```html") updatedCode)).

(** The [setFiles] updater of a successful edit. *)
Definition mergeFiles (newFiles prev : list VirtualFile)
  : list VirtualFile :=
  let newIndex := find is_index newFiles in
  map (fun f =>
         match newIndex with
         | Some n => if is_index f then with_content f (content n) else f
         | None => f
         end) prev.

(** One edit cycle, run to its end with no other handler in between. *)
Definition handleSendMessage (ai : Backend) (project : Project)
           (st0 : EditorState) : EditorState * list Event :=
  if negb (truthy (trim (chatInput st0))) || isEditing st0 then (st0, [])
  else
    let userMsg := chatInput st0 in
    let st := setViewMode preview (setIsEditing true (setChatInput [] st0)) in
    let newHistoryUser :=
      chatHistory st0 ++ [ {| role := user; text := userMsg |} ] in
    let st := setChatHistory newHistoryUser st in
    let ev :=
      [ OnUpdate {| title := title project; code := code project;
                    projectChatHistory := Some newHistoryUser |} ] in
    let st := setChatHistory (chatHistory st ++ [analyzingMsg]) st in
    (* try *)
    let attempt : (EditorState * list Event) + Exn :=
      let currentBundled := bundlePreview (files st0) in
      let updatedCode := receivedCode ai currentBundled userMsg in
      if truthy updatedCode && (50 <? length updatedCode) then
        let newFiles := parseProjectCode updatedCode in
        let st := setFiles (mergeFiles newFiles (files st)) st in
        let finalHistory := newHistoryUser ++ [successMsg] in
        let st := setChatHistory finalHistory st in
        inl (st,
             [ OnUpdate {| title := title project;
                           code := Some updatedCode;
                           projectChatHistory := Some finalHistory |} ])
      else inr (Error (str "Generated code invalid")) in
    (* catch *)
    let '(st, ev') :=
      match attempt with
      | inl r => r
      | inr _ => (setChatHistory (chatHistory st ++ [errorMsg]) st, [])
      end in
    (* finally *)
    (setIsEditing false st, ev ++ ev').

(** *** Runs of the editor *)

Inductive Action :=
| CreateFile (promptResult : option jsstring) (now : N)
| DeleteFile (i : jsstring) (confirmed : bool)
| FileChange (newContent : jsstring)
| SelectFile (i : jsstring)
| TypeChat (s : jsstring)
| SendMessage (ai : Backend) (project : Project).

Definition step (a : Action) (st : EditorState) : EditorState * list Event :=
  match a with
  | CreateFile r now => handleCreateFile r now st
  | DeleteFile i c => handleDeleteFile i c st
  | FileChange s => handleFileChange s st
  | SelectFile i => (setActiveFileId i st, [])
  | TypeChat s => (setChatInput s st, [])
  | SendMessage ai p => handleSendMessage ai p st
  end.

Definition ids (fs : list VirtualFile) : list jsstring := map id fs.

(** What the user interface and the clock allow: the file rows offer only
    the files of the store, and [Date.now()] does not repeat the identifier
    of a file of the store. *)
Definition allowed (a : Action) (st : EditorState) : Prop :=
  match a with
  | CreateFile _ now => ~ In (toString now) (ids (files st))
  | DeleteFile i _ => In i (ids (files st))
  | SelectFile i => In i (ids (files st))
  | _ => True
  end.

Inductive reachable : EditorState -> Prop :=
| reach_init : forall project, reachable (initialState project)
| reach_step : forall a st,
    reachable st -> allowed a st -> reachable (fst (step a st)).

End Editor.

(** ** Vocabulary of the properties *)

Module Props.
Import JS RegExp Editor.

(** Equality of two texts up to the case of ASCII letters. *)
Definition ci_eq (a b : jsstring) : Prop :=
  map canonicalize a = map canonicalize b.

Definition gt : char := 62%N.

(** [tag] occurs in [doc] between [pre] and [post], and nowhere further to
    the left. *)
Definition first_at (tag doc pre post : jsstring) : Prop :=
  doc = pre ++ tag ++ post /\
  forall pre' post', doc = pre' ++ tag ++ post' -> length pre <= length pre'.

Definition absent (tag doc : jsstring) : Prop :=
  forall pre post, doc <> pre ++ tag ++ post.

(** A text that holds none of the patterns which [replace] expands in a
    replacement text: [$$], [$&], [$`] and [$']. *)
Definition pattern_free (s : jsstring) : Prop :=
  absent (str "$$") s /\ absent (str "$&") s /\
  absent (str "$`") s /\ absent (str "$'") s.

(** A block of a document: an opening tag [<name attrs>], an inner text and
    the closing tag [</name>], the tag name in any case. *)
Definition block (tagname : string) (D pre attrs inner post : jsstring)
  : Prop :=
  exists opening closing,
    D = pre ++ opening ++ attrs ++ [gt] ++ inner ++ closing ++ post /\
    ci_eq opening (str "<" ++ str tagname) /\
    ci_eq closing (str "</" ++ str tagname ++ str ">") /\
    ~ In gt attrs.

(** [attrs] mentions [src], in any case. *)
Definition mentions_src (attrs : jsstring) : Prop :=
  exists a w b, attrs = a ++ w ++ b /\ ci_eq w (str "src").

(** A block, and when [nosrc] is set one whose opening tag does not
    mention [src]. *)
Definition block_of (tagname : string) (nosrc : bool)
           (D pre attrs inner post : jsstring) : Prop :=
  block tagname D pre attrs inner post /\
  (nosrc = true -> ~ mentions_src attrs).

Definition style_block (D pre attrs inner post : jsstring) : Prop :=
  block_of "style" false D pre attrs inner post.

(** A script block without an external source reference. *)
Definition script_block (D pre attrs inner post : jsstring) : Prop :=
  block_of "script" true D pre attrs inner post.

(** The first block: the leftmost one and, there, the one that closes
    first. *)
Definition first_of (B : jsstring -> jsstring -> jsstring -> jsstring -> Prop)
           (pre attrs inner post : jsstring) : Prop :=
  B pre attrs inner post /\
  forall pre' attrs' inner' post',
    B pre' attrs' inner' post' ->
    length pre <= length pre' /\
    (length pre' = length pre -> length inner <= length inner').

Definition first_style_block (D : jsstring) := first_of (style_block D).
Definition first_script_block (D : jsstring) := first_of (script_block D).

(** The files [parseProjectCode] can emit. *)
Definition rootFile (D : jsstring) : VirtualFile :=
  {| id := str "1"; name := index_html; language := html; content := D |}.

Definition styleFile (c : jsstring) : VirtualFile :=
  {| id := str "2"; name := str "styles.css"; language := css;
     content := c |}.

Definition scriptFile (c : jsstring) : VirtualFile :=
  {| id := str "3"; name := str "script.js"; language := javascript;
     content := c |}.

(** The auxiliary file made of an inner text, when it is not blank. *)
Definition aux (mk : jsstring -> VirtualFile) (inner : jsstring)
  : list VirtualFile :=
  if truthy (trim inner) then [mk (trim inner)] else [].

(** The content of the root file of a store, empty when there is none. *)
Definition rootContent (fs : list VirtualFile) : jsstring :=
  match find is_index fs with
  | Some f => content f
  | None => []
  end.

Definition payload (l : Language) (fs : list VirtualFile) : jsstring :=
  join [10%N] (map content (filter (has_language l) fs)).


(** One extract-then-bundle cycle. *)
Definition cycle (D : jsstring) : jsstring :=
  bundlePreview (parseProjectCode D).

(** The edit request is taken up: the input is not blank and no edit is in
    flight. *)
Definition accepted (st : EditorState) : Prop :=
  truthy (trim (chatInput st)) = true /\ isEditing st = false.

(** The response passes the validation of step 3. *)
Definition valid_code (c : jsstring) : bool :=
  truthy c && (50 <? length c).

(** *** Positional reading of the two patterns, used in the proofs *)

Fixpoint ci_prefix (pat s : jsstring) : bool :=
  match pat, s with
  | [], _ => true
  | p :: pat', c :: s' =>
      N.eqb (canonicalize p) (canonicalize c) && ci_prefix pat' s'
  | _ :: _, [] => false
  end.

(** The text before the first [>] and the text after it. *)
Fixpoint split_gt (s : jsstring) : option (jsstring * jsstring) :=
  match s with
  | [] => None
  | c :: s' =>
      if N.eqb c gt then Some ([], s')
      else match split_gt s' with
           | Some (a, b) => Some (c :: a, b)
           | None => None
           end
  end.

(** The text before the first occurrence of [pat], in any case, and the
    text after it. *)
Fixpoint split_ci (pat s : jsstring) : option (jsstring * jsstring) :=
  if ci_prefix pat s then Some ([], skipn (length pat) s)
  else match s with
       | [] => None
       | c :: s' =>
           match split_ci pat s' with
           | Some (a, b) => Some (c :: a, b)
           | None => None
           end
       end.

(** [pat] occurs, in any case, starting before the first [>]. *)
Fixpoint run_has (pat s : jsstring) : bool :=
  if ci_prefix pat s then true
  else match s with
       | [] => false
       | c :: s' => if N.eqb c gt then false else run_has pat s'
       end.

(** A block starting at the head of [s]: the rest after it and its inner
    text. *)
Definition block_here (tagname : string) (nosrc : bool) (s : jsstring)
  : option mstate :=
  if ci_prefix (str "<" ++ str tagname) s then
    let s1 := skipn (length (str "<" ++ str tagname)) s in
    if nosrc && run_has (str "src") s1 then None
    else
      match split_gt s1 with
      | None => None
      | Some (_, s3) =>
          match split_ci (str "</" ++ str tagname ++ str ">") s3 with
          | None => None
          | Some (inner, rest) => Some (rest, Some inner)
          end
      end
  else None.

(** The auxiliary file of a match result. *)
Definition extracted (mk : jsstring -> VirtualFile)
           (o : option MatchResult) : list VirtualFile :=
  match o with
  | Some m => aux mk (group_1 m)
  | None => []
  end.

(** One injection step of [bundlePreview]. *)
Definition inject (opening closing tag pl doc : jsstring) : jsstring :=
  if truthy (trim pl) then
    if includes tag doc
    then replace tag (opening ++ pl ++ closing ++ tag) doc
    else doc ++ opening ++ pl ++ closing
  else doc.

End Props.

(** ** Sample stores and backends *)

Module Samples.
Import JS RegExp Editor Props.

Definition noProject : Project :=
  {| title := str "demo"; code := None; projectChatHistory := None |}.

Definition page : jsstring :=
  str "<html><head></head><body><h1>Hello, world!</h1><p>A page.</p></body></html>".

Definition styledPage : jsstring :=
  str "<html><head><style>h1{color:red}</style></head><body></body></html>".

Definition styledProject : Project :=
  {| title := str "demo"; code := Some styledPage;
     projectChatHistory := None |}.

(** A backend that throws before its first chunk. *)
Definition failingBackend : Backend :=
  fun _ _ => {| chunks := []; stream_end := Throws |}.

(** A backend that completes without any text. *)
Definition silentBackend : Backend :=
  fun _ _ => {| chunks := [None; Some []]; stream_end := Completes |}.

(** A backend that answers with [page], in two chunks and inside a fence. *)
Definition pageBackend : Backend :=
  fun _ _ =>
    {| chunks := [Some (str "```html" ++ firstn 20 page); None;
                  Some (skipn 20 page ++ str "```")];
       stream_end := Completes |}.

Definition asking (st : EditorState) : EditorState :=
  setChatInput (str "make the title blue") st.

(** The store of [styledProject], with the user's request typed in. *)
Definition styledStore : EditorState := asking (initialState styledProject).

(** A store with a root file and two auxiliary files. *)
Definition threeFiles : EditorState :=
  asking
    {| files := [ rootFile (str "<p>old</p>");
                  styleFile (str "p{margin:0}");
                  scriptFile (str "init()") ];
       activeFileId := str "1"; chatInput := []; isEditing := false;
       chatHistory := []; viewMode := codeView |}.



(** A root with a head, and a style file that holds one space. *)
Definition blankStyles : list VirtualFile :=
  [ rootFile (str "<head></head>"); styleFile (str " ") ].

(** A style file whose text holds a dollar followed by a quote. *)
Definition dollarStyles : list VirtualFile :=
  [ rootFile (str "<head></head><body>x</body>");
    styleFile (str "a::after{content:'$'}") ].

(** A page with a button, and a script that calls the dollar function. *)
Definition dollarScript : list VirtualFile :=
  [ rootFile (str "<body><button id=b>Go</button></body>");
    scriptFile (str "$('#b').click(go)") ].

(** A document whose first style block is blank. *)
Definition blankFirst : jsstring :=
  str "<style> </style><style>b{}</style>".

(** A document with two style blocks and three script blocks, the first of
    them with an external source. *)
Definition manyBlocks : jsstring :=
  str "<head><STYLE media=all> a{} </stYle><style>b{}</style></head><script src=x.js></script><script defer> f() </script><script>g()</script>".

End Samples.

(** ** The rest of the editor, and the application around it *)

Module EditorRest.
Import JS RegExp Editor.

(** [handleSave]: the bundle becomes the project's code. *)
Definition handleSave (project : Project) (st : EditorState)
  : EditorState * list Event :=
  let finalCode := bundlePreview (files st) in
  (st,
   [ OnUpdate {| title := title project; code := Some finalCode;
                 projectChatHistory := projectChatHistory project |};
     Alert (str "Project saved successfully!") ]).

End EditorRest.

Module App.
Import JS RegExp Editor.

Inductive Category := mine | shared | template.

Definition Category_eqb (a b : Category) : bool :=
  match a, b with
  | mine, mine | shared, shared | template, template => true
  | _, _ => false
  end.

(** [Project] of the application, with all the fields of its type. *)
Record ProjectData := {
  p_id : jsstring;
  p_title : jsstring;
  p_description : option jsstring;
  p_thumbnailUrl : jsstring;
  p_viewedAt : jsstring;
  p_authorName : jsstring;
  p_authorAvatar : jsstring;
  p_category : Category;
  p_code : option jsstring;
  p_chatHistory : option (list ChatMessage)
}.

(** The project as the editor sees it, and [{ ...base, ... }] with the
    fields the editor sends back. *)
Definition toEditor (p : ProjectData) : Project :=
  {| title := p_title p; code := p_code p;
     projectChatHistory := p_chatHistory p |}.

Definition fromEditor (base : ProjectData) (e : Project) : ProjectData :=
  {| p_id := p_id base; p_title := title e;
     p_description := p_description base;
     p_thumbnailUrl := p_thumbnailUrl base; p_viewedAt := p_viewedAt base;
     p_authorName := p_authorName base;
     p_authorAvatar := p_authorAvatar base;
     p_category := p_category base; p_code := code e;
     p_chatHistory := projectChatHistory e |}.

(** [{ ...p, title: newTitle }] *)
Definition with_title (p : ProjectData) (newTitle : jsstring) : ProjectData :=
  {| p_id := p_id p; p_title := newTitle;
     p_description := p_description p;
     p_thumbnailUrl := p_thumbnailUrl p; p_viewedAt := p_viewedAt p;
     p_authorName := p_authorName p; p_authorAvatar := p_authorAvatar p;
     p_category := p_category p; p_code := p_code p;
     p_chatHistory := p_chatHistory p |}.

(** *** The dashboard *)

Inductive Tab := RECENTLY_VIEWED | MY_PROJECTS | SHARED_WITH_ME | TEMPLATES.

Definition in_category (c : Category) (p : ProjectData) : bool :=
  Category_eqb (p_category p) c.

Definition filteredProjects (activeTab : Tab) (projects : list ProjectData)
  : list ProjectData :=
  match activeTab with
  | MY_PROJECTS => filter (in_category mine) projects
  | SHARED_WITH_ME => filter (in_category shared) projects
  | TEMPLATES => filter (in_category template) projects
  | RECENTLY_VIEWED => projects
  end.

(** *** A project card *)

Record CardState := {
  showMenu : bool;
  isRenaming : bool;
  editTitle : jsstring
}.

(** [handleRenameSubmit]: the second component is the call of [onRename],
    when it is made. *)
Definition handleRenameSubmit (project : ProjectData) (card : CardState)
  : CardState * option (jsstring * jsstring) :=
  if truthy (trim (editTitle card)) then
    ({| showMenu := showMenu card; isRenaming := false;
        editTitle := editTitle card |},
     Some (p_id project, editTitle card))
  else
    ({| showMenu := showMenu card; isRenaming := false;
        editTitle := p_title project |},
     None).

(** *** The application state *)

Inductive ViewState := home | building | editor.

Record AppState := {
  projects : list ProjectData;
  currentView : ViewState;
  activeProject : option ProjectData;
  buildingStep : nat;
  buildingCodeSnippet : jsstring;
  aiResponse : option jsstring;
  isGenerating : bool;
  showModal : bool;
  refineText : jsstring;
  originalPrompt : jsstring
}.

(** What [localStorage] holds under the key of the projects: nothing, a
    text that does not parse to an array of projects, or such an array. *)
Inductive Stored :=
| NoItem
| Unreadable
| Saved (ps : list ProjectData).

Definition not_template (p : ProjectData) : bool :=
  negb (in_category template p).

(** The initial value of [projects]. *)
Definition loadProjects (stored : Stored) : list ProjectData :=
  match stored with
  | Saved parsed => filter not_template parsed
  | NoItem | Unreadable => []
  end.

Definition initialApp (stored : Stored) : AppState :=
  {| projects := loadProjects stored;
     currentView := home;
     activeProject := None;
     buildingStep := 0;
     buildingCodeSnippet := [];
     aiResponse := None;
     isGenerating := false;
     showModal := false;
     refineText := [];
     originalPrompt := [] |}.

Definition setProjects (ps : list ProjectData) (st : AppState) :=
  {| projects := ps; currentView := currentView st;
     activeProject := activeProject st; buildingStep := buildingStep st;
     buildingCodeSnippet := buildingCodeSnippet st;
     aiResponse := aiResponse st; isGenerating := isGenerating st;
     showModal := showModal st; refineText := refineText st;
     originalPrompt := originalPrompt st |}.

Definition setCurrentView (v : ViewState) (st : AppState) :=
  {| projects := projects st; currentView := v;
     activeProject := activeProject st; buildingStep := buildingStep st;
     buildingCodeSnippet := buildingCodeSnippet st;
     aiResponse := aiResponse st; isGenerating := isGenerating st;
     showModal := showModal st; refineText := refineText st;
     originalPrompt := originalPrompt st |}.

Definition setActiveProject (a : option ProjectData) (st : AppState) :=
  {| projects := projects st; currentView := currentView st;
     activeProject := a; buildingStep := buildingStep st;
     buildingCodeSnippet := buildingCodeSnippet st;
     aiResponse := aiResponse st; isGenerating := isGenerating st;
     showModal := showModal st; refineText := refineText st;
     originalPrompt := originalPrompt st |}.

Definition setBuilding (step : nat) (snippet : jsstring) (st : AppState) :=
  {| projects := projects st; currentView := currentView st;
     activeProject := activeProject st; buildingStep := step;
     buildingCodeSnippet := snippet;
     aiResponse := aiResponse st; isGenerating := isGenerating st;
     showModal := showModal st; refineText := refineText st;
     originalPrompt := originalPrompt st |}.

Definition setShowModal (b : bool) (st : AppState) :=
  {| projects := projects st; currentView := currentView st;
     activeProject := activeProject st; buildingStep := buildingStep st;
     buildingCodeSnippet := buildingCodeSnippet st;
     aiResponse := aiResponse st; isGenerating := isGenerating st;
     showModal := b; refineText := refineText st;
     originalPrompt := originalPrompt st |}.

Definition p_id_is (i : jsstring) (p : ProjectData) : bool :=
  jsstring_eqb (p_id p) i.

(** The handlers return the new state and the alerts they raise. *)
Definition handleEditorBack (st : AppState) : AppState * list jsstring :=
  (setActiveProject None (setCurrentView home st), []).

Definition handleOpenProject (project : ProjectData) (st : AppState)
  : AppState * list jsstring :=
  if truthy (or_else (p_code project) []) then
    (setCurrentView editor (setActiveProject (Some project) st), [])
  else (st, [str "Project data unavailable."]).

(** Called when the editor sends an update. *)
Definition handleProjectUpdate (updatedProject : ProjectData) (st : AppState)
  : AppState * list jsstring :=
  (setActiveProject (Some updatedProject)
     (setProjects
        (map (fun p => if p_id_is (p_id updatedProject) p
                       then updatedProject else p)
           (projects st))
        st),
   []).

Definition handleDeleteProject (projectId : jsstring) (confirmed : bool)
           (st : AppState) : AppState * list jsstring :=
  if confirmed then
    (setProjects
       (filter (fun p => negb (p_id_is projectId p)) (projects st)) st,
     [])
  else (st, []).

Definition handleRenameProject (projectId newTitle : jsstring)
           (st : AppState) : AppState * list jsstring :=
  (setProjects
     (map (fun p => if p_id_is projectId p then with_title p newTitle else p)
        (projects st))
     st,
   []).

(** *** Creating a project from the plan *)

(** [s.split('\n')] *)
Fixpoint split_lines (s : jsstring) : list jsstring :=
  match s with
  | [] => [[]]
  | c :: s' =>
      if N.eqb c 10 then [] :: split_lines s'
      else match split_lines s' with
           | l :: ls => (c :: l) :: ls
           | [] => [[c]]
           end
  end.

Fixpoint dropWhile (p : char -> bool) (s : jsstring) : jsstring :=
  match s with
  | c :: s' => if p c then dropWhile p s' else s
  | [] => []
  end.

(** [s.replace(/^#+\s*/, '')]: a run of [#] at the start of the text, with
    the white space after it, is removed. *)
Definition stripHeading (s : jsstring) : jsstring :=
  match s with
  | c :: _ =>
      if N.eqb c 35
      then dropWhile is_whitespace (dropWhile (N.eqb 35) s)
      else s
  | [] => []
  end.

(** [s.replace(/:$/, '')]: a colon that ends the text is removed. *)
Definition stripColon (s : jsstring) : jsstring :=
  match rev s with
  | c :: r => if N.eqb c 58 then rev r else s
  | [] => s
  end.

Definition isTitleLine (line : jsstring) : bool :=
  (0 <? length (trim line)) && negb (includes (str "Here is a") line).

(** The first telling line of the plan, if it has one. *)
Definition firstTitleLine (response : jsstring) : option jsstring :=
  find isTitleLine (split_lines response).

(** The title made of a line: markup removed, cut after [limit]
    characters. *)
Definition titleOf (limit : nat) (titleLine : jsstring) : jsstring :=
  let cleanTitle :=
    trim (stripColon (removeAll (str "**") (stripHeading titleLine))) in
  if limit <? length cleanTitle
  then firstn limit cleanTitle ++ str "..."
  else cleanTitle.

(** The number of matches of [/pat/g] for a pattern of literal characters:
    occurrences from the left, without overlap. *)
Fixpoint countAll_from (pat : jsstring) (skip : nat) (s : jsstring) : nat :=
  match s with
  | [] => 0
  | _ :: s' =>
      match skip with
      | S k => countAll_from pat k s'
      | O =>
          if truthy pat && starts_with pat s
          then S (countAll_from pat (length pat - 1) s')
          else countAll_from pat 0 s'
      end
  end.

Definition countAll (pat s : jsstring) : nat := countAll_from pat 0 s.

(** [s.slice(-n)] *)
Definition sliceLast (n : nat) (s : jsstring) : jsstring :=
  skipn (length s - n) s.

Definition CodeBackend := jsstring -> ContentStream.

Definition errorMarker : jsstring :=
  str "<!-- Error generating code. Please try again. -->".

(** The strings the generator [streamAppCode] yields: the non-empty chunk
    texts and, when the backend throws, an HTML comment that reports it. *)
Definition streamAppCode (ai : CodeBackend) (plan : jsstring)
  : list jsstring :=
  let response := ai plan in
  chunk_texts (chunks response)
  ++ match stream_end response with
     | Throws => [errorMarker]
     | Completes => []
     end.

(** The local variables of the loop over the stream. *)
Record Build := {
  b_code : jsstring;
  b_snippet : jsstring;
  b_step : nat
}.

Definition classAttr : jsstring := str "class=" ++ [34%N].

(** One turn of the loop. *)
Definition buildChunk (acc : Build) (chunk : jsstring) : Build :=
  let code0 := b_code acc ++ chunk in
  let snippet := sliceLast 1000 (b_snippet acc ++ chunk) in
  let step := b_step acc in
  let step :=
    if (includes (str "<!DOCTYPE") code0 || includes (str "<html") code0)
       && (step <? 1)
    then 1 else step in
  let step :=
    if (includes (str "<body") code0 || includes (str "<main") code0)
       && (step <? 2)
    then 2 else step in
  let classCount := countAll classAttr code0 in
  let step := if (15 <? classCount) && (step <? 3) then 3 else step in
  {| b_code := code0; b_snippet := snippet; b_step := step |}.

Definition cleanCode (code0 : jsstring) : jsstring :=
  trim (removeAll (str "```") (removeAll (str "```html") code0)).

Definition invalidCode (code0 : jsstring) : bool :=
  negb (truthy code0) || (length code0 <? 100)
  || includes (str "Error generating code") code0.

Definition newProject (now : N) (finalTitle code0 : jsstring) : ProjectData :=
  {| p_id := toString now;
     p_title := finalTitle;
     p_description := None;
     p_thumbnailUrl := [];
     p_viewedAt := str "Just now";
     p_authorName := str "You";
     p_authorAvatar := [];
     p_category := mine;
     p_code := Some code0;
     p_chatHistory := Some [] |}.

(** [handleCreateProject], run to its end; [now] is what [Date.now()]
    returns. *)
Definition handleCreateProject (ai : CodeBackend) (now : N) (st0 : AppState)
  : AppState * list jsstring :=
  match aiResponse st0 with
  | None => (st0, [])
  | Some plan =>
      if negb (truthy plan) then (st0, [])
      else
        let titleLine := or_else (firstTitleLine plan) (str "New Project") in
        let finalTitle := titleOf 40 titleLine in
        let st :=
          setShowModal false (setCurrentView building (setBuilding 0 [] st0)) in
        (* try *)
        let built :=
          fold_left buildChunk (streamAppCode ai plan)
            {| b_code := []; b_snippet := []; b_step := 0 |} in
        let st := setBuilding (b_step built) (b_snippet built) st in
        let code0 := cleanCode (b_code built) in
        if invalidCode code0 then
          (* catch *)
          (setCurrentView home st,
           [str "Failed to generate project. Please try again."])
        else
          let st := setBuilding 4 (b_snippet built) st in
          let created := newProject now finalTitle code0 in
          (setCurrentView editor
             (setActiveProject (Some created)
                (setProjects (created :: projects st) st)),
           [])
  end.

(** The title shown on the building screen. *)
Definition displayTitle (st : AppState) : jsstring :=
  let titleLine :=
    or_else
      (match aiResponse st with
       | Some plan => firstTitleLine plan
       | None => None
       end)
      (str "Project") in
  titleOf 30 titleLine.

(** *** Asking for a plan *)

(** A part of the request sent to the model. *)
Inductive Part :=
| TextPart (t : jsstring)
| InlineData (mimeType data : jsstring).

Definition IdeaBackend := list Part -> ContentStream.

Definition is_lower (c : char) : bool := ((97 <=? c) && (c <=? 122))%N.

(** The characters the dot of a regular expression does not match. *)
Definition is_line_terminator (c : char) : bool :=
  ((c =? 10) || (c =? 13) || (c =? 8232) || (c =? 8233))%N.

Fixpoint takeWhile (p : char -> bool) (s : jsstring) : jsstring :=
  match s with
  | c :: s' => if p c then c :: takeWhile p s' else []
  | [] => []
  end.

Definition stripPrefix (pre s : jsstring) : option jsstring :=
  if starts_with pre s then Some (skipn (length pre) s) else None.

(** [s.match(/^data:(image\/[a-z]+);base64,(.+)$/)]: the two groups, when
    the whole text has this form. *)
Definition parseDataUrl (s : jsstring) : option (jsstring * jsstring) :=
  match stripPrefix (str "data:image/") s with
  | None => None
  | Some r =>
      let subtype := takeWhile is_lower r in
      if negb (truthy subtype) then None
      else
        match stripPrefix (str ";base64,") (dropWhile is_lower r) with
        | None => None
        | Some data =>
            if truthy data
               && forallb (fun c => negb (is_line_terminator c)) data
            then Some (str "image/" ++ subtype, data)
            else None
        end
  end.

Definition apology : jsstring :=
  [10%N; 10%N]
  ++ str "(Sorry, I encountered an error while connecting to the AI. Please try again.)".

(** The parts [streamIdeaResponse] sends. *)
Definition ideaParts (prompt : jsstring) (imageBase64 : option jsstring)
  : list Part :=
  let parts := [TextPart prompt] in
  match imageBase64 with
  | Some img =>
      if truthy img then
        match parseDataUrl img with
        | Some (mimeType, data) => InlineData mimeType data :: parts
        | None => parts
        end
      else parts
  | None => parts
  end.

(** The strings the generator [streamIdeaResponse] yields. *)
Definition streamIdeaResponse (ai : IdeaBackend) (prompt : jsstring)
           (imageBase64 : option jsstring) : list jsstring :=
  let response := ai (ideaParts prompt imageBase64) in
  chunk_texts (chunks response)
  ++ match stream_end response with
     | Throws => [apology]
     | Completes => []
     end.

Definition setAiResponse (r : option jsstring) (st : AppState) :=
  {| projects := projects st; currentView := currentView st;
     activeProject := activeProject st; buildingStep := buildingStep st;
     buildingCodeSnippet := buildingCodeSnippet st;
     aiResponse := r; isGenerating := isGenerating st;
     showModal := showModal st; refineText := refineText st;
     originalPrompt := originalPrompt st |}.

Definition setIsGenerating (b : bool) (st : AppState) :=
  {| projects := projects st; currentView := currentView st;
     activeProject := activeProject st; buildingStep := buildingStep st;
     buildingCodeSnippet := buildingCodeSnippet st;
     aiResponse := aiResponse st; isGenerating := b;
     showModal := showModal st; refineText := refineText st;
     originalPrompt := originalPrompt st |}.

Definition setOriginalPrompt (s : jsstring) (st : AppState) :=
  {| projects := projects st; currentView := currentView st;
     activeProject := activeProject st; buildingStep := buildingStep st;
     buildingCodeSnippet := buildingCodeSnippet st;
     aiResponse := aiResponse st; isGenerating := isGenerating st;
     showModal := showModal st; refineText := refineText st;
     originalPrompt := s |}.

Definition setRefineText (s : jsstring) (st : AppState) :=
  {| projects := projects st; currentView := currentView st;
     activeProject := activeProject st; buildingStep := buildingStep st;
     buildingCodeSnippet := buildingCodeSnippet st;
     aiResponse := aiResponse st; isGenerating := isGenerating st;
     showModal := showModal st; refineText := s;
     originalPrompt := originalPrompt st |}.

(** [`${r}`] for a response that may be [null]. *)
Definition interpolate (r : option jsstring) : jsstring :=
  match r with Some t => t | None => str "null" end.

(** [handleSearch], run to its end. *)
Definition handleSearch (ai : IdeaBackend) (prompt : jsstring)
           (imageBase64 : option jsstring) (isRefinement : bool)
           (st0 : AppState) : AppState * list jsstring :=
  let st := setIsGenerating true st0 in
  let st :=
    if isRefinement then st
    else setOriginalPrompt prompt
           (setAiResponse (Some []) (setShowModal true st)) in
  let effectivePrompt :=
    if isRefinement then
      str "Original Request: " ++ originalPrompt st0
      ++ [10%N; 10%N] ++ str "Current Plan:" ++ [10%N]
      ++ interpolate (aiResponse st0)
      ++ [10%N; 10%N] ++ str "User Feedback: " ++ prompt
      ++ [10%N; 10%N]
      ++ str "Please update the plan based on the feedback."
    else prompt in
  let st := if isRefinement then setAiResponse (Some []) st else st in
  let st :=
    fold_left
      (fun st chunk =>
         setAiResponse (Some (or_else (aiResponse st) [] ++ chunk)) st)
      (streamIdeaResponse ai effectivePrompt imageBase64) st in
  (setIsGenerating false st, []).

Definition closeModal (st : AppState) : AppState * list jsstring :=
  (setRefineText [] (setAiResponse None (setShowModal false st)), []).

Definition handleRefineSubmit (ai : IdeaBackend) (st : AppState)
  : AppState * list jsstring :=
  if negb (truthy (trim (refineText st))) then (st, [])
  else
    let '(st', alerts) := handleSearch ai (refineText st) None true st in
    (setRefineText [] st', alerts).

(** The card's [onRename] is the application's [handleRenameProject]:
    a submit on the card of [project], seen from both sides. *)
Definition submitRename (project : ProjectData) (card : CardState)
           (st : AppState) : CardState * AppState :=
  match handleRenameSubmit project card with
  | (card', Some (i, t)) => (card', fst (handleRenameProject i t st))
  | (card', None) => (card', st)
  end.

(** *** Runs of the application *)

Inductive AppAction :=
| Search (ai : IdeaBackend) (prompt : jsstring) (image : option jsstring)
| Refine (ai : IdeaBackend)
| TypeRefine (s : jsstring)
| CloseModal
| CreateProject (ai : CodeBackend) (now : N)
| OpenProject (project : ProjectData)
| GoHome
| EditorBack
| EditorUpdate (e : Project)
| DeleteProject (projectId : jsstring) (confirmed : bool)
| RenameProject (projectId newTitle : jsstring).

(** An update of the editor concerns the project that is open: the editor
    sends [{ ...project, ... }] for the project it was given. *)
Definition appStep (a : AppAction) (st : AppState) : AppState * list jsstring :=
  match a with
  | Search ai prompt image => handleSearch ai prompt image false st
  | Refine ai => handleRefineSubmit ai st
  | TypeRefine s => (setRefineText s st, [])
  | CloseModal => closeModal st
  | CreateProject ai now => handleCreateProject ai now st
  | OpenProject project => handleOpenProject project st
  | GoHome => (setCurrentView home st, [])
  | EditorBack => handleEditorBack st
  | EditorUpdate e =>
      match activeProject st with
      | Some project => handleProjectUpdate (fromEditor project e) st
      | None => (st, [])
      end
  | DeleteProject i c => handleDeleteProject i c st
  | RenameProject i t => handleRenameProject i t st
  end.

(** The cards show the projects of the list, and only those can be opened,
    deleted or renamed; a card never submits a blank title. *)
Definition appAllowed (a : AppAction) (st : AppState) : Prop :=
  match a with
  | OpenProject project => In project (projects st)
  | DeleteProject i _ => In i (map p_id (projects st))
  | RenameProject i t =>
      In i (map p_id (projects st)) /\ truthy (trim t) = true
  | EditorUpdate _ => currentView st = editor
  | _ => True
  end.

Inductive appReachable : AppState -> Prop :=
| app_init : forall stored, appReachable (initialApp stored)
| app_step : forall a st,
    appReachable st -> appAllowed a st -> appReachable (fst (appStep a st)).

End App.

(** ** Sample projects and backends of the application *)

Module AppSamples.
Import JS RegExp Editor Props Samples App.

Definition longPage : jsstring :=
  str "<!DOCTYPE html><html><head><title>Tasks</title></head><body><main><h1>Tasks</h1><ul id=list></ul></main></body></html>".

Definition plan : jsstring :=
  str "Here is a plan for you" ++ [10%N]
  ++ str "## **Task Manager**:" ++ [10%N] ++ str "1) Core Features".

(** A backend that answers with [longPage] inside a fence, in two chunks. *)
Definition codeBackend : CodeBackend :=
  fun _ =>
    {| chunks := [Some (str "```html" ++ firstn 30 longPage);
                  Some (skipn 30 longPage ++ str "```")];
       stream_end := Completes |}.

(** A backend that delivers [longPage] and then throws. *)
Definition brokenCodeBackend : CodeBackend :=
  fun _ => {| chunks := [Some longPage]; stream_end := Throws |}.

Definition sampleProject (i : string) (c : Category) : ProjectData :=
  {| p_id := str i; p_title := str "Sample"; p_description := None;
     p_thumbnailUrl := []; p_viewedAt := str "Just now";
     p_authorName := str "You"; p_authorAvatar := [];
     p_category := c; p_code := Some page; p_chatHistory := None |}.

Definition stored : Stored :=
  Saved [ sampleProject "10" template; sampleProject "11" mine;
          sampleProject "12" shared ].

(** The application with a plan on the screen. *)
Definition planned : AppState :=
  setAiResponse (Some plan) (initialApp stored).

(** An editor whose only file is a second page: the root was deleted. *)
Definition pageOnly : EditorState :=
  fst (step (DeleteFile (str "1") true)
         (fst (step (CreateFile (Some (str "about.html")) 1730000000000)
                 (initialState noProject)))).

End AppSamples.

(** ** Facts about the string operations *)

Unset Implicit Arguments.

Module JSFacts.
Import JS Props.

(** A closed fact of the form [~ P], [P] decided by evaluation. *)
Ltac refute_by_evaluation :=
  let H := fresh "H" in intros H; vm_compute in H; intuition discriminate.

Lemma jsstring_eqb_eq (a b : jsstring) : jsstring_eqb a b = true <-> a = b.
Proof.
  revert b; induction a as [|x a IH]; intros [|y b]; simpl;
    try (split; (discriminate || reflexivity)).
  rewrite andb_true_iff, N.eqb_eq, IH.
  split; [intros [-> ->]; reflexivity | intros [= -> ->]; auto].
Qed.

Lemma jsstring_eqb_refl (a : jsstring) : jsstring_eqb a a = true.
Proof. apply jsstring_eqb_eq; reflexivity. Qed.

Lemma jsstring_eqb_neq (a b : jsstring) : jsstring_eqb a b = false <-> a <> b.
Proof.
  rewrite <- jsstring_eqb_eq. destruct (jsstring_eqb a b); split; congruence.
Qed.

Lemma truthy_length (s : jsstring) : truthy s = (0 <? length s).
Proof. destruct s; reflexivity. Qed.

Lemma truthy_false (s : jsstring) : truthy s = false <-> s = [].
Proof. destruct s; simpl; split; congruence. Qed.

Lemma starts_with_iff (pat s : jsstring) :
  starts_with pat s = true <-> exists post, s = pat ++ post.
Proof.
  revert s; induction pat as [|p pat IH]; intros s; simpl.
  - split; eauto.
  - destruct s as [|c s].
    + split; [discriminate | intros [post H]; discriminate].
    + rewrite andb_true_iff, N.eqb_eq, IH. split.
      * intros [-> [post ->]]. eauto.
      * intros [post [= -> ->]]. eauto.
Qed.

Lemma starts_with_app (pat post : jsstring) : starts_with pat (pat ++ post) = true.
Proof. apply starts_with_iff; eauto. Qed.

(** [indexOf] finds an occurrence, and the leftmost one. *)
Lemma indexOf_Some (pat s : jsstring) (i : nat) :
  indexOf pat s = Some i ->
  exists pre post, first_at pat s pre post /\ length pre = i.
Proof.
  revert i; induction s as [|c s IH]; intros i; simpl.
  - destruct (starts_with pat []) eqn:E; [|discriminate].
    intros [= <-]. apply starts_with_iff in E as [post E].
    exists [], post. repeat split; simpl; auto with arith.
  - destruct (starts_with pat (c :: s)) eqn:E.
    + intros [= <-]. apply starts_with_iff in E as [post E].
      exists [], post. repeat split; simpl; auto with arith.
    + destruct (indexOf pat s) as [j|] eqn:Ej; [|discriminate].
      simpl. intros [= <-].
      destruct (IH j eq_refl) as (pre & post & [Hs Hmin] & Hlen).
      exists (c :: pre), post. repeat split; simpl; [congruence | | lia].
      intros [|c' pre'] post' H'.
      * simpl in H'. rewrite H', starts_with_app in E. discriminate.
      * simpl in H'. injection H' as _ H'.
        specialize (Hmin _ _ H'). simpl. lia.
Qed.

Lemma indexOf_None (pat s : jsstring) : indexOf pat s = None -> absent pat s.
Proof.
  induction s as [|c s IH]; simpl.
  - destruct (starts_with pat []) eqn:E; [discriminate|].
    intros _ [|? ?] post H; simpl in H.
    + rewrite H, starts_with_app in E. discriminate.
    + discriminate.
  - destruct (starts_with pat (c :: s)) eqn:E; [discriminate|].
    destruct (indexOf pat s) eqn:Ei; [discriminate|].
    intros _ [|c' pre] post H; simpl in H.
    + rewrite H, starts_with_app in E. discriminate.
    + injection H as _ H. exact (IH eq_refl _ _ H).
Qed.

Lemma first_at_indexOf (pat s pre post : jsstring) :
  first_at pat s pre post -> indexOf pat s = Some (length pre).
Proof.
  intros [Hs Hmin].
  destruct (indexOf pat s) as [i|] eqn:E.
  - destruct (indexOf_Some _ _ _ E) as (pre' & post' & [Hs' Hmin'] & <-).
    f_equal. specialize (Hmin _ _ Hs'). specialize (Hmin' _ _ Hs). lia.
  - exfalso. exact (indexOf_None _ _ E _ _ Hs).
Qed.

Lemma absent_indexOf (pat s : jsstring) : absent pat s -> indexOf pat s = None.
Proof.
  intros H. destruct (indexOf pat s) as [i|] eqn:E; [|reflexivity].
  destruct (indexOf_Some _ _ _ E) as (pre & post & [Hs _] & _).
  exfalso. exact (H _ _ Hs).
Qed.

Lemma includes_true (pat s : jsstring) :
  includes pat s = true <-> exists pre post, s = pre ++ pat ++ post.
Proof.
  unfold includes. destruct (indexOf pat s) as [i|] eqn:E.
  - destruct (indexOf_Some _ _ _ E) as (pre & post & [Hs _] & _).
    split; eauto.
  - split; [discriminate|]. intros (pre & post & H).
    exfalso. exact (indexOf_None _ _ E _ _ H).
Qed.

Lemma includes_false (pat s : jsstring) :
  includes pat s = false <-> absent pat s.
Proof.
  split.
  - intros H pre post Hs.
    assert (includes pat s = true) by (apply includes_true; eauto).
    congruence.
  - intros H. unfold includes. rewrite (absent_indexOf _ _ H). reflexivity.
Qed.

(** A template without a dollar is inserted as it is. *)
Lemma getSubstitution_plain (m p f t : jsstring) :
  ~ In dollar t -> getSubstitution m p f t = t.
Proof.
  induction t as [|c t IH]; simpl; [reflexivity|].
  intros H. destruct (N.eqb c dollar) eqn:E.
  - apply N.eqb_eq in E. exfalso. apply H. left. exact E.
  - f_equal. apply IH. intros Hin. apply H. right. exact Hin.
Qed.

Lemma firstn_skipn_at (pre rest : jsstring) :
  firstn (length pre) (pre ++ rest) = pre /\
  skipn (length pre) (pre ++ rest) = rest.
Proof.
  split.
  - rewrite firstn_app, Nat.sub_diag, firstn_all. simpl. apply app_nil_r.
  - rewrite skipn_app, Nat.sub_diag, skipn_all. reflexivity.
Qed.

Lemma replace_at (pat r s pre post : jsstring) :
  first_at pat s pre post ->
  replace pat r s = pre ++ getSubstitution pat pre post r ++ post.
Proof.
  intros H. unfold replace. rewrite (first_at_indexOf _ _ _ _ H).
  destruct H as [-> _].
  destruct (firstn_skipn_at pre (pat ++ post)) as [-> _].
  replace (pre ++ pat ++ post) with ((pre ++ pat) ++ post)
    by (rewrite app_assoc; reflexivity).
  replace (length pre + length pat) with (length (pre ++ pat))
    by (rewrite length_app; reflexivity).
  destruct (firstn_skipn_at (pre ++ pat) post) as [_ ->].
  reflexivity.
Qed.

Lemma replace_plain (pat r s pre post : jsstring) :
  first_at pat s pre post -> ~ In dollar r ->
  replace pat r s = pre ++ r ++ post.
Proof.
  intros H Hr. rewrite (replace_at _ _ _ _ _ H), getSubstitution_plain; auto.
Qed.

Lemma replace_absent (pat r s : jsstring) :
  absent pat s -> replace pat r s = s.
Proof. intros H. unfold replace. rewrite (absent_indexOf _ _ H). reflexivity. Qed.

Lemma getSubstitution_plain_prefix (m p f a t : jsstring) :
  ~ In dollar a ->
  getSubstitution m p f (a ++ t) = a ++ getSubstitution m p f t.
Proof.
  induction a as [|c a IH]; intros H; [reflexivity|].
  change ((c :: a) ++ t) with (c :: (a ++ t)).
  cbn [getSubstitution].
  destruct (N.eqb c dollar) eqn:E.
  - apply N.eqb_eq in E. exfalso. apply H. left. exact E.
  - simpl. f_equal. apply IH. intros Hin. apply H. right. exact Hin.
Qed.

(** Whatever the template holds before it, a dollar-free tail that starts
    with [<] comes out unchanged at the end of the substitution. *)
Lemma getSubstitution_keeps_tail (m p f b : jsstring) :
  ~ In dollar (60%N :: b) ->
  forall n (X : jsstring), length X <= n ->
  exists Y : jsstring,
    getSubstitution m p f (X ++ 60%N :: b) = Y ++ 60%N :: b.
Proof.
  intros Hb. induction n as [|n IH]; intros X HX.
  - destruct X; [|simpl in HX; lia].
    exists []. simpl app. apply getSubstitution_plain. exact Hb.
  - destruct X as [|c X].
    + exists []. simpl app. apply getSubstitution_plain. exact Hb.
    + simpl in HX. change ((c :: X) ++ 60%N :: b) with (c :: (X ++ 60%N :: b)).
      cbn [getSubstitution].
      destruct (N.eqb c dollar).
      * destruct X as [|d X].
        -- simpl app. cbn iota. change (N.eqb 60 36) with false.
           change (N.eqb 60 38) with false. change (N.eqb 60 96) with false.
           change (N.eqb 60 39) with false. cbn iota.
           rewrite (getSubstitution_plain _ _ _ _ Hb).
           exists [dollar]. reflexivity.
        -- change ((d :: X) ++ 60%N :: b) with (d :: (X ++ 60%N :: b)).
           cbn iota. simpl in HX.
           destruct (IH X ltac:(lia)) as [Y HY].
           destruct (IH (d :: X) ltac:(simpl; lia)) as [Y' HY'].
           change ((d :: X) ++ 60%N :: b) with (d :: (X ++ 60%N :: b)) in HY'.
           destruct (N.eqb d 36); [|destruct (N.eqb d 38);
             [|destruct (N.eqb d 96); [|destruct (N.eqb d 39)]]].
           ++ exists (dollar :: Y). rewrite HY. reflexivity.
           ++ exists (m ++ Y). rewrite HY, app_assoc. reflexivity.
           ++ exists (p ++ Y). rewrite HY, app_assoc. reflexivity.
           ++ exists (f ++ Y). rewrite HY, app_assoc. reflexivity.
           ++ exists (dollar :: Y'). rewrite HY'. reflexivity.
      * destruct (IH X ltac:(lia)) as [Y HY].
        exists (c :: Y). rewrite HY. reflexivity.
Qed.

(** *** [trim] *)

Lemma absent_tail (pat : jsstring) (c : char) (s : jsstring) :
  absent pat (c :: s) -> absent pat s.
Proof.
  intros H pre post E. apply (H (c :: pre) post). rewrite E. reflexivity.
Qed.

Lemma pattern_free_tail (c : char) (s : jsstring) :
  pattern_free (c :: s) -> pattern_free s.
Proof.
  intros (H1 & H2 & H3 & H4).
  repeat split; eapply absent_tail; eassumption.
Qed.

(** In a text without replacement patterns a dollar is followed by none of
    the four characters that make one. *)
Lemma pattern_free_head (d : char) (s : jsstring) :
  pattern_free (dollar :: d :: s) ->
  N.eqb d 36 = false /\ N.eqb d 38 = false /\
  N.eqb d 96 = false /\ N.eqb d 39 = false.
Proof.
  intros (H1 & H2 & H3 & H4).
  repeat split; apply N.eqb_neq; intros ->.
  - exact (H1 [] s eq_refl).
  - exact (H2 [] s eq_refl).
  - exact (H3 [] s eq_refl).
  - exact (H4 [] s eq_refl).
Qed.

(** A template made of a text without replacement patterns and a
    dollar-free tail that starts with [<] is inserted as it is: a dollar
    followed by any other character stands for itself. *)
Lemma getSubstitution_pattern_free (m p f b pl : jsstring) :
  ~ In dollar (60%N :: b) -> pattern_free pl ->
  getSubstitution m p f (pl ++ 60%N :: b) = pl ++ 60%N :: b.
Proof.
  intros Hb. induction pl as [|c pl IH]; intros Hpf.
  - apply getSubstitution_plain. exact Hb.
  - specialize (IH (pattern_free_tail _ _ Hpf)).
    change ((c :: pl) ++ 60%N :: b) with (c :: (pl ++ 60%N :: b)).
    cbn [getSubstitution].
    destruct (N.eqb c dollar) eqn:E.
    + apply N.eqb_eq in E. subst c.
      destruct pl as [|d pl].
      * simpl app in *. cbn iota. change (N.eqb 60 36) with false.
        change (N.eqb 60 38) with false. change (N.eqb 60 96) with false.
        change (N.eqb 60 39) with false. cbn iota.
        rewrite IH. reflexivity.
      * change ((d :: pl) ++ 60%N :: b) with (d :: (pl ++ 60%N :: b)) in *.
        cbn iota.
        destruct (pattern_free_head _ _ Hpf) as (-> & -> & -> & ->).
        rewrite IH. reflexivity.
    + rewrite IH. reflexivity.
Qed.

Lemma trimStart_suffix (s : jsstring) : exists w, s = w ++ trimStart s.
Proof.
  induction s as [|c s [w IH]]; simpl.
  - exists []. reflexivity.
  - destruct (is_whitespace c).
    + exists (c :: w). simpl. congruence.
    + exists []. reflexivity.
Qed.

Lemma trimStart_head (s : jsstring) (c : char) (t : jsstring) :
  trimStart s = c :: t -> is_whitespace c = false.
Proof.
  induction s as [|x s IH]; simpl; [discriminate|].
  destruct (is_whitespace x) eqn:E; [exact IH|].
  intros [= <- _]. exact E.
Qed.

Lemma trimStart_fixed (s : jsstring) :
  match s with [] => True | c :: _ => is_whitespace c = false end ->
  trimStart s = s.
Proof. destruct s as [|c s]; simpl; [reflexivity|]. intros ->. reflexivity. Qed.

Lemma trimStart_idem (s : jsstring) : trimStart (trimStart s) = trimStart s.
Proof.
  apply trimStart_fixed. destruct (trimStart s) as [|c t] eqn:E; [exact I|].
  exact (trimStart_head _ _ _ E).
Qed.

Lemma trimEnd_prefix (s : jsstring) : exists w, s = trimEnd s ++ w.
Proof.
  unfold trimEnd. destruct (trimStart_suffix (rev s)) as [w Hw].
  exists (rev w). rewrite <- rev_app_distr, <- Hw, rev_involutive. reflexivity.
Qed.

Lemma trim_idem (s : jsstring) : trim (trim s) = trim s.
Proof.
  unfold trim.
  assert (H : trimStart (trimEnd (trimStart s)) = trimEnd (trimStart s)).
  { apply trimStart_fixed.
    destruct (trimEnd_prefix (trimStart s)) as [w Hw].
    destruct (trimEnd (trimStart s)) as [|c t]; [exact I|].
    simpl in Hw. exact (trimStart_head _ _ _ Hw). }
  rewrite H. unfold trimEnd at 1 2. rewrite rev_involutive, trimStart_idem.
  reflexivity.
Qed.

Lemma trim_nil : trim [] = [].
Proof. reflexivity. Qed.

Lemma join_nil (sep : jsstring) : join sep [] = [].
Proof. reflexivity. Qed.

Lemma join_one (sep x : jsstring) : join sep [x] = x.
Proof. reflexivity. Qed.

End JSFacts.

(** ** Facts about the matcher *)

Module RegExpFacts.
Import JS RegExp Editor Props JSFacts.

Lemma canonicalize_gt (c : char) :
  N.eqb (canonicalize gt) (canonicalize c) = N.eqb c gt.
Proof.
  unfold canonicalize, gt.
  change ((97 <=? 62) && (62 <=? 122))%N with false. cbv iota.
  destruct (N.leb_spec 97 c); destruct (N.leb_spec c 122); cbn [andb];
    destruct (N.eqb_spec c 62); try (apply N.eqb_neq; lia);
    try (apply N.eqb_eq; lia).
Qed.

Lemma ci_eq_length (a b : jsstring) : ci_eq a b -> length a = length b.
Proof.
  unfold ci_eq. intros H.
  rewrite <- (length_map canonicalize a), H, length_map. reflexivity.
Qed.

Lemma ci_eq_refl (a : jsstring) : ci_eq a a.
Proof. reflexivity. Qed.

Lemma ci_prefix_iff (pat s : jsstring) :
  ci_prefix pat s = true <-> exists w rest, s = w ++ rest /\ ci_eq w pat.
Proof.
  revert s; induction pat as [|p pat IH]; intros s; simpl.
  - split; [intros _; exists [], s; split; reflexivity | reflexivity].
  - destruct s as [|c s].
    + split; [discriminate|].
      intros (w & rest & H & Hw). apply ci_eq_length in Hw.
      destruct w; simpl in *; discriminate.
    + rewrite andb_true_iff, N.eqb_eq, IH. split.
      * intros [Hc (w & rest & -> & Hw)].
        exists (c :: w), rest. split; [reflexivity|].
        unfold ci_eq in *. simpl. congruence.
      * intros (w & rest & H & Hw).
        destruct w as [|x w]; [apply ci_eq_length in Hw; discriminate|].
        simpl in H. injection H as -> ->.
        unfold ci_eq in Hw. simpl in Hw. injection Hw as Hx Hw.
        split; [congruence|]. exists w, rest. split; [reflexivity|exact Hw].
Qed.

Lemma ci_prefix_skipn (pat w rest : jsstring) :
  ci_eq w pat -> skipn (length pat) (w ++ rest) = rest.
Proof.
  intros H. rewrite <- (ci_eq_length _ _ H).
  apply (firstn_skipn_at w rest).
Qed.

(** The literal pattern [lit]: its characters, compared up to case. *)
Lemma rmatch_lit (p s : jsstring) cap k :
  rmatch (fold_right (fun c r => Seq (Class (CLit c)) r) Eps p) s cap k
  = if ci_prefix p s then k (skipn (length p) s) cap else None.
Proof.
  revert s; induction p as [|x p IH]; intros s; simpl; [reflexivity|].
  destruct s as [|c s]; [reflexivity|].
  destruct (N.eqb (canonicalize x) (canonicalize c)); simpl; [apply IH|].
  reflexivity.
Qed.

(** [[^>]*>]: the attributes end at the first [>]. *)
Lemma rmatch_attrs (r : regex) (s : jsstring) cap k :
  rmatch (Seq (Star true (CNot gt)) (Seq (Class (CLit gt)) r)) s cap k
  = match split_gt s with
    | Some (_, rest) => rmatch r rest cap k
    | None => None
    end.
Proof.
  cbn [rmatch cmatch]. induction s as [|c s IH]; [reflexivity|].
  cbn [star_greedy split_gt].
  change (cmatch (CNot gt) c)
    with (negb (N.eqb (canonicalize gt) (canonicalize c))).
  rewrite !canonicalize_gt.
  destruct (N.eqb c gt) eqn:E; cbn [negb]; [reflexivity|].
  rewrite IH.
  destruct (split_gt s) as [[a b]|]; [destruct (rmatch r b cap k)|];
    reflexivity.
Qed.

(** [([\s\S]*?)] before a literal: the group ends at the first occurrence
    of the literal. *)
Lemma rmatch_inner_from (close pre s : jsstring) :
  star_lazy (cmatch CAny) s
    (fun s' =>
       rmatch (fold_right (fun c r => Seq (Class (CLit c)) r) Eps close) s'
         (Some (firstn (length (pre ++ s) - length s') (pre ++ s))) accept)
  = match split_ci close s with
    | Some (inner, rest) => Some (rest, Some (pre ++ inner))
    | None => None
    end.
Proof.
  revert pre; induction s as [|c s IH]; intros pre.
  - cbn [star_lazy split_ci]. rewrite rmatch_lit.
    destruct (ci_prefix close []); [|reflexivity].
    unfold accept. rewrite length_app, Nat.add_sub.
    destruct (firstn_skipn_at pre []) as [-> _].
    rewrite app_nil_r. reflexivity.
  - cbn [star_lazy split_ci cmatch]. rewrite rmatch_lit.
    destruct (ci_prefix close (c :: s)).
    + unfold accept. rewrite length_app, Nat.add_sub.
      destruct (firstn_skipn_at pre (c :: s)) as [-> _].
      rewrite app_nil_r. reflexivity.
    + replace (pre ++ c :: s) with ((pre ++ [c]) ++ s)
        by (rewrite <- app_assoc; reflexivity).
      rewrite IH. destruct (split_ci close s) as [[a b]|]; [|reflexivity].
      rewrite <- app_assoc. reflexivity.
Qed.

Lemma rmatch_inner (close s : jsstring) cap :
  rmatch (Seq (Group (Star false CAny))
            (fold_right (fun c r => Seq (Class (CLit c)) r) Eps close))
    s cap accept
  = match split_ci close s with
    | Some (inner, rest) => Some (rest, Some inner)
    | None => None
    end.
Proof.
  cbn [rmatch]. exact (rmatch_inner_from close [] s).
Qed.

(** The lookahead [[^>]*src] succeeds exactly when [src] starts before the
    first [>]. *)
Lemma rmatch_lookahead (pat s : jsstring) cap :
  match rmatch (Seq (Star true (CNot gt))
                  (fold_right (fun c r => Seq (Class (CLit c)) r) Eps pat))
          s cap accept with
  | Some _ => true
  | None => false
  end = run_has pat s.
Proof.
  cbn [rmatch]. induction s as [|c s IH].
  - cbn [star_greedy run_has]. rewrite rmatch_lit.
    destruct (ci_prefix pat []); reflexivity.
  - cbn [star_greedy run_has].
    change (cmatch (CNot gt) c)
      with (negb (N.eqb (canonicalize gt) (canonicalize c))).
    rewrite canonicalize_gt, rmatch_lit.
    destruct (N.eqb c gt); cbn [negb].
    + destruct (ci_prefix pat (c :: s)); reflexivity.
    + destruct (star_greedy _ s _) as [r|].
      * rewrite <- IH. destruct (ci_prefix pat (c :: s)); reflexivity.
      * rewrite <- IH. destruct (ci_prefix pat (c :: s)); reflexivity.
Qed.

Lemma rmatch_seq (r1 r2 : regex) (s : jsstring) cap k :
  rmatch (Seq r1 r2) s cap k
  = rmatch r1 s cap (fun s' cap' => rmatch r2 s' cap' k).
Proof. reflexivity. Qed.

Lemma rmatch_neglook (r : regex) (s : jsstring) cap k :
  rmatch (NegLookahead r) s cap k
  = if match rmatch r s cap accept with Some _ => true | None => false end
    then None else k s cap.
Proof.
  cbn [rmatch]. unfold accept. destruct (rmatch r s cap _); reflexivity.
Qed.

(** The two patterns of the extractor, read at one position. *)
Lemma rmatch_styleRe (s : jsstring) :
  rmatch styleRe s None accept = block_here "style" false s.
Proof.
  unfold styleRe, block_here, lit. rewrite rmatch_seq, rmatch_lit.
  destruct (ci_prefix _ s); [|reflexivity].
  cbn [andb]. change 62%N with gt.
  rewrite rmatch_attrs.
  destruct (split_gt _) as [[a b]|]; [|reflexivity].
  exact (rmatch_inner _ b None).
Qed.

Lemma rmatch_scriptRe (s : jsstring) :
  rmatch scriptRe s None accept = block_here "script" true s.
Proof.
  unfold scriptRe, block_here, lit. rewrite rmatch_seq, rmatch_lit.
  destruct (ci_prefix _ s); [|reflexivity].
  cbn [andb]. change 62%N with gt.
  rewrite rmatch_seq, rmatch_neglook, rmatch_lookahead.
  change (length (str "<script")) with (length (str "<" ++ str "script")).
  destruct (run_has _ _); [reflexivity|].
  rewrite rmatch_attrs.
  destruct (split_gt _) as [[a b]|]; [|reflexivity].
  exact (rmatch_inner _ b None).
Qed.

(** *** The positional reading against blocks *)

Lemma split_gt_Some (s a b : jsstring) :
  split_gt s = Some (a, b) -> s = a ++ gt :: b /\ ~ In gt a.
Proof.
  revert a b; induction s as [|c s IH]; intros a b; simpl; [discriminate|].
  destruct (N.eqb_spec c gt) as [->|Hc].
  - intros [= <- <-]. split; [reflexivity|intros []].
  - destruct (split_gt s) as [[a' b']|]; [|discriminate].
    intros [= <- <-]. destruct (IH _ _ eq_refl) as [-> Hin].
    split; [reflexivity|]. intros [H|H]; [congruence|exact (Hin H)].
Qed.

Lemma split_gt_app (a b : jsstring) :
  ~ In gt a -> split_gt (a ++ gt :: b) = Some (a, b).
Proof.
  induction a as [|c a IH]; cbn [app split_gt]; intros H.
  - rewrite N.eqb_refl. reflexivity.
  - destruct (N.eqb_spec c gt) as [->|Hc]; [exfalso; apply H; left; reflexivity|].
    rewrite IH; [reflexivity|]. intros Hin. apply H. right. exact Hin.
Qed.

Lemma gt_split_unique (a b a' b' : jsstring) :
  ~ In gt a -> ~ In gt a' -> a ++ gt :: b = a' ++ gt :: b' ->
  a = a' /\ b = b'.
Proof.
  intros Ha Ha' H.
  pose proof (split_gt_app a b Ha) as E. rewrite H, (split_gt_app a' b' Ha') in E.
  injection E as -> ->. split; reflexivity.
Qed.

Lemma app_eq_length (a a' b b' : jsstring) :
  length a = length a' -> a ++ b = a' ++ b' -> a = a' /\ b = b'.
Proof.
  revert a'; induction a as [|x a IH]; intros [|y a']; simpl;
    try discriminate.
  - intros _ ->. split; reflexivity.
  - intros [= Hl] [= -> H]. destruct (IH _ Hl H) as [-> ->].
    split; reflexivity.
Qed.

Lemma split_ci_Some (pat s a b : jsstring) :
  split_ci pat s = Some (a, b) ->
  exists w, s = a ++ w ++ b /\ ci_eq w pat /\
    forall a' w' b', s = a' ++ w' ++ b' -> ci_eq w' pat ->
                     length a <= length a'.
Proof.
  revert a b; induction s as [|c s IH]; intros a b; cbn [split_ci].
  - destruct (ci_prefix pat []) eqn:E; [|discriminate].
    intros [= <- <-]. apply ci_prefix_iff in E as (w & rest & E & Hw).
    destruct w; [|discriminate]. destruct rest; [|discriminate].
    pose proof (ci_eq_length _ _ Hw) as Hl.
    destruct pat; [|discriminate].
    exists []. repeat split; auto. intros; simpl; lia.
  - destruct (ci_prefix pat (c :: s)) eqn:E.
    + intros [= <- <-]. apply ci_prefix_iff in E as (w & rest & E & Hw).
      exists w. rewrite E, (ci_prefix_skipn pat w rest Hw).
      repeat split; auto. intros; simpl; lia.
    + destruct (split_ci pat s) as [[a0 b0]|]; [|discriminate].
      intros [= <- <-].
      destruct (IH _ _ eq_refl) as (w & -> & Hw & Hmin).
      exists w. repeat split; auto.
      intros [|x a'] w' b' H' Hw'.
      * simpl in H'.
        assert (ci_prefix pat (c :: a0 ++ w ++ b0) = true)
          by (apply ci_prefix_iff; exists w', b'; auto).
        congruence.
      * simpl in H'. injection H' as _ H'.
        specialize (Hmin _ _ _ H' Hw'). simpl. lia.
Qed.

Lemma split_ci_complete (pat a w b : jsstring) :
  ci_eq w pat -> split_ci pat (a ++ w ++ b) <> None.
Proof.
  intros Hw. induction a as [|c a IH].
  - cbn [app].
    assert (E : ci_prefix pat (w ++ b) = true)
      by (apply ci_prefix_iff; exists w, b; auto).
    remember (w ++ b) as t. destruct t; cbn [split_ci]; rewrite E;
      discriminate.
  - cbn [app split_ci]. destruct (ci_prefix pat _); [discriminate|].
    destruct (split_ci pat (a ++ w ++ b)) as [[? ?]|];
      [discriminate|congruence].
Qed.

Lemma ci_prefix_cut (pat attrs rest : jsstring) :
  (forall p, In p pat -> N.eqb (canonicalize p) gt = false) ->
  ci_prefix pat (attrs ++ gt :: rest) = ci_prefix pat attrs.
Proof.
  revert attrs; induction pat as [|p pat IH]; intros attrs H;
    [reflexivity|].
  destruct attrs as [|c attrs]; cbn [app ci_prefix].
  - change (canonicalize gt) with gt. rewrite (H p) by (left; reflexivity).
    reflexivity.
  - rewrite IH; [reflexivity|]. intros q Hq. apply H. right. exact Hq.
Qed.

Lemma run_has_cut (pat attrs rest : jsstring) :
  (forall p, In p pat -> N.eqb (canonicalize p) gt = false) ->
  ~ In gt attrs ->
  run_has pat (attrs ++ gt :: rest) = run_has pat attrs.
Proof.
  intros Hp. induction attrs as [|c attrs IH]; intros H.
  - cbn [app run_has]. pose proof (ci_prefix_cut pat [] rest Hp) as E.
    cbn [app] in E. rewrite E, N.eqb_refl. reflexivity.
  - change ((c :: attrs) ++ gt :: rest) with (c :: (attrs ++ gt :: rest)).
    cbn [run_has].
    change (c :: (attrs ++ gt :: rest)) with ((c :: attrs) ++ gt :: rest).
    rewrite (ci_prefix_cut pat (c :: attrs) rest Hp).
    destruct (N.eqb_spec c gt) as [->|Hc];
      [exfalso; apply H; left; reflexivity|].
    rewrite IH; [reflexivity|]. intros Hin. apply H. right. exact Hin.
Qed.

Lemma run_has_iff (pat attrs : jsstring) :
  ~ In gt attrs ->
  run_has pat attrs = true <->
  exists a w b, attrs = a ++ w ++ b /\ ci_eq w pat.
Proof.
  induction attrs as [|c attrs IH]; intros H.
  - cbn [run_has]. destruct (ci_prefix pat []) eqn:E.
    + apply ci_prefix_iff in E as (w & rest & E & Hw).
      split; [|reflexivity]. intros _. exists [], w, rest. auto.
    + split; [discriminate|]. intros (a & w & b & Hs & Hw).
      destruct a; [|discriminate].
      assert (ci_prefix pat [] = true)
        by (apply ci_prefix_iff; exists w, b; auto).
      congruence.
  - cbn [run_has]. destruct (ci_prefix pat (c :: attrs)) eqn:E.
    + apply ci_prefix_iff in E as (w & rest & E & Hw).
      split; [|reflexivity]. intros _. exists [], w, rest. auto.
    + destruct (N.eqb_spec c gt) as [->|Hc];
        [exfalso; apply H; left; reflexivity|].
      rewrite IH by (intros Hin; apply H; right; exact Hin).
      split.
      * intros (a & w & b & -> & Hw). exists (c :: a), w, b. auto.
      * intros (a & w & b & Hs & Hw). destruct a as [|x a].
        -- assert (ci_prefix pat (c :: attrs) = true)
             by (apply ci_prefix_iff; exists w, b; auto).
           congruence.
        -- simpl in Hs. injection Hs as _ ->. exists a, w, b. auto.
Qed.

Lemma src_gt_free :
  forall p, In p (str "src") -> N.eqb (canonicalize p) gt = false.
Proof.
  intros p [<-|[<-|[<-|[]]]]; reflexivity.
Qed.

(** A success of [block_here] is a block that starts at the head of the
    text and closes as early as possible. *)
Lemma block_here_sound (tagname : string) (nosrc : bool)
      (s rest : jsstring) (c : option jsstring) :
  block_here tagname nosrc s = Some (rest, c) ->
  exists attrs inner,
    c = Some inner /\
    block_of tagname nosrc s [] attrs inner rest /\
    forall attrs' inner' post',
      block_of tagname nosrc s [] attrs' inner' post' ->
      length inner <= length inner'.
Proof.
  unfold block_here.
  destruct (ci_prefix _ s) eqn:E; [|discriminate].
  apply ci_prefix_iff in E as (opening & s1 & -> & Hop).
  rewrite (ci_prefix_skipn _ _ _ Hop).
  destruct (nosrc && run_has (str "src") s1) eqn:Esrc; [discriminate|].
  destruct (split_gt s1) as [[attrs s3]|] eqn:Egt; [|discriminate].
  destruct (split_ci _ s3) as [[inner rest0]|] eqn:Eci; [|discriminate].
  intros [= <- <-].
  apply split_gt_Some in Egt as [-> Hattrs].
  apply split_ci_Some in Eci as (closing & -> & Hcl & Hmin).
  exists attrs, inner. split; [reflexivity|]. split.
  - split.
    + exists opening, closing. repeat split; auto.
    + intros -> Hm. cbn [andb] in Esrc.
      rewrite (run_has_cut _ _ _ src_gt_free Hattrs) in Esrc.
      apply (run_has_iff (str "src") attrs Hattrs) in Hm. congruence.
  - intros attrs' inner' post' [(op' & cl' & H' & Hop' & Hcl' & Hattrs') _].
    cbn [app] in H'.
    apply app_eq_length in H' as [_ H'];
      [|rewrite (ci_eq_length _ _ Hop), (ci_eq_length _ _ Hop'); reflexivity].
    apply gt_split_unique in H' as [_ H']; auto.
    exact (Hmin _ _ _ H' Hcl').
Qed.

Lemma block_here_complete (tagname : string) (nosrc : bool)
      (s attrs inner post : jsstring) :
  block_of tagname nosrc s [] attrs inner post ->
  block_here tagname nosrc s <> None.
Proof.
  intros [(opening & closing & -> & Hop & Hcl & Hattrs) Hsrc].
  unfold block_here. cbn [app].
  assert (E : ci_prefix (str "<" ++ str tagname)
                (opening ++ attrs ++ gt :: inner ++ closing ++ post) = true)
    by (apply ci_prefix_iff; eexists _, _; split; [reflexivity|exact Hop]).
  rewrite E, (ci_prefix_skipn _ _ _ Hop).
  rewrite (run_has_cut _ _ _ src_gt_free Hattrs).
  assert (Er : nosrc && run_has (str "src") attrs = false).
  { destruct nosrc; [|reflexivity]. cbn [andb].
    destruct (run_has (str "src") attrs) eqn:Er; [|reflexivity].
    apply (run_has_iff _ _ Hattrs) in Er. exfalso. exact (Hsrc eq_refl Er). }
  rewrite Er, (split_gt_app _ _ Hattrs).
  pose proof (split_ci_complete _ inner closing post Hcl) as Hc.
  destruct (split_ci _ _) as [[? ?]|]; [discriminate|congruence].
Qed.

(** *** The leftmost match *)

Lemma exec_from_Some (r : regex) (i : nat) (s : jsstring) (m : MatchResult) :
  exec_from r i s = Some m ->
  exists pre rest s',
    s = pre ++ rest /\ index m = i + length pre /\
    rmatch r rest None accept = Some (s', group1 m) /\
    forall pre' rest', s = pre' ++ rest' -> length pre' < length pre ->
                       rmatch r rest' None accept = None.
Proof.
  revert i; induction s as [|c s IH]; intros i; cbn [exec_from].
  - destruct (rmatch r [] None accept) as [[s' c']|] eqn:E; [|discriminate].
    intros [= <-]. exists [], [], s'. simpl.
    repeat split; auto. intros; lia.
  - destruct (rmatch r (c :: s) None accept) as [[s' c']|] eqn:E.
    + intros [= <-]. exists [], (c :: s), s'. simpl.
      repeat split; auto. intros; lia.
    + intros H. destruct (IH _ H) as (pre & rest & s' & -> & Hi & Hm & Hmin).
      exists (c :: pre), rest, s'. simpl. repeat split; auto; [lia|].
      intros [|x pre'] rest' H' Hl.
      * simpl in H'. subst rest'. exact E.
      * simpl in H'. injection H' as _ H'. apply (Hmin _ _ H').
        simpl in Hl. lia.
Qed.

Lemma exec_from_None (r : regex) (i : nat) (s : jsstring) :
  exec_from r i s = None ->
  forall pre rest, s = pre ++ rest -> rmatch r rest None accept = None.
Proof.
  revert i; induction s as [|c s IH]; intros i; cbn [exec_from].
  - destruct (rmatch r [] None accept) as [[s' c']|] eqn:E; [discriminate|].
    intros _ pre rest H. symmetry in H. apply app_eq_nil in H as [_ ->].
    exact E.
  - destruct (rmatch r (c :: s) None accept) as [[s' c']|] eqn:E;
      [discriminate|].
    intros H [|x pre] rest H'; simpl in H'.
    + subst rest. exact E.
    + injection H' as _ H'. exact (IH _ H _ _ H').
Qed.

Lemma block_of_at (tagname : string) (nosrc : bool)
      (D pre attrs inner post : jsstring) :
  block_of tagname nosrc D pre attrs inner post <->
  exists rest, D = pre ++ rest /\
               block_of tagname nosrc rest [] attrs inner post.
Proof.
  split.
  - intros [(op & cl & -> & Hop & Hcl & Ha) Hs].
    eexists. split; [reflexivity|]. split; [|exact Hs].
    exists op, cl. repeat split; auto.
  - intros (rest & -> & [(op & cl & -> & Hop & Hcl & Ha) Hs]).
    split; [|exact Hs]. exists op, cl. repeat split; auto.
Qed.

Section Leftmost.
Variables (tagname : string) (nosrc : bool) (re : regex).
Hypothesis re_reads :
  forall s, rmatch re s None accept = block_here tagname nosrc s.

(** A match of the pattern is the first block of the document, and its
    group is the inner text of that block. *)
Lemma exec_first_block (D : jsstring) (m : MatchResult) :
  exec re D = Some m ->
  exists pre attrs inner post,
    first_of (block_of tagname nosrc D) pre attrs inner post /\
    group1 m = Some inner /\ index m = length pre.
Proof.
  intros H. apply exec_from_Some in H
    as (pre & rest & s' & -> & Hi & Hm & Hmin).
  rewrite re_reads in Hm.
  apply block_here_sound in Hm as (attrs & inner & Hg & Hb & Hin).
  exists pre, attrs, inner, s'. split; [|auto]. split.
  - apply block_of_at. eauto.
  - intros pre' attrs' inner' post' Hb'.
    apply block_of_at in Hb' as (rest' & HD & Hb').
    assert (Hle : length pre <= length pre').
    { destruct (Nat.le_gt_cases (length pre) (length pre')) as [L|L];
        [exact L|].
      specialize (Hmin _ _ HD L). rewrite re_reads in Hmin.
      exfalso. exact (block_here_complete _ _ _ _ _ _ Hb' Hmin). }
    split; [exact Hle|]. intros Heq. symmetry in Heq.
    apply (app_eq_length _ _ _ _ Heq) in HD as [_ ->].
    exact (Hin _ _ _ Hb').
Qed.

(** When the pattern does not match, the document has no block. *)
Lemma exec_no_block (D : jsstring) :
  exec re D = None ->
  forall pre attrs inner post,
    ~ block_of tagname nosrc D pre attrs inner post.
Proof.
  intros H pre attrs inner post Hb.
  apply block_of_at in Hb as (rest & HD & Hb).
  pose proof (exec_from_None _ _ _ H _ _ HD) as Hn.
  rewrite re_reads in Hn.
  exact (block_here_complete _ _ _ _ _ _ Hb Hn).
Qed.

(** The inner text of the first block is determined by the document. *)
Lemma first_block_unique (D pre attrs inner post pre' attrs' inner' post'
                          : jsstring) :
  first_of (block_of tagname nosrc D) pre attrs inner post ->
  first_of (block_of tagname nosrc D) pre' attrs' inner' post' ->
  inner = inner'.
Proof.
  intros [Hb Hmin] [Hb' Hmin'].
  destruct (Hmin _ _ _ _ Hb') as [L1 L2].
  destruct (Hmin' _ _ _ _ Hb) as [L1' L2'].
  assert (Hp : length pre = length pre') by lia.
  assert (Hi : length inner = length inner').
  { specialize (L2 (eq_sym Hp)). specialize (L2' Hp). lia. }
  destruct Hb as [(op & cl & HD & Hop & Hcl & Ha) _].
  destruct Hb' as [(op' & cl' & HD' & Hop' & Hcl' & Ha') _].
  rewrite HD in HD'.
  apply (app_eq_length _ _ _ _ Hp) in HD' as [_ HD'].
  apply app_eq_length in HD' as [_ HD'];
    [|rewrite (ci_eq_length _ _ Hop), (ci_eq_length _ _ Hop'); reflexivity].
  cbn [app] in HD'.
  apply gt_split_unique in HD' as [_ HD']; auto.
  apply (app_eq_length _ _ _ _ Hi) in HD' as [-> _]. reflexivity.
Qed.

(** The group of a match is always defined. *)
Lemma group1_defined (D : jsstring) (m : MatchResult) :
  exec re D = Some m -> exists inner, group1 m = Some inner.
Proof.
  intros H. apply exec_first_block in H as (? & ? & inner & ? & _ & H & _).
  eauto.
Qed.

End Leftmost.

End RegExpFacts.

(** ** Facts about the extractor, the bundler and the handlers *)

Module EditorFacts.
Import JS RegExp Editor Props JSFacts RegExpFacts.

Lemma is_index_rootFile (D : jsstring) : is_index (rootFile D) = true.
Proof. reflexivity. Qed.

(** The files of an extraction: the root, then the style file, then the
    script file. *)
Lemma parseProjectCode_shape (D : jsstring) :
  parseProjectCode D
  = rootFile D :: extracted styleFile (exec styleRe D)
      ++ extracted scriptFile (exec scriptRe D).
Proof.
  unfold parseProjectCode, extracted, aux. cbv zeta.
  change ([rootFile D] ++ ?x) with (rootFile D :: x). f_equal.
  destruct (exec styleRe D) as [m|]; destruct (exec scriptRe D) as [m'|];
    rewrite <- ?truthy_length; reflexivity.
Qed.

Lemma aux_cases (mk : jsstring -> VirtualFile) (inner : jsstring) :
  (aux mk inner = [] /\ trim inner = []) \/
  (aux mk inner = [mk (trim inner)] /\ trim inner <> []).
Proof.
  unfold aux. destruct (trim inner); [left|right]; split;
    (reflexivity || discriminate).
Qed.

Lemma extracted_cases (mk : jsstring -> VirtualFile) (o : option MatchResult) :
  extracted mk o = [] \/
  exists c, extracted mk o = [mk c] /\ trim c = c /\ c <> [].
Proof.
  destruct o as [m|]; [|left; reflexivity]. cbn [extracted].
  destruct (aux_cases mk (group_1 m)) as [[-> _]|[-> H]]; [left; reflexivity|].
  right. exists (trim (group_1 m)). split; [reflexivity|].
  split; [apply trim_idem|exact H].
Qed.

Lemma find_is_index_parse (D : jsstring) :
  find is_index (parseProjectCode D) = Some (rootFile D).
Proof. rewrite parseProjectCode_shape. reflexivity. Qed.

Lemma filter_css_parse (D : jsstring) :
  filter (has_language css) (parseProjectCode D)
  = extracted styleFile (exec styleRe D).
Proof.
  rewrite parseProjectCode_shape.
  destruct (extracted_cases styleFile (exec styleRe D)) as [->|(c & -> & _)];
    destruct (extracted_cases scriptFile (exec scriptRe D))
      as [->|(c' & -> & _)]; reflexivity.
Qed.

Lemma filter_js_parse (D : jsstring) :
  filter (has_language javascript) (parseProjectCode D)
  = extracted scriptFile (exec scriptRe D).
Proof.
  rewrite parseProjectCode_shape.
  destruct (extracted_cases styleFile (exec styleRe D)) as [->|(c & -> & _)];
    destruct (extracted_cases scriptFile (exec scriptRe D))
      as [->|(c' & -> & _)]; reflexivity.
Qed.

(** What is extracted is the first block, when there is one. *)
Lemma extracted_first (tagname : string) (nosrc : bool) (re : regex)
      (mk : jsstring -> VirtualFile) (D pre attrs inner post : jsstring) :
  (forall s, rmatch re s None accept = block_here tagname nosrc s) ->
  first_of (block_of tagname nosrc D) pre attrs inner post ->
  extracted mk (exec re D) = aux mk inner.
Proof.
  intros Hre Hf. destruct (exec re D) as [m|] eqn:E.
  - destruct (exec_first_block _ _ _ Hre _ _ E)
      as (pre0 & attrs0 & inner0 & post0 & Hf0 & Hg & _).
    cbn [extracted]. unfold group_1. rewrite Hg.
    rewrite (first_block_unique _ _ _ _ _ _ _ _ _ _ _ Hf0 Hf). reflexivity.
  - exfalso. destruct Hf as [Hb _].
    exact (exec_no_block _ _ _ Hre _ E _ _ _ _ Hb).
Qed.

Lemma extracted_none (tagname : string) (nosrc : bool) (re : regex)
      (mk : jsstring -> VirtualFile) (D : jsstring) :
  (forall s, rmatch re s None accept = block_here tagname nosrc s) ->
  (forall pre attrs inner post,
      ~ block_of tagname nosrc D pre attrs inner post) ->
  extracted mk (exec re D) = [].
Proof.
  intros Hre Hno. destruct (exec re D) as [m|] eqn:E; [|reflexivity].
  destruct (exec_first_block _ _ _ Hre _ _ E)
    as (pre0 & attrs0 & inner0 & post0 & [Hb _] & _).
  exfalso. exact (Hno _ _ _ _ Hb).
Qed.

(** *** The bundler *)

Lemma bundlePreview_stages (fs : list VirtualFile) :
  bundlePreview fs
  = inject (str "<script>") (str "</script>") (str "</body>")
      (payload javascript fs)
      (inject (str "<style>") (str "</style>") (str "</head>")
         (payload css fs) (rootContent fs)).
Proof. reflexivity. Qed.

Lemma inject_blank (opening closing tag pl doc : jsstring) :
  trim pl = [] -> inject opening closing tag pl doc = doc.
Proof. unfold inject. intros ->. reflexivity. Qed.

Lemma inject_append (opening closing tag pl doc : jsstring) :
  trim pl <> [] -> absent tag doc ->
  inject opening closing tag pl doc = doc ++ opening ++ pl ++ closing.
Proof.
  unfold inject. intros Hpl Habs.
  destruct (trim pl); [congruence|]. cbn [truthy].
  apply includes_false in Habs. rewrite Habs. reflexivity.
Qed.

Lemma inject_at (opening closing tag pl doc pre post : jsstring) :
  trim pl <> [] -> first_at tag doc pre post ->
  inject opening closing tag pl doc
  = pre ++ getSubstitution tag pre post (opening ++ pl ++ closing ++ tag)
      ++ post.
Proof.
  unfold inject. intros Hpl Hat.
  destruct (trim pl); [congruence|]. cbn [truthy].
  assert (Hinc : includes tag doc = true)
    by (apply includes_true; destruct Hat as [-> _]; eauto).
  rewrite Hinc. apply replace_at. exact Hat.
Qed.

Lemma inject_before (opening closing tag pl doc pre post : jsstring) :
  trim pl <> [] -> first_at tag doc pre post ->
  ~ In dollar (opening ++ pl ++ closing ++ tag) ->
  inject opening closing tag pl doc
  = pre ++ opening ++ pl ++ closing ++ tag ++ post.
Proof.
  intros Hpl Hat Hd. rewrite (inject_at _ _ _ _ _ _ _ Hpl Hat).
  rewrite (getSubstitution_plain _ _ _ _ Hd).
  rewrite <- !app_assoc. reflexivity.
Qed.

(** The same for a payload that holds dollars but no replacement pattern,
    between a dollar-free opening and a dollar-free closing that starts
    with [<]. *)
Lemma inject_verbatim (opening closing tag pl doc pre post b : jsstring) :
  trim pl <> [] -> first_at tag doc pre post ->
  ~ In dollar opening -> closing ++ tag = 60%N :: b ->
  ~ In dollar (60%N :: b) -> pattern_free pl ->
  inject opening closing tag pl doc
  = pre ++ opening ++ pl ++ closing ++ tag ++ post.
Proof.
  intros Hpl Hat Hop Hb Hbd Hpf. rewrite (inject_at _ _ _ _ _ _ _ Hpl Hat).
  rewrite (getSubstitution_plain_prefix _ _ _ _ _ Hop), Hb.
  rewrite (getSubstitution_pattern_free _ _ _ _ _ Hbd Hpf).
  rewrite <- Hb. rewrite <- !app_assoc. reflexivity.
Qed.

Lemma not_in_app (x : char) (a b : jsstring) :
  ~ In x a -> ~ In x b -> ~ In x (a ++ b).
Proof. intros Ha Hb H. apply in_app_or in H as [H|H]; auto. Qed.

(** An injection never shortens the document, and lengthens it when the
    payload is not blank. *)
Lemma inject_grows (opening closing tag pl doc b : jsstring) :
  ~ In dollar opening -> opening <> [] ->
  closing ++ tag = 60%N :: b -> ~ In dollar (60%N :: b) ->
  length doc <= length (inject opening closing tag pl doc) /\
  (trim pl <> [] -> length doc < length (inject opening closing tag pl doc)).
Proof.
  intros Hop Hne Hb Hbd.
  assert (Hlen : 0 < length opening) by (destruct opening; simpl; [congruence|lia]).
  destruct (trim pl) as [|c t] eqn:Et.
  - rewrite inject_blank by exact Et. split; [lia|congruence].
  - assert (Hpl : trim pl <> []) by congruence.
    destruct (indexOf tag doc) as [i|] eqn:Ei.
    + destruct (indexOf_Some _ _ _ Ei) as (pre & post & Hat & _).
      rewrite (inject_at _ _ _ _ _ _ _ Hpl Hat).
      rewrite (getSubstitution_plain_prefix _ _ _ _ _ Hop), Hb.
      destruct (getSubstitution_keeps_tail tag pre post b Hbd
                  (length pl) pl (le_n _)) as [Y HY].
      rewrite HY.
      destruct Hat as [-> _].
      assert (length tag <= length (60%N :: b))
        by (rewrite <- Hb, length_app; lia).
      repeat (rewrite length_app || cbn [length] in * ).
      unfold jsstring, char in *. split; intros; lia.
    + rewrite inject_append by (auto using indexOf_None).
      rewrite !length_app. split; intros; lia.
Qed.

Lemma bundlePreview_grows (fs : list VirtualFile) :
  length (rootContent fs) <= length (bundlePreview fs) /\
  (trim (payload css fs) <> [] \/ trim (payload javascript fs) <> [] ->
   length (rootContent fs) < length (bundlePreview fs)).
Proof.
  rewrite bundlePreview_stages.
  set (styled := inject (str "<style>") _ _ _ _).
  assert (Hs : length (rootContent fs) <= length styled /\
               (trim (payload css fs) <> [] ->
                length (rootContent fs) < length styled)).
  { apply inject_grows with (b := tl (str "</style></head>")).
    - refute_by_evaluation.
    - discriminate.
    - reflexivity.
    - refute_by_evaluation. }
  assert (Hj : length styled
               <= length (inject (str "<script>") (str "</script>")
                            (str "</body>") (payload javascript fs) styled) /\
               (trim (payload javascript fs) <> [] ->
                length styled
                < length (inject (str "<script>") (str "</script>")
                            (str "</body>") (payload javascript fs) styled))).
  { apply inject_grows with (b := tl (str "</script></body>")).
    - refute_by_evaluation.
    - discriminate.
    - reflexivity.
    - refute_by_evaluation. }
  destruct Hs as [Hs1 Hs2], Hj as [Hj1 Hj2]. split; [lia|].
  intros [H|H]; [specialize (Hs2 H)|specialize (Hj2 H)]; lia.
Qed.

(** *** The edit cycle *)

Lemma accepted_guard (st : EditorState) :
  accepted st ->
  negb (truthy (trim (chatInput st))) || isEditing st = false.
Proof. intros [-> ->]. reflexivity. Qed.

Lemma valid_code_false (c : jsstring) :
  valid_code c = false <-> c = [] \/ length c <= 50.
Proof.
  unfold valid_code. rewrite andb_false_iff, truthy_false, Nat.ltb_ge.
  reflexivity.
Qed.

Lemma mergeFiles_parse (R : jsstring) (prev : list VirtualFile) :
  mergeFiles (parseProjectCode R) prev
  = map (fun f => if is_index f then with_content f R else f) prev.
Proof. unfold mergeFiles. rewrite find_is_index_parse. reflexivity. Qed.

(** The state after a cycle whose response fails the validation. *)
Lemma send_failure (ai : Backend) (project : Project) (st : EditorState) :
  accepted st ->
  valid_code (receivedCode ai (bundlePreview (files st)) (chatInput st))
  = false ->
  fst (handleSendMessage ai project st)
  = {| files := files st;
       activeFileId := activeFileId st;
       chatInput := [];
       isEditing := false;
       chatHistory :=
         chatHistory st
         ++ [ {| role := user; text := chatInput st |};
              analyzingMsg; errorMsg ];
       viewMode := preview |}.
Proof.
  intros Ha Hv. unfold handleSendMessage.
  rewrite (accepted_guard _ Ha). cbv zeta.
  unfold valid_code in Hv. rewrite Hv.
  cbn [fst setIsEditing setChatHistory setViewMode setChatInput files
       activeFileId chatInput isEditing chatHistory viewMode].
  rewrite <- !app_assoc. reflexivity.
Qed.

(** The state after a cycle whose response passes it. *)
Lemma send_success (ai : Backend) (project : Project) (st : EditorState) :
  accepted st ->
  valid_code (receivedCode ai (bundlePreview (files st)) (chatInput st))
  = true ->
  fst (handleSendMessage ai project st)
  = {| files :=
         mergeFiles
           (parseProjectCode
              (receivedCode ai (bundlePreview (files st)) (chatInput st)))
           (files st);
       activeFileId := activeFileId st;
       chatInput := [];
       isEditing := false;
       chatHistory :=
         chatHistory st
         ++ [ {| role := user; text := chatInput st |}; successMsg ];
       viewMode := preview |}.
Proof.
  intros Ha Hv. unfold handleSendMessage.
  rewrite (accepted_guard _ Ha). cbv zeta.
  unfold valid_code in Hv. rewrite Hv.
  cbn [fst setIsEditing setChatHistory setViewMode setChatInput setFiles
       files activeFileId chatInput isEditing chatHistory viewMode].
  rewrite <- !app_assoc. reflexivity.
Qed.




(** *** The store *)




Lemma hd_filter_find (p : VirtualFile -> bool) (fs : list VirtualFile) :
  hd_error (filter p fs) = find p fs.
Proof.
  induction fs as [|f fs IH]; [reflexivity|]. cbn [filter find].
  destruct (p f); [reflexivity|exact IH].
Qed.

Lemma id_is_not_true (i : jsstring) (f : VirtualFile) :
  id_is_not i f = true <-> id f <> i.
Proof.
  unfold id_is_not. rewrite negb_true_iff. apply jsstring_eqb_neq.
Qed.

Lemma in_ids_filter (i a : jsstring) (fs : list VirtualFile) :
  In a (ids fs) -> a <> i -> In a (ids (filter (id_is_not i) fs)).
Proof.
  unfold ids. rewrite !in_map_iff. intros (f & <- & Hin) Hne.
  exists f. split; [reflexivity|]. apply filter_In. split; [exact Hin|].
  apply id_is_not_true. exact Hne.
Qed.


(** With distinct identifiers and two files or more, a file other than the
    deleted one remains. *)
Lemma another_file (i : jsstring) (fs : list VirtualFile) :
  NoDup (ids fs) -> 1 < length fs ->
  exists f, find (id_is_not i) fs = Some f.
Proof.
  destruct fs as [|f1 [|f2 fs]]; cbn [length]; try lia. intros Hd _.
  cbn [find]. destruct (id_is_not i f1) eqn:E1; [eauto|].
  destruct (id_is_not i f2) eqn:E2; [eauto|]. exfalso.
  unfold id_is_not in E1, E2. apply negb_false_iff in E1, E2.
  apply jsstring_eqb_eq in E1, E2.
  inversion Hd as [|? ? Hn _]; subst. apply Hn. left. congruence.
Qed.

Lemma or_else_id (f : VirtualFile) (d : jsstring) :
  d = [] -> or_else (Some (id f)) d = id f.
Proof.
  intros ->. unfold or_else. destruct (id f); reflexivity.
Qed.


End EditorFacts.

(** ** Reachable stores *)

Module StoreFacts.
Import JS RegExp Editor Props JSFacts RegExpFacts EditorFacts.

Lemma initialState_files (project : Project) :
  files (initialState project)
  = parseProjectCode (or_else (code project) []).
Proof. reflexivity. Qed.





(** *** One extract-then-bundle cycle *)

Lemma rootContent_parse (D : jsstring) : rootContent (parseProjectCode D) = D.
Proof. unfold rootContent. rewrite find_is_index_parse. reflexivity. Qed.

Lemma cycle_root_only (D : jsstring) :
  parseProjectCode D = [rootFile D] -> cycle D = D.
Proof.
  intros H. unfold cycle. rewrite H. reflexivity.
Qed.

Lemma parse_root_only_dec (D : jsstring) :
  parseProjectCode D = [rootFile D] \/
  (parseProjectCode D <> [rootFile D] /\
   (trim (payload css (parseProjectCode D)) <> [] \/
    trim (payload javascript (parseProjectCode D)) <> [])).
Proof.
  unfold payload. rewrite filter_css_parse, filter_js_parse.
  rewrite parseProjectCode_shape.
  destruct (extracted_cases styleFile (exec styleRe D))
    as [->|(c & -> & Hc & Hne)].
  - destruct (extracted_cases scriptFile (exec scriptRe D))
      as [->|(c' & -> & Hc' & Hne')].
    + left. reflexivity.
    + right. split; [discriminate|]. right.
      cbn [map content scriptFile join]. congruence.
  - right. split; [discriminate|]. left.
    cbn [map content styleFile join]. congruence.
Qed.

Lemma cycle_grows (D : jsstring) :
  parseProjectCode D <> [rootFile D] -> length D < length (cycle D).
Proof.
  intros H. destruct (parse_root_only_dec D) as [E|[_ Hp]]; [congruence|].
  pose proof (bundlePreview_grows (parseProjectCode D)) as [_ G].
  rewrite rootContent_parse in G. exact (G Hp).
Qed.

End StoreFacts.

(** ** The properties of the specification *)

Module Spec.
Import JS RegExp Editor Props Samples.
Import JSFacts RegExpFacts EditorFacts StoreFacts.

(** *** Extraction *)

(** C5. For every document [D], the extraction starts with a file named
    [index.html] whose content is [D] itself, and that file is the root the
    bundler finds; when [D] has no style block and no script block without
    [src], the extraction is that one file. *)
Theorem extraction_root_verbatim (D : jsstring) :
  (exists rest,
      parseProjectCode D
      = {| id := str "1"; name := index_html; language := html;
           content := D |} :: rest) /\
  (exists root,
      find is_index (parseProjectCode D) = Some root /\ content root = D) /\
  ((forall pre attrs inner post, ~ style_block D pre attrs inner post) ->
   (forall pre attrs inner post, ~ script_block D pre attrs inner post) ->
   parseProjectCode D
   = [ {| id := str "1"; name := index_html; language := html;
          content := D |} ]).
Proof.
  split; [|split].
  - rewrite parseProjectCode_shape. eexists. reflexivity.
  - exists (rootFile D). split; [apply find_is_index_parse|reflexivity].
  - intros Hs Hj. rewrite parseProjectCode_shape.
    rewrite (extracted_none "style" false styleRe styleFile D rmatch_styleRe Hs).
    rewrite (extracted_none "script" true scriptRe scriptFile D
               rmatch_scriptRe Hj).
    reflexivity.
Qed.

(** [page] has no style and no script block: it is extracted to one file. *)
Lemma extraction_root_verbatim_witness :
  parseProjectCode page
  = [ {| id := str "1"; name := index_html; language := html;
         content := page |} ].
Proof.
  apply (proj2 (proj2 (extraction_root_verbatim page))).
  - apply (exec_no_block "style" false styleRe rmatch_styleRe). reflexivity.
  - apply (exec_no_block "script" true scriptRe rmatch_scriptRe). reflexivity.
Defined.

(** C7, as stated, fails: [blankFirst] contains a style block, two even,
    and no style file is emitted. *)
Lemma first_block_counterexample :
  style_block blankFirst [] [] (str " ") (str "<style>b{}</style>") /\
  filter (has_language css) (parseProjectCode blankFirst) = [].
Proof.
  split; [|reflexivity]. split; [|discriminate].
  exists (str "<style"), (str "</style>").
  repeat split; try reflexivity. intros [].
Qed.

(** C7, amended. The extraction is the root file followed by at most one
    style file and at most one script file.  The style file is emitted when
    the inner text of the first style block is not blank, and holds that
    text trimmed; the script file likewise, for the first script block whose
    opening tag does not mention [src].  Later blocks give no file, and a
    document without such a block gives none. *)
Theorem first_block_only_extraction (D : jsstring) :
  parseProjectCode D
  = rootFile D :: filter (has_language css) (parseProjectCode D)
      ++ filter (has_language javascript) (parseProjectCode D) /\
  length (filter (has_language css) (parseProjectCode D)) <= 1 /\
  length (filter (has_language javascript) (parseProjectCode D)) <= 1 /\
  (forall pre attrs inner post,
      first_style_block D pre attrs inner post ->
      filter (has_language css) (parseProjectCode D) = aux styleFile inner) /\
  (forall pre attrs inner post,
      first_script_block D pre attrs inner post ->
      filter (has_language javascript) (parseProjectCode D)
      = aux scriptFile inner) /\
  ((forall pre attrs inner post, ~ style_block D pre attrs inner post) ->
   filter (has_language css) (parseProjectCode D) = []) /\
  ((forall pre attrs inner post, ~ script_block D pre attrs inner post) ->
   filter (has_language javascript) (parseProjectCode D) = []).
Proof.
  rewrite filter_css_parse, filter_js_parse.
  split; [apply parseProjectCode_shape|].
  split; [|split].
  - destruct (extracted_cases styleFile (exec styleRe D)) as [->|(c & -> & _)];
      simpl; lia.
  - destruct (extracted_cases scriptFile (exec scriptRe D))
      as [->|(c & -> & _)]; simpl; lia.
  - split; [|split; [|split]].
    + intros pre attrs inner post H.
      exact (extracted_first "style" false styleRe styleFile D _ _ _ _
               rmatch_styleRe H).
    + intros pre attrs inner post H.
      exact (extracted_first "script" true scriptRe scriptFile D _ _ _ _
               rmatch_scriptRe H).
    + apply (extracted_none "style" false styleRe styleFile D rmatch_styleRe).
    + apply (extracted_none "script" true scriptRe scriptFile D
               rmatch_scriptRe).
Qed.

(** In [manyBlocks] the first style block and the first script block
    without [src] are extracted, trimmed; the later ones are not. *)
Lemma first_block_only_extraction_witness :
  exists pre attrs post pre' attrs' post',
    first_style_block manyBlocks pre attrs (str " a{} ") post /\
    first_script_block manyBlocks pre' attrs' (str " f() ") post' /\
    filter (has_language css) (parseProjectCode manyBlocks)
    = [styleFile (str "a{}")] /\
    filter (has_language javascript) (parseProjectCode manyBlocks)
    = [scriptFile (str "f()")].
Proof.
  destruct (exec styleRe manyBlocks) as [m|] eqn:Em; [|discriminate Em].
  destruct (exec scriptRe manyBlocks) as [m'|] eqn:Em'; [|discriminate Em'].
  destruct (exec_first_block "style" false styleRe rmatch_styleRe _ _ Em)
    as (pre & attrs & inner & post & Hf & Hg & _).
  destruct (exec_first_block "script" true scriptRe rmatch_scriptRe _ _ Em')
    as (pre' & attrs' & inner' & post' & Hf' & Hg' & _).
  injection Em as <-. injection Em' as <-.
  injection Hg as <-. injection Hg' as <-.
  exists pre, attrs, post, pre', attrs', post'.
  destruct (first_block_only_extraction manyBlocks)
    as (_ & _ & _ & Hs & Hj & _).
  split; [exact Hf|]. split; [exact Hf'|].
  split; [exact (Hs _ _ _ _ Hf)|exact (Hj _ _ _ _ Hf')].
Defined.

(** *** Bundling *)

(** C9. A store without style files and without script files bundles to
    the content of its first file named [index.html], and to the empty
    string when it has none. *)
Theorem bundle_trivial_store (fs : list VirtualFile) :
  filter (has_language css) fs = [] ->
  filter (has_language javascript) fs = [] ->
  bundlePreview fs
  = match find is_index fs with
    | Some root => content root
    | None => []
    end.
Proof.
  intros Hc Hj. rewrite bundlePreview_stages. unfold payload.
  rewrite Hc, Hj. cbn [map join].
  rewrite !inject_blank by apply trim_nil. reflexivity.
Qed.

(** A store with only a root bundles to it; a store with only another page
    bundles to the empty string. *)
Lemma bundle_trivial_store_witness :
  bundlePreview [rootFile page] = page /\
  bundlePreview
    [ {| id := str "7"; name := str "about.html"; language := html;
         content := str "<p>about</p>" |} ] = [].
Proof.
  split.
  - apply (bundle_trivial_store [rootFile page]); reflexivity.
  - apply (bundle_trivial_store
             [ {| id := str "7"; name := str "about.html"; language := html;
                  content := str "<p>about</p>" |} ]); reflexivity.
Defined.

(** C6, as stated, fails: the style payload of [blankStyles] is not empty,
    its root has a closing head tag, and no style block is injected. *)
Lemma bundle_injection_counterexample :
  payload css blankStyles = str " " /\
  includes (str "</head>") (rootContent blankStyles) = true /\
  bundlePreview blankStyles = str "<head></head>".
Proof. repeat split. Qed.

(** A payload that holds a replacement pattern is not inserted as it is:
    [replace] expands the dollar and the quote of [dollarStyles] to the text
    after the closing head tag. *)
Example replacement_pattern_in_payload :
  bundlePreview dollarStyles
  = str "<head><style>a::after{content:'<body>x</body>}</style></head><body>x</body>".
Proof. reflexivity. Qed.

(** C6, amended. [bundlePreview] is a function of the files alone, defined
    on every store.  It works on the root content in two steps, [styled]
    being the document after the first.  The style payload is the contents
    of the style files joined by newlines; when it is blank the document is
    left as it is; otherwise a single block [<style>payload</style>] is put
    immediately before the first [</head>], or at the end of the document
    when it has no [</head>].  The script payload is put the same way into
    [styled], before the first [</body>].  Placement before a tag is stated
    for payloads that hold none of the replacement patterns [$$], [$&],
    [$`] and [$']; any other dollar is placed as it is. *)
Theorem bundle_injection_placement (fs : list VirtualFile) :
  exists styled,
    (trim (payload css fs) = [] -> styled = rootContent fs) /\
    (trim (payload css fs) <> [] ->
     absent (str "</head>") (rootContent fs) ->
     styled
     = rootContent fs ++ str "<style>" ++ payload css fs ++ str "</style>") /\
    (trim (payload css fs) <> [] -> pattern_free (payload css fs) ->
     forall pre post,
       first_at (str "</head>") (rootContent fs) pre post ->
       styled
       = pre ++ str "<style>" ++ payload css fs ++ str "</style>"
           ++ str "</head>" ++ post) /\
    (trim (payload javascript fs) = [] -> bundlePreview fs = styled) /\
    (trim (payload javascript fs) <> [] ->
     absent (str "</body>") styled ->
     bundlePreview fs
     = styled ++ str "<script>" ++ payload javascript fs
         ++ str "</script>") /\
    (trim (payload javascript fs) <> [] ->
     pattern_free (payload javascript fs) ->
     forall pre post,
       first_at (str "</body>") styled pre post ->
       bundlePreview fs
       = pre ++ str "<script>" ++ payload javascript fs ++ str "</script>"
           ++ str "</body>" ++ post).
Proof.
  exists (inject (str "<style>") (str "</style>") (str "</head>")
            (payload css fs) (rootContent fs)).
  rewrite bundlePreview_stages.
  repeat split.
  - apply inject_blank.
  - apply inject_append.
  - intros Hpl Hpf pre post Hat.
    apply (inject_verbatim _ _ _ _ _ _ _ (str "/style></head>"));
      auto; (reflexivity || refute_by_evaluation).
  - apply inject_blank.
  - apply inject_append.
  - intros Hpl Hpf pre post Hat.
    apply (inject_verbatim _ _ _ _ _ _ _ (str "/script></body>"));
      auto; (reflexivity || refute_by_evaluation).
Qed.

(** The style file of [styledPage] is put before its closing head tag, and
    the script of [dollarScript], dollar and quotes as they are, before its
    closing body tag. *)
Lemma bundle_injection_placement_witness :
  bundlePreview (parseProjectCode styledPage)
  = str "<html><head><style>h1{color:red}</style>"
      ++ str "<style>" ++ str "h1{color:red}" ++ str "</style>"
      ++ str "</head>" ++ str "<body></body></html>" /\
  bundlePreview dollarScript
  = str "<body><button id=b>Go</button>"
      ++ str "<script>" ++ str "$('#b').click(go)" ++ str "</script>"
      ++ str "</body>" ++ [].
Proof.
  split.
  - destruct (bundle_injection_placement (parseProjectCode styledPage))
      as (styled & _ & _ & Hhead & Hnone & _).
    rewrite (Hnone eq_refl).
    apply Hhead.
    + discriminate.
    + repeat split; apply indexOf_None; reflexivity.
    + split; [reflexivity|].
      intros pre' post' H.
      assert (E : indexOf (str "</head>")
                    (rootContent (parseProjectCode styledPage))
                  = Some (length (str "<html><head><style>h1{color:red}</style>")))
        by reflexivity.
      destruct (indexOf_Some _ _ _ E) as (p0 & q0 & [_ Hmin] & <-).
      exact (Hmin _ _ H).
  - destruct (bundle_injection_placement dollarScript)
      as (styled & Hblank & _ & _ & _ & _ & Hbody).
    pose proof (Hblank eq_refl) as Es. subst styled.
    apply Hbody.
    + discriminate.
    + repeat split; apply indexOf_None; reflexivity.
    + split; [reflexivity|].
      intros pre' post' H.
      assert (E : indexOf (str "</body>") (rootContent dollarScript)
                  = Some (length (str "<body><button id=b>Go</button>")))
        by reflexivity.
      destruct (indexOf_Some _ _ _ E) as (p0 & q0 & [_ Hmin] & <-).
      exact (Hmin _ _ H).
Defined.

(** C2, as stated, fails: each cycle on a document with a style block puts
    one more copy of the block into it. *)
Lemma convergence_counterexample :
  cycle (str "<style>a</style>") = str "<style>a</style><style>a</style>" /\
  cycle (cycle (str "<style>a</style>"))
  = str "<style>a</style><style>a</style><style>a</style>" /\
  cycle (cycle (str "<style>a</style>")) <> cycle (str "<style>a</style>").
Proof. repeat split. discriminate. Qed.

(** C2, amended. A document from which nothing but the root file is
    extracted comes back unchanged from a cycle, so it is a fixed point; a
    document from which a style or script file is extracted comes back
    longer.  Hence the cycle of [D] is a fixed point exactly when nothing
    but the root is extracted from it. *)
Theorem cycle_fixed_point (D : jsstring) :
  (parseProjectCode D = [rootFile D] ->
   cycle D = D /\ cycle (cycle D) = cycle D) /\
  (parseProjectCode D <> [rootFile D] -> length D < length (cycle D)) /\
  (cycle (cycle D) = cycle D <->
   parseProjectCode (cycle D) = [rootFile (cycle D)]).
Proof.
  split; [|split].
  - intros H. pose proof (cycle_root_only D H) as E.
    split; [exact E|]. rewrite E. exact E.
  - apply cycle_grows.
  - split.
    + intros E.
      destruct (parse_root_only_dec (cycle D)) as [H|[H _]]; [exact H|].
      apply cycle_grows in H. rewrite E in H. lia.
    + apply cycle_root_only.
Qed.

(** [page] is a fixed point of the cycle; [styledPage] grows. *)
Lemma cycle_fixed_point_witness :
  cycle page = page /\ cycle (cycle page) = cycle page /\
  length styledPage < length (cycle styledPage).
Proof.
  destruct (cycle_fixed_point page) as (Hfix & _ & _).
  destruct (cycle_fixed_point styledPage) as (_ & Hgrow & _).
  split; [exact (proj1 (Hfix eq_refl))|].
  split; [exact (proj2 (Hfix eq_refl))|].
  apply Hgrow. discriminate.
Defined.

(** *** The store operations *)

(** C8. On a store of exactly one file, a delete of any file leaves the
    whole editor state as it was and raises the alert "Cannot delete the
    last file.", whatever the user would answer to a confirmation. *)
Theorem deletion_guard (st : EditorState) (i : jsstring) (confirmed : bool) :
  length (files st) = 1 ->
  handleDeleteFile i confirmed st
  = (st, [Alert (str "Cannot delete the last file.")]).
Proof.
  intros H. unfold handleDeleteFile. rewrite H. reflexivity.
Qed.

(** The store of a new project has one file, and keeps it. *)
Lemma deletion_guard_witness :
  length (files (initialState noProject)) = 1 /\
  handleDeleteFile (str "1") true (initialState noProject)
  = (initialState noProject, [Alert (str "Cannot delete the last file.")]).
Proof.
  split; [reflexivity|].
  apply (deletion_guard (initialState noProject) (str "1") true).
  reflexivity.
Defined.

(** C10. Take a store of more than one file in which the identifiers are
    distinct and the active-file pointer names a file, as in every
    reachable state ([reachable_ids]).  After a confirmed delete the
    pointer names a file of the store: the first remaining file when the
    deleted file was the active one, and the file it named before
    otherwise. *)
Theorem active_pointer_valid (st : EditorState) (i : jsstring) :
  NoDup (ids (files st)) -> In (activeFileId st) (ids (files st)) ->
  1 < length (files st) ->
  let st' := fst (handleDeleteFile i true st) in
  files st' = filter (id_is_not i) (files st) /\
  In (activeFileId st') (ids (files st')) /\
  (activeFileId st = i ->
   option_map id (hd_error (files st')) = Some (activeFileId st')) /\
  (activeFileId st <> i -> activeFileId st' = activeFileId st).
Proof.
  intros Hd Ha L st'.
  assert (Hlen : (length (files st) <=? 1) = false)
    by (apply Nat.leb_gt; exact L).
  destruct (another_file i _ Hd L) as [f Hf].
  assert (Est : st' = if jsstring_eqb (activeFileId st) i
                      then setActiveFileId (id f)
                             (setFiles (filter (id_is_not i) (files st)) st)
                      else setFiles (filter (id_is_not i) (files st)) st).
  { unfold st', handleDeleteFile. rewrite Hlen, Hf. cbn [option_map].
    rewrite or_else_id by reflexivity.
    destruct (jsstring_eqb (activeFileId st) i); reflexivity. }
  rewrite Est.
  destruct (jsstring_eqb (activeFileId st) i) eqn:E;
    cbn [setActiveFileId setFiles files activeFileId].
  - apply jsstring_eqb_eq in E. split; [reflexivity|]. split; [|split].
    + apply find_some in Hf as [Hin Hp]. unfold ids. apply in_map.
      apply filter_In. auto.
    + intros _. rewrite hd_filter_find, Hf. reflexivity.
    + intros H. congruence.
  - apply jsstring_eqb_neq in E. split; [reflexivity|]. split; [|split].
    + apply in_ids_filter; assumption.
    + intros H. congruence.
    + reflexivity.
Qed.

(** Deleting the active root of [styledStore] moves the pointer to the
    style file. *)
Lemma active_pointer_valid_witness :
  let st' := fst (handleDeleteFile (str "1") true styledStore) in
  reachable styledStore /\
  activeFileId styledStore = str "1" /\
  files st' = [styleFile (str "h1{color:red}")] /\
  activeFileId st' = str "2" /\
  In (activeFileId st') (ids (files st')).
Proof.
  assert (Hr : reachable styledStore).
  { exact (@reach_step (TypeChat (str "make the title blue")) _
             (reach_init styledProject) I). }
  assert (Hd : NoDup (ids (files styledStore)))
    by (repeat constructor; refute_by_evaluation).
  assert (Ha : In (activeFileId styledStore) (ids (files styledStore)))
    by (left; reflexivity).
  destruct (active_pointer_valid styledStore (str "1") Hd Ha)
    as (Hf & Hin & _).
  - vm_compute. lia.
  - split; [exact Hr|]. split; [reflexivity|]. split; [reflexivity|].
    split; [reflexivity|]. exact Hin.
Defined.




(** *** The edit cycle *)

(** C3. After an accepted edit cycle whose response [R'] passes the
    validation, the root of the extracted response has content [R'], the
    store has the same files in the same order, every file named
    [index.html] has content [R'] and is otherwise as before, and every
    other file is exactly as before. *)
Theorem merge_isolation (ai : Backend) (project : Project)
        (st : EditorState) :
  accepted st ->
  valid_code (receivedCode ai (bundlePreview (files st)) (chatInput st))
  = true ->
  let R' := receivedCode ai (bundlePreview (files st)) (chatInput st) in
  let st' := fst (handleSendMessage ai project st) in
  (exists root,
      find is_index (parseProjectCode R') = Some root /\ content root = R') /\
  length (files st') = length (files st) /\
  (forall n f,
      nth_error (files st) n = Some f -> name f = index_html ->
      nth_error (files st') n = Some (with_content f R')) /\
  (forall n f,
      nth_error (files st) n = Some f -> name f <> index_html ->
      nth_error (files st') n = Some f).
Proof.
  intros Ha Hv R' st'.
  assert (E : files st'
              = map (fun f => if is_index f then with_content f R' else f)
                  (files st)).
  { unfold st'. rewrite (send_success _ _ _ Ha Hv). cbn [files].
    apply mergeFiles_parse. }
  split; [|split; [|split]].
  - exists (rootFile R'). split; [apply find_is_index_parse|reflexivity].
  - rewrite E. apply length_map.
  - intros n f Hn Hname. rewrite E, nth_error_map, Hn. cbn [option_map].
    unfold is_index. rewrite (proj2 (jsstring_eqb_eq _ _) Hname). reflexivity.
  - intros n f Hn Hname. rewrite E, nth_error_map, Hn. cbn [option_map].
    unfold is_index. rewrite (proj2 (jsstring_eqb_neq _ _) Hname). reflexivity.
Qed.

(** The answer [page] replaces the root of [threeFiles] and nothing else. *)
Lemma merge_isolation_witness :
  accepted threeFiles /\
  receivedCode pageBackend (bundlePreview (files threeFiles))
    (chatInput threeFiles) = page /\
  files (fst (handleSendMessage pageBackend noProject threeFiles))
  = [ rootFile page; styleFile (str "p{margin:0}");
      scriptFile (str "init()") ] /\
  nth_error (files (fst (handleSendMessage pageBackend noProject threeFiles)))
    1 = Some (styleFile (str "p{margin:0}")).
Proof.
  assert (Ha : accepted threeFiles) by (split; reflexivity).
  destruct (merge_isolation pageBackend noProject threeFiles Ha eq_refl)
    as (_ & _ & _ & Hother).
  split; [exact Ha|]. split; [reflexivity|]. split; [reflexivity|].
  apply Hother; [reflexivity|discriminate].
Defined.

(** C1. The code at the failing input: in [styledStore] the backend throws
    before its first chunk.  [streamCodeEdit] catches the error and yields
    the current bundle ("Return original on failure"); the bundle passes the
    validation, so the cycle ends as a success.  The root file is
    overwritten with the bundle, in which the style of the store now stands
    twice, and the one message recorded after the user's is "Code updated
    successfully."  The claim asks for the files as they were and for one
    failure message. *)
Lemma backend_error_overwrites_root :
  accepted styledStore /\
  failingBackend (bundlePreview (files styledStore)) (chatInput styledStore)
  = {| chunks := []; stream_end := Throws |} /\
  files styledStore
  = [ rootFile styledPage; styleFile (str "h1{color:red}") ] /\
  files (fst (handleSendMessage failingBackend styledProject styledStore))
  = [ rootFile
        (str "<html><head><style>h1{color:red}</style><style>h1{color:red}</style></head><body></body></html>");
      styleFile (str "h1{color:red}") ] /\
  chatHistory (fst (handleSendMessage failingBackend styledProject styledStore))
  = [ {| role := user; text := str "make the title blue" |}; successMsg ].
Proof.
  split; [split; reflexivity|]. repeat split.
Qed.

(** When the backend throws after a first chunk, the root file becomes that
    chunk followed by the bundle, and the cycle ends as a success all the
    same. *)
Lemma partial_response_then_error :
  let ai : Backend :=
    fun _ _ => {| chunks := [Some (str "<html><head>")];
                  stream_end := Throws |} in
  rootContent
    (files (fst (handleSendMessage ai styledProject styledStore)))
  = str "<html><head>" ++ bundlePreview (files styledStore) /\
  chatHistory (fst (handleSendMessage ai styledProject styledStore))
  = [ {| role := user; text := str "make the title blue" |}; successMsg ].
Proof. split; reflexivity. Qed.

(** What [streamCodeEdit] yields when the backend throws: the texts
    received so far, then the current code. *)
Lemma streamCodeEdit_on_error (ai : Backend) (currentCode prompt : jsstring) :
  stream_end (ai currentCode prompt) = Throws ->
  streamCodeEdit ai currentCode prompt
  = chunk_texts (chunks (ai currentCode prompt)) ++ [currentCode].
Proof. intros H. unfold streamCodeEdit. rewrite H. reflexivity. Qed.

(** The failure path of the cycle, as the handler's own [catch] has it:
    when the response of an accepted edit cycle, with its code fences
    stripped and trimmed, is empty or has at most 50 characters, the files
    and the active-file pointer are exactly as before, and the chat history
    has grown by the user's message, the progress message and one failure
    message. *)
Theorem failure_preserves_state (ai : Backend) (project : Project)
        (st : EditorState) :
  accepted st ->
  (receivedCode ai (bundlePreview (files st)) (chatInput st) = [] \/
   length (receivedCode ai (bundlePreview (files st)) (chatInput st)) <= 50) ->
  let st' := fst (handleSendMessage ai project st) in
  files st' = files st /\
  activeFileId st' = activeFileId st /\
  isEditing st' = false /\
  chatHistory st'
  = chatHistory st
    ++ [ {| role := user; text := chatInput st |}; analyzingMsg; errorMsg ].
Proof.
  intros Ha Hv st'. apply valid_code_false in Hv.
  unfold st'. rewrite (send_failure _ _ _ Ha Hv).
  repeat split.
Qed.

(** A backend without any text leaves [styledStore] as it was. *)
Lemma failure_preserves_state_witness :
  accepted styledStore /\
  receivedCode silentBackend (bundlePreview (files styledStore))
    (chatInput styledStore) = [] /\
  files (fst (handleSendMessage silentBackend styledProject styledStore))
  = files styledStore /\
  chatHistory (fst (handleSendMessage silentBackend styledProject styledStore))
  = [ {| role := user; text := str "make the title blue" |};
      analyzingMsg; errorMsg ].
Proof.
  assert (Ha : accepted styledStore) by (split; reflexivity).
  destruct (failure_preserves_state silentBackend styledProject styledStore
              Ha (or_introl eq_refl)) as (Hf & _ & _ & Hh).
  split; [exact Ha|]. split; [reflexivity|]. split; [exact Hf|exact Hh].
Defined.

End Spec.

(** ** Further facts: fences, chunks, and single files of a store *)

Module MoreFacts.
Import JS RegExp Editor Props JSFacts RegExpFacts EditorFacts StoreFacts.

(** *** Removing every occurrence of a pattern *)

Lemma removeAll_from_skip (pat : jsstring) (k : nat) (s : jsstring) :
  removeAll_from pat k s = removeAll_from pat 0 (skipn k s).
Proof.
  revert k; induction s as [|c s IH]; intros k.
  - destruct k; reflexivity.
  - destruct k as [|k]; [reflexivity|]. cbn [removeAll_from skipn]. apply IH.
Qed.

(** The unfolding of [removeAll] at an occurrence and elsewhere. *)
Lemma removeAll_eq (pat s : jsstring) :
  removeAll pat s
  = if truthy pat && starts_with pat s
    then removeAll pat (skipn (length pat) s)
    else match s with
         | [] => []
         | c :: s' => c :: removeAll pat s'
         end.
Proof.
  unfold removeAll. destruct s as [|c s].
  - destruct pat; reflexivity.
  - cbn [removeAll_from]. destruct (truthy pat && starts_with pat (c :: s)) eqn:E;
      [|reflexivity].
    rewrite removeAll_from_skip. destruct pat as [|p pat]; [discriminate|].
    replace (length (p :: pat) - 1) with (length pat) by (simpl; lia).
    reflexivity.
Qed.

Lemma removeAll_absent (pat s : jsstring) :
  absent pat s -> removeAll pat s = s.
Proof.
  induction s as [|c s IH]; intros H; rewrite removeAll_eq.
  - destruct (truthy pat && starts_with pat []) eqn:E; [|reflexivity].
    apply andb_true_iff in E as [_ E]. apply starts_with_iff in E as [post E].
    exfalso. exact (H [] post E).
  - destruct (truthy pat && starts_with pat (c :: s)) eqn:E.
    + apply andb_true_iff in E as [_ E]. apply starts_with_iff in E as [post E].
      exfalso. exact (H [] post E).
    + f_equal. apply IH. intros pre post Hs. apply (H (c :: pre) post).
      rewrite Hs. reflexivity.
Qed.

(** After [removeAll] of three equal characters no such triple is left. *)
Lemma removeAll_head (b : char) (s : jsstring) :
  hd_error s <> Some b -> hd_error (removeAll [b; b; b] s) <> Some b.
Proof.
  intros H. rewrite removeAll_eq. destruct s as [|x t]; [exact H|].
  cbn [truthy starts_with andb]. destruct (N.eqb_spec b x) as [->|Hx].
  - exfalso. apply H. reflexivity.
  - cbn [andb]. exact H.
Qed.

Lemma starts_with_triple (b : char) (s : jsstring) :
  starts_with [b; b; b] s = true <-> exists t, s = b :: b :: b :: t.
Proof.
  rewrite starts_with_iff. split; intros [t ->]; exists t; reflexivity.
Qed.

Lemma removeAll_triple_gone (b : char) (n : nat) (s : jsstring) :
  length s <= n -> indexOf [b; b; b] (removeAll [b; b; b] s) = None.
Proof.
  revert s; induction n as [|n IH]; intros s Hn.
  - destruct s; [reflexivity|simpl in Hn; lia].
  - rewrite removeAll_eq. destruct s as [|c s]; [reflexivity|].
    cbn [truthy andb]. destruct (starts_with [b; b; b] (c :: s)) eqn:E.
    + apply IH. rewrite length_skipn. simpl in *. lia.
    + assert (Hrest : indexOf [b; b; b] (removeAll [b; b; b] s) = None)
        by (apply IH; simpl in Hn; lia).
      cbn [indexOf]. rewrite Hrest.
      assert (Hno : starts_with [b; b; b] (c :: removeAll [b; b; b] s) = false);
        [|rewrite Hno; reflexivity].
      cbn [starts_with]. destruct (N.eqb_spec b c) as [<-|Hc]; [|reflexivity].
      cbn [andb].
      destruct s as [|x t].
      * reflexivity.
      * destruct (N.eqb_spec b x) as [<-|Hx].
        -- assert (Ht : hd_error t <> Some b).
           { intros Ht. destruct t as [|y t]; [discriminate|].
             injection Ht as ->.
             cbn [starts_with] in E. rewrite !N.eqb_refl in E. discriminate. }
           rewrite (removeAll_eq [b; b; b] (b :: t)).
           assert (E2 : starts_with [b; b; b] (b :: t) = false).
           { destruct t as [|y t]; [cbn [starts_with]; rewrite N.eqb_refl; reflexivity|].
             cbn [starts_with]. rewrite N.eqb_refl. cbn [andb].
             destruct (N.eqb_spec b y) as [<-|Hy]; [|reflexivity].
             exfalso. apply Ht. reflexivity. }
           rewrite E2. cbn [truthy andb]. rewrite N.eqb_refl. cbn [andb].
           pose proof (removeAll_head b t Ht) as Hh.
           destruct (removeAll [b; b; b] t) as [|y r]; [reflexivity|].
           destruct (N.eqb_spec b y) as [<-|Hy]; [|reflexivity].
           exfalso. apply Hh. reflexivity.
        -- assert (Hh : hd_error (x :: t) <> Some b) by (intros [= ->]; auto).
           apply (removeAll_head b) in Hh.
           destruct (removeAll [b; b; b] (x :: t)) as [|y r]; [reflexivity|].
           destruct (N.eqb_spec b y) as [<-|Hy]; [|reflexivity].
           exfalso. apply Hh. reflexivity.
Qed.

(** *** [trim] keeps a part of the text *)

Lemma trim_part (s : jsstring) : exists a b, s = a ++ trim s ++ b.
Proof.
  unfold trim. destruct (trimStart_suffix s) as [a Ha].
  destruct (trimEnd_prefix (trimStart s)) as [b Hb].
  exists a, b. rewrite <- Hb. exact Ha.
Qed.

Lemma absent_trim (pat s : jsstring) : absent pat s -> absent pat (trim s).
Proof.
  intros H pre post E. destruct (trim_part s) as (a & b & Hs).
  apply (H (a ++ pre) (post ++ b)). rewrite Hs at 1. rewrite E.
  rewrite <- !app_assoc. reflexivity.
Qed.

Lemma trim_fixed_ends (s : jsstring) :
  trim s = s ->
  match s with [] => True | c :: _ => is_whitespace c = false end /\
  match rev s with [] => True | c :: _ => is_whitespace c = false end.
Proof.
  intros H. split.
  - destruct (trimEnd_prefix (trimStart s)) as [w Hw]. fold (trim s) in Hw.
    rewrite H in Hw. destruct s as [|c t]; [exact I|].
    exact (trimStart_head (c :: t) c (t ++ w) Hw).
  - unfold trim, trimEnd in H.
    assert (E : rev s = trimStart (rev (trimStart s)))
      by (rewrite <- H at 1; apply rev_involutive).
    destruct (rev s) as [|c t]; [exact I|].
    exact (trimStart_head _ _ _ (eq_sym E)).
Qed.

(** *** The chunks of a stream *)

Lemma fold_left_append (l : list jsstring) (acc : jsstring) :
  fold_left (fun a chunk => a ++ chunk) l acc = acc ++ concat l.
Proof.
  revert acc; induction l as [|x l IH]; intros acc; cbn [fold_left concat].
  - symmetry. apply app_nil_r.
  - rewrite IH, app_assoc. reflexivity.
Qed.

(** Chunks without a text, or with an empty one, add nothing. *)
Lemma concat_chunk_texts (cs : list (option jsstring)) :
  concat (chunk_texts cs)
  = concat (map (fun c => match c with Some t => t | None => [] end) cs).
Proof.
  unfold chunk_texts. induction cs as [|c cs IH]; [reflexivity|].
  cbn [flat_map map concat]. rewrite concat_app, IH.
  destruct c as [[|x t]|]; cbn [truthy concat app]; rewrite ?app_nil_r;
    reflexivity.
Qed.

(** *** One file among files with distinct identifiers *)

Lemma split_at_id (i : jsstring) (fs : list VirtualFile) :
  NoDup (ids fs) -> In i (ids fs) ->
  exists pre f post,
    fs = pre ++ f :: post /\ id f = i /\
    (forall g, In g pre -> id g <> i) /\ (forall g, In g post -> id g <> i).
Proof.
  induction fs as [|f fs IH]; cbn [ids map]; intros Hd Hin; [destruct Hin|].
  inversion Hd as [|? ? Hn Hd']; subst.
  destruct (jsstring_eqb (id f) i) eqn:E.
  - apply jsstring_eqb_eq in E. exists [], f, fs.
    split; [reflexivity|]. split; [exact E|]. split; [intros g []|].
    intros g Hg Eg. apply Hn. rewrite E, <- Eg. apply in_map. exact Hg.
  - apply jsstring_eqb_neq in E. destruct Hin as [Hin|Hin]; [congruence|].
    destruct (IH Hd' Hin) as (pre & g & post & -> & Hg & Hpre & Hpost).
    exists (f :: pre), g, post. split; [reflexivity|]. split; [exact Hg|].
    split; [|exact Hpost]. intros h [<-|Hh]; [exact E|exact (Hpre h Hh)].
Qed.

Lemma filter_all (p : VirtualFile -> bool) (fs : list VirtualFile) :
  (forall f, In f fs -> p f = true) -> filter p fs = fs.
Proof.
  induction fs as [|f fs IH]; intros H; [reflexivity|]. cbn [filter].
  rewrite (H f (or_introl eq_refl)). f_equal. apply IH.
  intros g Hg. apply H. right. exact Hg.
Qed.

Lemma map_unchanged (g : VirtualFile -> VirtualFile) (fs : list VirtualFile) :
  (forall f, In f fs -> g f = f) -> map g fs = fs.
Proof.
  induction fs as [|f fs IH]; intros H; [reflexivity|]. cbn [map].
  rewrite (H f (or_introl eq_refl)). f_equal. apply IH.
  intros h Hh. apply H. right. exact Hh.
Qed.

Lemma with_content_same (f : VirtualFile) : with_content f (content f) = f.
Proof. destruct f; reflexivity. Qed.

(** *** Plain stores *)

Lemma bundlePreview_plain (fs : list VirtualFile) :
  filter (has_language css) fs = [] ->
  filter (has_language javascript) fs = [] ->
  bundlePreview fs = rootContent fs.
Proof.
  intros Hc Hj. rewrite bundlePreview_stages. unfold payload.
  rewrite Hc, Hj. reflexivity.
Qed.

Lemma find_snoc (p : VirtualFile -> bool) (fs : list VirtualFile)
      (g : VirtualFile) :
  find p (fs ++ [g])
  = match find p fs with
    | Some f => Some f
    | None => if p g then Some g else None
    end.
Proof.
  induction fs as [|f fs IH]; cbn [app find]; [reflexivity|].
  destruct (p f); [reflexivity|exact IH].
Qed.

End MoreFacts.

(** ** Further properties of the editor *)

Module EditorExtra.
Import JS RegExp Editor Props Samples EditorRest.
Import JSFacts RegExpFacts EditorFacts StoreFacts MoreFacts.

(** X1. In a store with distinct identifiers whose pointer names a file, an
    edit of the text changes the content of that one file and nothing
    else: the files before and after it, their order, and the pointer stay
    as they were. *)
Theorem file_change_touches_one_file (newContent : jsstring)
        (st : EditorState) :
  NoDup (ids (files st)) -> In (activeFileId st) (ids (files st)) ->
  exists pre f post,
    files st = pre ++ f :: post /\ id f = activeFileId st /\
    files (fst (handleFileChange newContent st))
    = pre ++ with_content f newContent :: post /\
    activeFileId (fst (handleFileChange newContent st)) = activeFileId st.
Proof.
  intros Hd Ha.
  destruct (split_at_id _ _ Hd Ha) as (pre & f & post & E & Hf & Hpre & Hpost).
  exists pre, f, post. split; [exact E|]. split; [exact Hf|].
  split; [|reflexivity].
  unfold handleFileChange. cbn [fst setFiles files]. rewrite E at 1.
  rewrite map_app. cbn [map]. unfold id_is at 2.
  rewrite (proj2 (jsstring_eqb_eq _ _) Hf).
  rewrite !map_unchanged; [reflexivity| |];
    intros g Hg; unfold id_is;
    [rewrite (proj2 (jsstring_eqb_neq _ _) (Hpost g Hg))
    |rewrite (proj2 (jsstring_eqb_neq _ _) (Hpre g Hg))]; reflexivity.
Qed.

(** Typing into the style file of [threeFiles] leaves root and script. *)
Lemma file_change_touches_one_file_witness :
  exists pre f post,
    files (setActiveFileId (str "2") threeFiles) = pre ++ f :: post /\
    id f = str "2" /\
    files (fst (handleFileChange (str "p{}")
                  (setActiveFileId (str "2") threeFiles)))
    = pre ++ with_content f (str "p{}") :: post /\
    activeFileId (fst (handleFileChange (str "p{}")
                         (setActiveFileId (str "2") threeFiles)))
    = str "2".
Proof.
  apply (file_change_touches_one_file (str "p{}")
           (setActiveFileId (str "2") threeFiles)).
  - repeat constructor; refute_by_evaluation.
  - right. left. reflexivity.
Defined.

(** X2. Of two edits of the text in a row only the second one shows: the
    state is the one the second edit alone gives. *)
Theorem file_change_last_wins (c1 c2 : jsstring) (st : EditorState) :
  fst (handleFileChange c2 (fst (handleFileChange c1 st)))
  = fst (handleFileChange c2 st).
Proof.
  unfold handleFileChange, setFiles.
  cbn [fst files activeFileId chatInput isEditing chatHistory viewMode].
  f_equal. rewrite map_map. apply map_ext. intros f.
  destruct (id_is (activeFileId st) f) eqn:E.
  - unfold id_is in *. cbn [with_content id]. rewrite E. reflexivity.
  - rewrite E. reflexivity.
Qed.

(** X3. Creating a file and then deleting it gives back the files of the
    store, when the store was not empty and [Date.now()] gave a new
    identifier; the pointer ends on the first file, whichever file it named
    before. *)
Theorem create_then_delete_restores (name0 : jsstring) (now : N)
        (st : EditorState) :
  truthy name0 = true -> ~ In (toString now) (ids (files st)) ->
  files st <> [] ->
  let created := fst (handleCreateFile (Some name0) now st) in
  let deleted := handleDeleteFile (toString now) true created in
  activeFileId created = toString now /\
  files (fst deleted) = files st /\
  snd deleted = [] /\
  Some (activeFileId (fst deleted)) = option_map id (hd_error (files st)).
Proof.
  intros Hname Hfresh Hne created deleted.
  assert (Ec : created
               = setActiveFileId (toString now)
                   (setFiles
                      (files st
                       ++ [ {| id := toString now; name := name0;
                               language :=
                                 if endsWith (str ".js") name0 then javascript
                                 else if endsWith (str ".css") name0 then css
                                 else html;
                               content :=
                                 if Language_eqb
                                      (if endsWith (str ".js") name0
                                       then javascript
                                       else if endsWith (str ".css") name0
                                            then css else html) html
                                 then str "<!-- New Page -->"
                                 else str "/* New Style */" |} ]) st)).
  { unfold created, handleCreateFile. rewrite Hname. reflexivity. }
  set (nf := {| id := toString now; name := name0; language := _;
                content := _ |}) in Ec.
  assert (Hkeep : forall f, In f (files st) -> id_is_not (toString now) f = true).
  { intros f Hf. apply id_is_not_true. intros E. apply Hfresh.
    rewrite <- E. unfold ids. apply in_map. exact Hf. }
  assert (Hfilter : filter (id_is_not (toString now)) (files st ++ [nf])
                    = files st).
  { rewrite filter_app, (filter_all _ _ Hkeep). cbn [filter].
    unfold id_is_not at 1. cbn [id nf]. rewrite jsstring_eqb_refl.
    cbn [negb]. apply app_nil_r. }
  assert (Hfind : find (id_is_not (toString now)) (files st ++ [nf])
                  = hd_error (files st)).
  { rewrite <- hd_filter_find, Hfilter. reflexivity. }
  assert (Hlen : (length (files st ++ [nf]) <=? 1) = false).
  { apply Nat.leb_gt. rewrite length_app. cbn [length].
    destruct (files st); [congruence|simpl; lia]. }
  split; [rewrite Ec; reflexivity|].
  unfold deleted, handleDeleteFile. rewrite Ec.
  cbn [files activeFileId setActiveFileId setFiles].
  rewrite Hlen, jsstring_eqb_refl, Hfilter, Hfind.
  cbn [fst snd files activeFileId setActiveFileId setFiles].
  split; [reflexivity|]. split; [reflexivity|].
  destruct (files st) as [|f fs]; [congruence|]. cbn [hd_error option_map].
  rewrite or_else_id by reflexivity. reflexivity.
Qed.

(** In [styledStore], with the style file selected: after creating and
    deleting [a.css] the files are back and the pointer is on the root. *)
Lemma create_then_delete_restores_witness :
  let st := setActiveFileId (str "2") styledStore in
  let created := fst (handleCreateFile (Some (str "a.css")) 1730000000000 st) in
  let deleted := handleDeleteFile (toString 1730000000000) true created in
  files (fst deleted) = files st /\ activeFileId (fst deleted) = str "1".
Proof.
  destruct (create_then_delete_restores (str "a.css") 1730000000000
              (setActiveFileId (str "2") styledStore))
    as (_ & Hf & _ & Ha).
  - reflexivity.
  - refute_by_evaluation.
  - discriminate.
  - split; [exact Hf|].
    change (option_map id (hd_error (files (setActiveFileId (str "2") styledStore))))
      with (Some (str "1")) in Ha.
    exact (f_equal (fun o => or_else o []) Ha).
Defined.

(** X4. In a store of more than one file with distinct identifiers, a
    confirmed delete of a file of the store takes out that one file and
    keeps the others in their order; a delete that is not confirmed
    changes nothing. *)
Theorem delete_removes_one_file (i : jsstring) (st : EditorState) :
  NoDup (ids (files st)) -> In i (ids (files st)) ->
  1 < length (files st) ->
  (exists pre f post,
      files st = pre ++ f :: post /\ id f = i /\
      files (fst (handleDeleteFile i true st)) = pre ++ post) /\
  handleDeleteFile i false st = (st, []).
Proof.
  intros Hd Hi L.
  assert (Hlen : (length (files st) <=? 1) = false)
    by (apply Nat.leb_gt; exact L).
  split.
  - destruct (split_at_id _ _ Hd Hi) as (pre & f & post & E & Hf & Hpre & Hpost).
    exists pre, f, post. split; [exact E|]. split; [exact Hf|].
    assert (Efiles : files (fst (handleDeleteFile i true st))
                     = filter (id_is_not i) (files st)).
    { unfold handleDeleteFile. rewrite Hlen.
      destruct (jsstring_eqb (activeFileId st) i); reflexivity. }
    rewrite Efiles, E, filter_app. cbn [filter].
    unfold id_is_not at 2. rewrite (proj2 (jsstring_eqb_eq _ _) Hf).
    cbn [negb]. rewrite !filter_all; [reflexivity| |];
      intros g Hg; apply id_is_not_true; auto.
  - unfold handleDeleteFile. rewrite Hlen. reflexivity.
Qed.

(** Deleting the style file of [styledStore] leaves its root. *)
Lemma delete_removes_one_file_witness :
  (exists pre f post,
      files styledStore = pre ++ f :: post /\ id f = str "2" /\
      files (fst (handleDeleteFile (str "2") true styledStore)) = pre ++ post) /\
  handleDeleteFile (str "2") false styledStore = (styledStore, []).
Proof.
  apply (delete_removes_one_file (str "2") styledStore).
  - repeat constructor; refute_by_evaluation.
  - right. left. reflexivity.
  - vm_compute. lia.
Defined.

(** X5. A new file whose name does not end in [.css] or [.js] does not
    change the preview, unless it is named [index.html] and the store had
    no such file: a further page is never rendered. *)
Theorem new_page_keeps_preview (name0 : jsstring) (now : N)
        (st : EditorState) :
  truthy name0 = true ->
  endsWith (str ".css") name0 = false ->
  endsWith (str ".js") name0 = false ->
  (name0 <> index_html \/ exists root, find is_index (files st) = Some root) ->
  bundlePreview (files (fst (handleCreateFile (Some name0) now st)))
  = bundlePreview (files st).
Proof.
  intros Hname Hcss Hjs Hroot.
  unfold handleCreateFile. rewrite Hname, Hcss, Hjs.
  cbn [negb fst setActiveFileId setFiles files Language_eqb].
  set (nf := {| id := toString now; name := name0; language := html;
                content := str "<!-- New Page -->" |}).
  rewrite !bundlePreview_stages. unfold payload, rootContent.
  rewrite !filter_app, find_snoc. cbn [filter has_language language nf
                                        Language_eqb].
  rewrite !app_nil_r.
  destruct (find is_index (files st)) as [r|] eqn:E; [reflexivity|].
  destruct Hroot as [Hn|[root Hr]]; [|discriminate].
  unfold is_index. cbn [name nf].
  rewrite (proj2 (jsstring_eqb_neq _ _) Hn). reflexivity.
Qed.

(** A second page in [styledStore] leaves its preview as it was. *)
Lemma new_page_keeps_preview_witness :
  bundlePreview
    (files (fst (handleCreateFile (Some (str "page2.html")) 1730000000000
                   styledStore)))
  = bundlePreview (files styledStore).
Proof.
  apply (new_page_keeps_preview (str "page2.html") 1730000000000 styledStore);
    try reflexivity.
  left. refute_by_evaluation.
Defined.

(** X6. An edit cycle whose response fails the validation tells the
    application once, right at its start: the code of the project is the
    one it had, and the chat history sent ends with the user's message; the
    failure message stays in the editor. *)
Theorem failed_edit_persists_no_code (ai : Backend) (project : Project)
        (st : EditorState) :
  accepted st ->
  valid_code (receivedCode ai (bundlePreview (files st)) (chatInput st))
  = false ->
  snd (handleSendMessage ai project st)
  = [ OnUpdate
        {| title := title project; code := code project;
           projectChatHistory :=
             Some (chatHistory st
                   ++ [ {| role := user; text := chatInput st |} ]) |} ].
Proof.
  intros Ha Hv. unfold handleSendMessage.
  rewrite (accepted_guard _ Ha). cbv zeta.
  unfold valid_code in Hv. rewrite Hv. reflexivity.
Qed.

(** The silent backend on [styledStore]. *)
Lemma failed_edit_persists_no_code_witness :
  snd (handleSendMessage silentBackend styledProject styledStore)
  = [ OnUpdate
        {| title := str "demo"; code := Some styledPage;
           projectChatHistory :=
             Some [ {| role := user; text := str "make the title blue" |} ] |} ].
Proof.
  apply (failed_edit_persists_no_code silentBackend styledProject styledStore).
  - split; reflexivity.
  - reflexivity.
Defined.

(** X7. After a successful edit cycle the code sent to the application is
    the response itself, which is also the content of every file named
    [index.html]; the style and script files of the store are not part of
    it.  The chat history sent ends with the user's message and the success
    message. *)
Theorem successful_edit_persists_root (ai : Backend) (project : Project)
        (st : EditorState) :
  accepted st ->
  valid_code (receivedCode ai (bundlePreview (files st)) (chatInput st))
  = true ->
  let R' := receivedCode ai (bundlePreview (files st)) (chatInput st) in
  let result := handleSendMessage ai project st in
  snd result
  = [ OnUpdate
        {| title := title project; code := code project;
           projectChatHistory :=
             Some (chatHistory st
                   ++ [ {| role := user; text := chatInput st |} ]) |};
      OnUpdate
        {| title := title project; code := Some R';
           projectChatHistory :=
             Some (chatHistory st
                   ++ [ {| role := user; text := chatInput st |};
                        successMsg ]) |} ] /\
  forall f, In f (files (fst result)) -> name f = index_html ->
            content f = R'.
Proof.
  intros Ha Hv R' result. split.
  - unfold result, handleSendMessage.
    rewrite (accepted_guard _ Ha). cbv zeta.
    unfold valid_code in Hv. rewrite Hv.
    cbn [snd app]. rewrite <- !app_assoc. reflexivity.
  - unfold result. rewrite (send_success _ _ _ Ha Hv). cbn [files].
    rewrite mergeFiles_parse. intros f Hf Hname.
    apply in_map_iff in Hf as (g & <- & Hg).
    destruct (is_index g) eqn:E; [reflexivity|].
    exfalso. unfold is_index in E. apply jsstring_eqb_neq in E. auto.
Qed.

(** [pageBackend] on [threeFiles]: the code sent is [page], without the
    style and script of the store. *)
Lemma successful_edit_persists_root_witness :
  snd (handleSendMessage pageBackend noProject threeFiles)
  = [ OnUpdate
        {| title := str "demo"; code := None;
           projectChatHistory :=
             Some [ {| role := user; text := str "make the title blue" |} ] |};
      OnUpdate
        {| title := str "demo"; code := Some page;
           projectChatHistory :=
             Some [ {| role := user; text := str "make the title blue" |};
                    successMsg ] |} ].
Proof.
  apply (successful_edit_persists_root pageBackend noProject threeFiles).
  - split; reflexivity.
  - reflexivity.
Defined.

(** X8. An edit cycle depends on the stream of the backend only through the
    text it delivers and the way it ends: how the text is cut into chunks,
    and chunks without a text, make no difference. *)
Theorem edit_ignores_chunking (ai1 ai2 : Backend) (project : Project)
        (st : EditorState) :
  (let r1 := ai1 (bundlePreview (files st)) (chatInput st) in
   let r2 := ai2 (bundlePreview (files st)) (chatInput st) in
   concat (map (fun c => match c with Some t => t | None => [] end)
             (chunks r1))
   = concat (map (fun c => match c with Some t => t | None => [] end)
               (chunks r2)) /\
   stream_end r1 = stream_end r2) ->
  handleSendMessage ai1 project st = handleSendMessage ai2 project st.
Proof.
  cbv zeta. intros [Htext Hend].
  assert (E : receivedCode ai1 (bundlePreview (files st)) (chatInput st)
              = receivedCode ai2 (bundlePreview (files st)) (chatInput st)).
  { unfold receivedCode, streamCodeEdit. cbv zeta.
    rewrite !fold_left_append, !concat_app, !concat_chunk_texts.
    rewrite Htext, Hend. reflexivity. }
  unfold handleSendMessage. cbv zeta. rewrite E. reflexivity.
Qed.

(** [pageBackend] sends [page] in two chunks and a fence; a backend that
    sends the same text in one chunk gives the same cycle. *)
Lemma edit_ignores_chunking_witness :
  handleSendMessage pageBackend noProject threeFiles
  = handleSendMessage
      (fun _ _ =>
         {| chunks := [Some (str "```html" ++ page ++ str "```")];
            stream_end := Completes |})
      noProject threeFiles.
Proof.
  apply (edit_ignores_chunking pageBackend _ noProject threeFiles).
  split; reflexivity.
Defined.

(** X9. The response an edit cycle validates holds no code fence (three
    backquotes in a row) and neither starts nor ends with white space,
    whatever the backend sent. *)
Theorem received_code_clean (ai : Backend) (currentBundled userMsg : jsstring) :
  includes (str "```") (receivedCode ai currentBundled userMsg) = false /\
  trim (receivedCode ai currentBundled userMsg)
  = receivedCode ai currentBundled userMsg.
Proof.
  unfold receivedCode. cbv zeta. split; [|apply trim_idem].
  apply includes_false, absent_trim, includes_false.
  unfold includes.
  change (str "```") with [96%N; 96%N; 96%N].
  rewrite (removeAll_triple_gone 96%N _ _ (le_n _)). reflexivity.
Qed.

(** X10. When the backend throws before any text, in a store without style
    and script files whose root content is free of code fences, has no
    white space around it and is longer than 50 characters, the files come
    out of the cycle as they went in, and the cycle reports a success. *)
Theorem backend_error_on_plain_store (ai : Backend) (project : Project)
        (st : EditorState) :
  accepted st ->
  stream_end (ai (bundlePreview (files st)) (chatInput st)) = Throws ->
  chunk_texts (chunks (ai (bundlePreview (files st)) (chatInput st))) = [] ->
  filter (has_language css) (files st) = [] ->
  filter (has_language javascript) (files st) = [] ->
  absent (str "```") (rootContent (files st)) ->
  trim (rootContent (files st)) = rootContent (files st) ->
  50 < length (rootContent (files st)) ->
  (forall f, In f (files st) -> name f = index_html ->
             content f = rootContent (files st)) ->
  files (fst (handleSendMessage ai project st)) = files st /\
  chatHistory (fst (handleSendMessage ai project st))
  = chatHistory st
    ++ [ {| role := user; text := chatInput st |}; successMsg ].
Proof.
  intros Ha Hend Hnone Hc Hj Hfence Htrim Hlen Hroots.
  assert (Hb : bundlePreview (files st) = rootContent (files st))
    by (apply bundlePreview_plain; assumption).
  assert (HR : receivedCode ai (bundlePreview (files st)) (chatInput st)
               = rootContent (files st)).
  { unfold receivedCode, streamCodeEdit. cbv zeta.
    rewrite Hend, Hnone, Hb. cbn [app fold_left].
    rewrite (removeAll_absent (str "```html")).
    - rewrite (removeAll_absent _ _ Hfence). exact Htrim.
    - intros pre post E. apply (Hfence pre (str "html" ++ post)).
      rewrite E. reflexivity. }
  assert (Hv : valid_code
                 (receivedCode ai (bundlePreview (files st)) (chatInput st))
               = true).
  { rewrite HR. unfold valid_code.
    destruct (rootContent (files st)) as [|c r] eqn:E; [simpl in Hlen; lia|].
    cbn [truthy andb]. apply Nat.ltb_lt. exact Hlen. }
  rewrite (send_success _ _ _ Ha Hv). cbn [files chatHistory].
  split; [|reflexivity].
  rewrite mergeFiles_parse, HR. apply map_unchanged. intros f Hf.
  destruct (is_index f) eqn:E; [|reflexivity].
  unfold is_index in E. apply jsstring_eqb_eq in E.
  rewrite <- (Hroots f Hf E). apply with_content_same.
Qed.

(** The failing backend on a store that holds [page] alone. *)
Lemma backend_error_on_plain_store_witness :
  files (fst (handleSendMessage failingBackend noProject
                (asking (initialState
                           {| title := str "demo"; code := Some page;
                              projectChatHistory := None |}))))
  = [rootFile page].
Proof.
  apply (backend_error_on_plain_store failingBackend noProject
           (asking (initialState
                      {| title := str "demo"; code := Some page;
                         projectChatHistory := None |}))).
  - split; reflexivity.
  - reflexivity.
  - reflexivity.
  - reflexivity.
  - reflexivity.
  - apply includes_false. reflexivity.
  - reflexivity.
  - vm_compute. lia.
  - intros f [<-|[]] _. reflexivity.
Defined.

(** X11. Saving hands the bundle to the application as the code of the
    project and leaves the editor as it is.  An editor opened on the saved
    project has the bundle as its root content; its preview is the bundle
    again when nothing but the root is extracted from the bundle, and is
    longer than the bundle otherwise. *)
Theorem save_then_open (project : Project) (st : EditorState) :
  let B := bundlePreview (files st) in
  let saved :=
    {| title := title project; code := Some B;
       projectChatHistory := projectChatHistory project |} in
  handleSave project st
  = (st, [OnUpdate saved; Alert (str "Project saved successfully!")]) /\
  rootContent (files (initialState saved)) = B /\
  (parseProjectCode B = [rootFile B] ->
   bundlePreview (files (initialState saved)) = B) /\
  (parseProjectCode B <> [rootFile B] ->
   length B < length (bundlePreview (files (initialState saved)))).
Proof.
  intros B saved.
  assert (E : files (initialState saved) = parseProjectCode B).
  { rewrite initialState_files. cbn [code saved or_else].
    destruct B; reflexivity. }
  rewrite E. split; [reflexivity|]. split; [apply rootContent_parse|].
  split; [apply cycle_root_only|apply cycle_grows].
Qed.

(** Saving [threeFiles] and opening the result: the preview has grown. *)
Lemma save_then_open_witness :
  let B := bundlePreview (files threeFiles) in
  let saved :=
    {| title := str "demo"; code := Some B; projectChatHistory := None |} in
  B = str "<p>old</p><style>p{margin:0}</style><script>init()</script>" /\
  length B < length (bundlePreview (files (initialState saved))).
Proof.
  split; [reflexivity|].
  apply (proj2 (proj2 (proj2 (save_then_open noProject threeFiles)))).
  discriminate.
Defined.

End EditorExtra.

(** ** Facts about the application *)

Module AppFacts.
Import JS RegExp Editor Props App.
Import JSFacts RegExpFacts EditorFacts StoreFacts MoreFacts.

(** *** Titles *)

Lemma titleOf_length (limit : nat) (titleLine : jsstring) :
  length (titleOf limit titleLine) <= limit + 3.
Proof.
  unfold titleOf. cbv zeta.
  destruct (Nat.ltb_spec limit
              (length (trim (stripColon (removeAll (str "**")
                                           (stripHeading titleLine)))))) as [L|L].
  - rewrite length_app, length_firstn. change (length (str "...")) with 3. lia.
  - lia.
Qed.

(** *** The loop over the stream of code *)

Lemma sliceLast_length (n : nat) (s : jsstring) : length (sliceLast n s) <= n.
Proof. unfold sliceLast. rewrite length_skipn. lia. Qed.

Lemma skipn_app_le (k : nat) (a b : jsstring) :
  k <= length a -> skipn k (a ++ b) = skipn k a ++ b.
Proof.
  intros H. rewrite skipn_app.
  replace (k - length a) with 0 by lia. reflexivity.
Qed.

(** Keeping the last [n] characters at every turn is keeping the last [n]
    characters of the whole. *)
Lemma sliceLast_app (n : nat) (a b : jsstring) :
  sliceLast n (sliceLast n a ++ b) = sliceLast n (a ++ b).
Proof.
  unfold sliceLast. rewrite !length_app, length_skipn.
  set (k := length a - n).
  assert (Hk : k <= length a) by (unfold k; lia).
  assert (E : a ++ b = firstn k a ++ (skipn k a ++ b))
    by (rewrite app_assoc, firstn_skipn; reflexivity).
  rewrite E.
  assert (Hf : length (firstn k a) = k) by (rewrite length_firstn; lia).
  rewrite (skipn_app _ (firstn k a)).
  rewrite (@skipn_all2 _ _ (firstn k a)) by (rewrite Hf; unfold k; lia).
  cbn [app].
  rewrite Hf. f_equal. unfold k. lia.
Qed.

Lemma buildChunk_code (acc : Build) (chunk : jsstring) :
  b_code (buildChunk acc chunk) = b_code acc ++ chunk.
Proof. reflexivity. Qed.

Lemma buildChunk_snippet (acc : Build) (chunk : jsstring) :
  b_snippet (buildChunk acc chunk) = sliceLast 1000 (b_snippet acc ++ chunk).
Proof. reflexivity. Qed.

Lemma buildChunk_step (acc : Build) (chunk : jsstring) :
  b_step acc <= b_step (buildChunk acc chunk) /\
  (b_step acc <= 3 -> b_step (buildChunk acc chunk) <= 3).
Proof.
  unfold buildChunk. cbv zeta. cbn [b_step].
  set (code0 := b_code acc ++ chunk).
  destruct ((includes (str "<!DOCTYPE") code0 || includes (str "<html") code0)
            && (b_step acc <? 1)) eqn:E1;
    [apply andb_true_iff in E1 as [_ E1]; apply Nat.ltb_lt in E1|];
    (destruct ((includes (str "<body") code0 || includes (str "<main") code0)
               && (_ <? 2)) eqn:E2;
     [apply andb_true_iff in E2 as [_ E2]; apply Nat.ltb_lt in E2|]);
    (destruct ((15 <? countAll classAttr code0) && (_ <? 3)) eqn:E3;
     [apply andb_true_iff in E3 as [_ E3]; apply Nat.ltb_lt in E3|]);
    lia.
Qed.

Lemma build_fold (chunks0 : list jsstring) (acc : Build) :
  let built := fold_left buildChunk chunks0 acc in
  b_code built = b_code acc ++ concat chunks0 /\
  (b_snippet acc = sliceLast 1000 (b_code acc) ->
   b_snippet built = sliceLast 1000 (b_code built)) /\
  b_step acc <= b_step built /\
  (b_step acc <= 3 -> b_step built <= 3).
Proof.
  revert acc; induction chunks0 as [|c cs IH]; intros acc; cbn [fold_left concat].
  - rewrite app_nil_r. repeat split; auto.
  - destruct (IH (buildChunk acc c)) as (Hc & Hs & Hm & Hb).
    destruct (buildChunk_step acc c) as [Hm1 Hb1].
    cbv zeta.
    split; [rewrite Hc, buildChunk_code, <- app_assoc; reflexivity|].
    split; [|split; [lia|auto]].
    intros Hsn. apply Hs.
    rewrite buildChunk_snippet, buildChunk_code, Hsn.
    apply sliceLast_app.
Qed.

(** *** Cleaning the code *)

Lemma starts_with_foreign (pat a : jsstring) (h : char) (m : jsstring) :
  ~ In h pat -> truthy pat = true ->
  starts_with pat (a ++ h :: m) = starts_with pat a.
Proof.
  revert a; induction pat as [|p pat IH]; intros a Hh Ht; [discriminate|].
  destruct a as [|c a]; cbn [app starts_with].
  - destruct (N.eqb_spec p h) as [->|_]; [|reflexivity].
    exfalso. apply Hh. left. reflexivity.
  - destruct pat as [|q pat].
    + destruct (N.eqb p c); reflexivity.
    + rewrite IH; [reflexivity| |reflexivity].
      intros H. apply Hh. right. exact H.
Qed.

(** Occurrences of the pattern do not reach into a text that starts with a
    character foreign to it. *)
Lemma removeAll_app_foreign (pat : jsstring) (h : char) (m : jsstring)
      (n : nat) (a : jsstring) :
  ~ In h pat -> length a <= n ->
  removeAll pat (a ++ h :: m) = removeAll pat a ++ removeAll pat (h :: m).
Proof.
  intros Hh. revert a; induction n as [|n IH]; intros a Hn.
  - destruct a; [reflexivity|simpl in Hn; lia].
  - destruct a as [|c a]; [reflexivity|].
    destruct (truthy pat) eqn:Ht.
    + rewrite (removeAll_eq pat ((c :: a) ++ h :: m)),
        (removeAll_eq pat (c :: a)).
      rewrite Ht, (starts_with_foreign _ _ _ _ Hh Ht). cbn [andb].
      destruct (starts_with pat (c :: a)) eqn:E.
      * apply starts_with_iff in E as [rest E]. rewrite E.
        rewrite <- app_assoc.
        destruct (firstn_skipn_at pat (rest ++ h :: m)) as [_ ->].
        destruct (firstn_skipn_at pat rest) as [_ ->].
        apply IH. apply (f_equal (@length _)) in E.
        rewrite length_app in E.
        destruct pat; [discriminate|simpl in *; lia].
      * cbn [app]. f_equal. apply IH. simpl in Hn. lia.
    + destruct pat; [|discriminate].
      rewrite (removeAll_eq [] ((c :: a) ++ h :: m)),
        (removeAll_eq [] (c :: a)).
      cbn [truthy andb app]. f_equal. apply IH. simpl in Hn. lia.
Qed.

Lemma trimStart_app (a : jsstring) (h : char) (m : jsstring) :
  is_whitespace h = false ->
  trimStart (a ++ h :: m) = trimStart a ++ h :: m.
Proof.
  intros Hh. induction a as [|c a IH]; cbn [app trimStart].
  - rewrite Hh. reflexivity.
  - destruct (is_whitespace c); [exact IH|reflexivity].
Qed.

Lemma trimEnd_app (a m : jsstring) (l : char) :
  is_whitespace l = false -> trimEnd (a ++ m ++ [l]) = a ++ m ++ [l].
Proof.
  intros Hl. unfold trimEnd. rewrite !rev_app_distr. cbn [rev app trimStart].
  rewrite Hl. cbn [rev]. rewrite !rev_app_distr, !rev_involutive.
  cbn [rev app]. rewrite <- app_assoc. reflexivity.
Qed.

(** The marker of an error of the backend survives the cleaning. *)
Lemma cleanCode_keeps_marker (a : jsstring) :
  includes (str "Error generating code") (cleanCode (a ++ errorMarker)) = true.
Proof.
  unfold cleanCode.
  set (m := @tl char errorMarker).
  change errorMarker with (@cons char 60%N m).
  rewrite (removeAll_app_foreign (str "```html") 60%N m (length a) a)
    by (try refute_by_evaluation; lia).
  change (removeAll (str "```html") (@cons char 60%N m))
    with (@cons char 60%N m).
  rewrite (removeAll_app_foreign (str "```") 60%N m _ _)
    by (try refute_by_evaluation; apply le_n).
  change (removeAll (str "```") (@cons char 60%N m))
    with (@cons char 60%N m).
  unfold trim. rewrite trimStart_app by reflexivity.
  change (@cons char 60%N m)
    with ((@cons char 60%N (removelast m)) ++ [62%N]).
  rewrite trimEnd_app by reflexivity.
  apply includes_true.
  exists (trimStart (removeAll (str "```") (removeAll (str "```html") a))
          ++ str "<!-- "),
    (str ". Please try again. -->").
  rewrite <- !app_assoc. reflexivity.
Qed.

Lemma cleanCode_clean (code0 : jsstring) :
  includes (str "```") (cleanCode code0) = false /\
  trim (cleanCode code0) = cleanCode code0.
Proof.
  unfold cleanCode. split; [|apply trim_idem].
  apply includes_false, absent_trim, includes_false.
  unfold includes. change (str "```") with [96%N; 96%N; 96%N].
  rewrite (removeAll_triple_gone 96%N _ _ (le_n _)). reflexivity.
Qed.

(** *** The outcomes of [handleCreateProject] *)

Lemma built_code (l : list jsstring) :
  b_code (fold_left buildChunk l
            {| b_code := []; b_snippet := []; b_step := 0 |})
  = concat l.
Proof. exact (proj1 (build_fold l _)). Qed.

Lemma create_skipped (ai : CodeBackend) (now : N) (st : AppState) :
  or_else (aiResponse st) [] = [] ->
  handleCreateProject ai now st = (st, []).
Proof.
  unfold handleCreateProject, or_else. destruct (aiResponse st) as [[|c r]|];
    [reflexivity|discriminate|reflexivity].
Qed.

Lemma create_failure (ai : CodeBackend) (now : N) (st : AppState)
      (plan : jsstring) :
  aiResponse st = Some plan -> truthy plan = true ->
  invalidCode (cleanCode (concat (streamAppCode ai plan))) = true ->
  handleCreateProject ai now st
  = (let built :=
       fold_left buildChunk (streamAppCode ai plan)
         {| b_code := []; b_snippet := []; b_step := 0 |} in
     {| projects := projects st; currentView := home;
        activeProject := activeProject st;
        buildingStep := b_step built;
        buildingCodeSnippet := b_snippet built;
        aiResponse := aiResponse st; isGenerating := isGenerating st;
        showModal := false; refineText := refineText st;
        originalPrompt := originalPrompt st |},
     [str "Failed to generate project. Please try again."]).
Proof.
  intros Hp Ht Hv. unfold handleCreateProject. rewrite Hp at 1. rewrite Ht.
  cbv zeta. cbn [negb]. rewrite built_code, Hv. reflexivity.
Qed.

Lemma create_success (ai : CodeBackend) (now : N) (st : AppState)
      (plan : jsstring) :
  aiResponse st = Some plan -> truthy plan = true ->
  invalidCode (cleanCode (concat (streamAppCode ai plan))) = false ->
  handleCreateProject ai now st
  = (let built :=
       fold_left buildChunk (streamAppCode ai plan)
         {| b_code := []; b_snippet := []; b_step := 0 |} in
     let created :=
       newProject now
         (titleOf 40 (or_else (firstTitleLine plan) (str "New Project")))
         (cleanCode (concat (streamAppCode ai plan))) in
     {| projects := created :: projects st; currentView := editor;
        activeProject := Some created;
        buildingStep := 4;
        buildingCodeSnippet := b_snippet built;
        aiResponse := aiResponse st; isGenerating := isGenerating st;
        showModal := false; refineText := refineText st;
        originalPrompt := originalPrompt st |},
     []).
Proof.
  intros Hp Ht Hv. unfold handleCreateProject. rewrite Hp at 1. rewrite Ht.
  cbv zeta. cbn [negb]. rewrite built_code, Hv. reflexivity.
Qed.

(** *** What a search leaves alone *)

Lemma fold_response_keeps (l : list jsstring) (st : AppState) :
  let st' :=
    fold_left
      (fun st chunk =>
         setAiResponse (Some (or_else (aiResponse st) [] ++ chunk)) st)
      l st in
  projects st' = projects st /\ activeProject st' = activeProject st.
Proof.
  revert st; induction l as [|c l IH]; intros st; cbn [fold_left].
  - split; reflexivity.
  - destruct (IH (setAiResponse (Some (or_else (aiResponse st) [] ++ c)) st))
      as [-> ->]. split; reflexivity.
Qed.

Lemma search_keeps (ai : IdeaBackend) (prompt : jsstring)
      (image : option jsstring) (isRefinement : bool) (st : AppState) :
  projects (fst (handleSearch ai prompt image isRefinement st)) = projects st /\
  activeProject (fst (handleSearch ai prompt image isRefinement st))
  = activeProject st.
Proof.
  unfold handleSearch. cbv zeta. cbn [fst setIsGenerating projects activeProject].
  match goal with
  | |- context [fold_left ?f ?l ?s] =>
      destruct (fold_response_keeps l s) as [-> ->]
  end.
  destruct isRefinement; split; reflexivity.
Qed.

Lemma refine_keeps (ai : IdeaBackend) (st : AppState) :
  projects (fst (handleRefineSubmit ai st)) = projects st /\
  activeProject (fst (handleRefineSubmit ai st)) = activeProject st.
Proof.
  unfold handleRefineSubmit.
  destruct (negb (truthy (trim (refineText st)))); [split; reflexivity|].
  pose proof (search_keeps ai (refineText st) None true st) as [H1 H2].
  destruct (handleSearch ai (refineText st) None true st) as [st' alerts].
  cbn [fst] in *. cbn [setRefineText projects activeProject]. auto.
Qed.

Lemma fold_response (l : list jsstring) (st : AppState) :
  fold_left
    (fun st chunk =>
       setAiResponse (Some (or_else (aiResponse st) [] ++ chunk)) st)
    l (setAiResponse (Some []) st)
  = setAiResponse (Some (concat l)) st.
Proof.
  assert (H : forall l r,
             fold_left
               (fun st chunk =>
                  setAiResponse (Some (or_else (aiResponse st) [] ++ chunk)) st)
               l (setAiResponse (Some r) st)
             = setAiResponse (Some (r ++ concat l)) st).
  { clear l. induction l as [|c l IH]; intros r; cbn [fold_left concat].
    - rewrite app_nil_r. reflexivity.
    - cbn [aiResponse setAiResponse].
      replace (or_else (Some r) []) with r by (destruct r; reflexivity).
      change (setAiResponse (Some (r ++ c)) (setAiResponse (Some r) st))
        with (setAiResponse (Some (r ++ c)) st).
      rewrite IH, app_assoc. reflexivity. }
  exact (H l []).
Qed.

(** *** One project among projects with distinct identifiers *)

Lemma split_at_project (a : ProjectData) (ps : list ProjectData) :
  NoDup (map p_id ps) -> In a ps ->
  exists pre post,
    ps = pre ++ a :: post /\
    (forall q, In q pre -> p_id q <> p_id a) /\
    (forall q, In q post -> p_id q <> p_id a).
Proof.
  induction ps as [|p ps IH]; cbn [map]; intros Hd Hin; [destruct Hin|].
  inversion Hd as [|? ? Hn Hd']; subst.
  destruct Hin as [->|Hin].
  - exists [], ps. split; [reflexivity|]. split; [intros q []|].
    intros q Hq E. apply Hn. rewrite <- E. apply in_map. exact Hq.
  - destruct (IH Hd' Hin) as (pre & post & -> & Hpre & Hpost).
    exists (p :: pre), post. split; [reflexivity|]. split; [|exact Hpost].
    intros q [<-|Hq]; [|exact (Hpre q Hq)].
    intros E. apply Hn. rewrite E. apply in_map.
    apply in_or_app. right. left. reflexivity.
Qed.

Lemma map_projects_unchanged (g : ProjectData -> ProjectData)
      (ps : list ProjectData) :
  (forall p, In p ps -> g p = p) -> map g ps = ps.
Proof.
  induction ps as [|p ps IH]; intros H; [reflexivity|]. cbn [map].
  rewrite (H p (or_introl eq_refl)). f_equal. apply IH.
  intros q Hq. apply H. right. exact Hq.
Qed.

Lemma p_id_is_false (i : jsstring) (p : ProjectData) :
  p_id p <> i -> p_id_is i p = false.
Proof. intros H. unfold p_id_is. apply jsstring_eqb_neq. exact H. Qed.

Lemma p_id_is_true (p : ProjectData) : p_id_is (p_id p) p = true.
Proof. unfold p_id_is. apply jsstring_eqb_refl. Qed.

(** Replacing the project of one card. *)
Lemma map_at_project (a : ProjectData) (g : ProjectData -> ProjectData)
      (ps : list ProjectData) :
  NoDup (map p_id ps) -> In a ps ->
  exists pre post,
    ps = pre ++ a :: post /\
    map (fun p => if p_id_is (p_id a) p then g p else p) ps
    = pre ++ g a :: post.
Proof.
  intros Hd Hin.
  destruct (split_at_project a ps Hd Hin) as (pre & post & -> & Hpre & Hpost).
  exists pre, post. split; [reflexivity|].
  rewrite map_app. cbn [map]. rewrite p_id_is_true.
  rewrite !map_projects_unchanged; [reflexivity| |];
    intros q Hq; rewrite p_id_is_false; auto.
Qed.

End AppFacts.

(** ** Properties of the application *)

Module AppExtra.
Import JS RegExp Editor Props Samples EditorRest App AppSamples.
Import JSFacts RegExpFacts EditorFacts StoreFacts MoreFacts AppFacts.

(** X12. The three category tabs of the dashboard split the projects: a
    project of the list is shown under the tab of its category and under no
    other, so the three tabs together show as many cards as there are
    projects; "Recently viewed" shows them all. *)
Theorem dashboard_tabs_partition (ps : list ProjectData) :
  filteredProjects RECENTLY_VIEWED ps = ps /\
  length (filteredProjects MY_PROJECTS ps)
  + length (filteredProjects SHARED_WITH_ME ps)
  + length (filteredProjects TEMPLATES ps) = length ps /\
  (forall p, In p (filteredProjects MY_PROJECTS ps)
             <-> In p ps /\ p_category p = mine) /\
  (forall p, In p (filteredProjects SHARED_WITH_ME ps)
             <-> In p ps /\ p_category p = shared) /\
  (forall p, In p (filteredProjects TEMPLATES ps)
             <-> In p ps /\ p_category p = template).
Proof.
  split; [reflexivity|]. split.
  - cbn [filteredProjects]. induction ps as [|p ps IH]; [reflexivity|].
    cbn [filter].
    assert (E : forall c, in_category c p = Category_eqb (p_category p) c)
      by reflexivity.
    rewrite !E. destruct (p_category p); cbn [Category_eqb length]; lia.
  - assert (H : forall c p, In p (filter (in_category c) ps)
                            <-> In p ps /\ p_category p = c).
    { intros c p. rewrite filter_In. unfold in_category.
      destruct (p_category p), c; cbn [Category_eqb];
        intuition (congruence || discriminate). }
    cbn [filteredProjects]. split; [|split]; intros p; apply H.
Qed.

(** X13. Templates never reach the dashboard: whatever the storage holds
    and whatever is done afterwards, the list of projects holds no project
    of category [template], so the "Templates" tab stays empty; the project
    that is open is no template either. *)
Theorem templates_tab_stays_empty (st : AppState) :
  appReachable st ->
  filteredProjects TEMPLATES (projects st) = [] /\
  (forall a, activeProject st = Some a -> p_category a <> template).
Proof.
  intros Hr.
  assert (Inv : (forall p, In p (projects st) -> p_category p <> template) /\
                (forall a, activeProject st = Some a ->
                           p_category a <> template)).
  { induction Hr as [stored0|a st Hr [IHp IHa] Hok].
    - split; [|discriminate]. cbn [initialApp projects].
      destruct stored0 as [| |ps]; cbn [loadProjects]; try (intros p []).
      intros p Hp. apply filter_In in Hp as [_ Hp].
      unfold not_template, in_category in Hp.
      destruct (p_category p); (discriminate || (intros; discriminate)).
    - destruct a as [ai prompt image|ai|t| |ai now|project| | |e|i c|i t];
        cbn [appStep].
      + destruct (search_keeps ai prompt image false st) as [-> ->]. auto.
      + destruct (refine_keeps ai st) as [-> ->]. auto.
      + auto.
      + split; [exact IHp|]. cbn [closeModal fst activeProject setRefineText
                                   setAiResponse setShowModal]. exact IHa.
      + destruct (or_else (aiResponse st) []) as [|c0 r0] eqn:Eplan.
        * rewrite (create_skipped ai now st Eplan). auto.
        * assert (Hplan : aiResponse st = Some (c0 :: r0)).
          { unfold or_else in Eplan. destruct (aiResponse st) as [[|x y]|];
              [discriminate|cbn [truthy] in Eplan; f_equal; exact Eplan
              |discriminate]. }
          destruct (invalidCode
                      (cleanCode (concat (streamAppCode ai (c0 :: r0)))))
            eqn:Ev.
          -- rewrite (create_failure ai now st _ Hplan eq_refl Ev). auto.
          -- rewrite (create_success ai now st _ Hplan eq_refl Ev).
             cbv zeta. cbn [fst projects activeProject]. split.
             ++ intros p [<-|Hp]; [discriminate|auto].
             ++ intros p [= <-]. discriminate.
      + unfold handleOpenProject.
        destruct (truthy (or_else (p_code project) [])); [|auto].
        cbn [fst projects activeProject setCurrentView setActiveProject].
        split; [exact IHp|]. intros p [= <-]. apply IHp. exact Hok.
      + auto.
      + split; [exact IHp|]. discriminate.
      + destruct (activeProject st) as [project|] eqn:Ea.
        * cbn [handleProjectUpdate fst projects activeProject
               setActiveProject setProjects]. split.
          -- intros p Hp. apply in_map_iff in Hp as (q & <- & Hq).
             destruct (p_id_is _ q); [exact (IHa _ eq_refl)|auto].
          -- intros p [= <-]. exact (IHa _ eq_refl).
        * split; [exact IHp|]. cbn [fst]. rewrite Ea. exact IHa.
      + unfold handleDeleteProject. destruct c; [|auto].
        cbn [fst projects activeProject setProjects]. split; [|exact IHa].
        intros p Hp. apply filter_In in Hp as [Hp _]. auto.
      + cbn [handleRenameProject fst projects activeProject setProjects].
        split; [|exact IHa].
        intros p Hp. apply in_map_iff in Hp as (q & <- & Hq).
        destruct (p_id_is i q); [|auto]. exact (IHp q Hq). }
  destruct Inv as [Hp Ha]. split; [|exact Ha].
  cbn [filteredProjects].
  destruct (filter (in_category template) (projects st)) as [|p l] eqn:E;
    [reflexivity|].
  assert (Hin : In p (filter (in_category template) (projects st)))
    by (rewrite E; left; reflexivity).
  apply filter_In in Hin as [Hin Hc]. exfalso. apply (Hp p Hin).
  unfold in_category in Hc. destruct (p_category p);
    (reflexivity || discriminate).
Qed.

(** The stored template is dropped at start, and stays out after a
    project is opened. *)
Lemma templates_tab_stays_empty_witness :
  let st := fst (appStep (OpenProject (sampleProject "11" mine))
                   (initialApp stored)) in
  appReachable st /\
  map p_id (projects st) = [str "11"; str "12"] /\
  filteredProjects TEMPLATES (projects st) = [].
Proof.
  assert (Hr : appReachable
                 (fst (appStep (OpenProject (sampleProject "11" mine))
                         (initialApp stored)))).
  { apply app_step; [apply app_init|]. left. reflexivity. }
  split; [exact Hr|]. split; [reflexivity|].
  exact (proj1 (templates_tab_stays_empty _ Hr)).
Defined.

(** X14. Submitting the rename field of a card: a blank title is never
    passed on, the list of projects stays as it is and the field goes back
    to the title of the project; any other title, as typed, becomes the
    title of that one project, in its place in the list, when the
    identifiers are distinct.  Either way the field is closed. *)
Theorem card_rename (project : ProjectData) (card : CardState)
        (st : AppState) :
  NoDup (map p_id (projects st)) -> In project (projects st) ->
  (trim (editTitle card) = [] ->
   submitRename project card st
   = ({| showMenu := showMenu card; isRenaming := false;
         editTitle := p_title project |}, st)) /\
  (trim (editTitle card) <> [] ->
   exists pre post,
     projects st = pre ++ project :: post /\
     projects (snd (submitRename project card st))
     = pre ++ with_title project (editTitle card) :: post /\
     fst (submitRename project card st)
     = {| showMenu := showMenu card; isRenaming := false;
          editTitle := editTitle card |}).
Proof.
  intros Hd Hin. unfold submitRename, handleRenameSubmit. split.
  - intros ->. reflexivity.
  - intros Hne. destruct (trim (editTitle card)) as [|c t] eqn:E;
      [congruence|]. cbn [truthy fst snd].
    destruct (map_at_project project
                (fun p => with_title p (editTitle card)) _ Hd Hin)
      as (pre & post & Hps & Hmap).
    exists pre, post. split; [exact Hps|]. split; [|reflexivity].
    cbn [handleRenameProject fst projects setProjects]. exact Hmap.
Qed.

(** Renaming the second stored project, and a blank try. *)
Lemma card_rename_witness :
  let st := initialApp stored in
  let card t := {| showMenu := false; isRenaming := true; editTitle := t |} in
  map p_title
    (projects (snd (submitRename (sampleProject "12" shared)
                      (card (str " Shop ")) st)))
  = [str "Sample"; str " Shop "] /\
  snd (submitRename (sampleProject "12" shared) (card (str "  ")) st) = st.
Proof.
  assert (Hd : NoDup (map p_id (projects (initialApp stored))))
    by (repeat constructor; refute_by_evaluation).
  assert (Hin : In (sampleProject "12" shared) (projects (initialApp stored)))
    by (right; left; reflexivity).
  split.
  - destruct (proj2 (card_rename (sampleProject "12" shared)
                       {| showMenu := false; isRenaming := true;
                          editTitle := str " Shop " |}
                       (initialApp stored) Hd Hin))
      as (pre & post & _ & _ & _); [discriminate|reflexivity].
  - rewrite (proj1 (card_rename (sampleProject "12" shared)
                      {| showMenu := false; isRenaming := true;
                         editTitle := str "  " |}
                      (initialApp stored) Hd Hin) eq_refl).
    reflexivity.
Defined.

(** X15. An update sent by the editor replaces the open project in its
    place in the list, when the identifiers of the list are distinct: no
    project is added, removed or moved, the identifiers and the category
    stay, and the updated project is the open one. *)
Theorem editor_update_in_place (e : Project) (a : ProjectData)
        (st : AppState) :
  NoDup (map p_id (projects st)) -> In a (projects st) ->
  activeProject st = Some a ->
  let st' := fst (appStep (EditorUpdate e) st) in
  exists pre post,
    projects st = pre ++ a :: post /\
    projects st' = pre ++ fromEditor a e :: post /\
    activeProject st' = Some (fromEditor a e) /\
    map p_id (projects st') = map p_id (projects st) /\
    p_category (fromEditor a e) = p_category a.
Proof.
  intros Hd Hin Ha st'. unfold st'. cbn [appStep]. rewrite Ha.
  cbn [handleProjectUpdate fst projects activeProject setActiveProject
       setProjects].
  destruct (map_at_project a (fun _ => fromEditor a e) _ Hd Hin)
    as (pre & post & Hps & Hmap).
  exists pre, post. split; [exact Hps|]. split; [exact Hmap|].
  split; [reflexivity|]. split; [|reflexivity].
  change (p_id (fromEditor a e)) with (p_id a). rewrite Hmap, Hps.
  rewrite !map_app. reflexivity.
Qed.

(** The editor saves [threeFiles] into the second stored project. *)
Lemma editor_update_in_place_witness :
  let a := sampleProject "12" shared in
  let st := fst (handleOpenProject a (initialApp stored)) in
  let e := {| title := str "Sample";
              code := Some (bundlePreview (files threeFiles));
              projectChatHistory := None |} in
  In (OnUpdate e) (snd (handleSave (toEditor a) threeFiles)) /\
  map p_code (projects (fst (appStep (EditorUpdate e) st)))
  = [Some page; Some (bundlePreview (files threeFiles))].
Proof.
  split; [left; reflexivity|].
  destruct (editor_update_in_place
              {| title := str "Sample";
                 code := Some (bundlePreview (files threeFiles));
                 projectChatHistory := None |}
              (sampleProject "12" shared)
              (fst (handleOpenProject (sampleProject "12" shared)
                      (initialApp stored))))
    as (pre & post & _ & _ & _).
  - repeat constructor; refute_by_evaluation.
  - right. left. reflexivity.
  - reflexivity.
  - reflexivity.
Defined.

(** X16. A project saved from an editor that has no file named
    [index.html] and no style or script file has the empty string as its
    code, and the application refuses to open it again: it raises "Project
    data unavailable." and stays as it is. *)
Theorem rootless_save_cannot_be_opened (a : ProjectData)
        (stE : EditorState) (st : AppState) :
  find is_index (files stE) = None ->
  filter (has_language css) (files stE) = [] ->
  filter (has_language javascript) (files stE) = [] ->
  exists e,
    snd (handleSave (toEditor a) stE)
    = [OnUpdate e; Alert (str "Project saved successfully!")] /\
    code e = Some [] /\
    handleOpenProject (fromEditor a e) st
    = (st, [str "Project data unavailable."]).
Proof.
  intros Hroot Hc Hj. eexists. split; [reflexivity|].
  cbn [code]. rewrite (bundlePreview_plain _ Hc Hj).
  unfold rootContent. rewrite Hroot. split; reflexivity.
Qed.

(** [pageOnly] is reached by creating [about.html] and deleting the root;
    what it saves cannot be opened. *)
Lemma rootless_save_cannot_be_opened_witness :
  reachable pageOnly /\
  exists e,
    snd (handleSave (toEditor (sampleProject "11" mine)) pageOnly)
    = [OnUpdate e; Alert (str "Project saved successfully!")] /\
    code e = Some [] /\
    handleOpenProject (fromEditor (sampleProject "11" mine) e)
      (initialApp stored)
    = (initialApp stored, [str "Project data unavailable."]).
Proof.
  split.
  - unfold pageOnly. apply reach_step.
    + apply reach_step; [apply reach_init|refute_by_evaluation].
    + vm_compute. left. reflexivity.
  - apply (rootless_save_cannot_be_opened (sampleProject "11" mine) pageOnly
             (initialApp stored)); reflexivity.
Defined.

(** X17. When the backend of the code throws, at whatever point of the
    stream, no project is created: the list of projects and the open
    project are as before, the view is back at home, the alert "Failed to
    generate project. Please try again." is raised, and the building
    screen did not reach its last step. *)
Theorem create_fails_on_backend_error (ai : CodeBackend) (now : N)
        (st : AppState) (plan0 : jsstring) :
  aiResponse st = Some plan0 -> truthy plan0 = true ->
  stream_end (ai plan0) = Throws ->
  let result := handleCreateProject ai now st in
  projects (fst result) = projects st /\
  activeProject (fst result) = activeProject st /\
  currentView (fst result) = home /\
  buildingStep (fst result) <= 3 /\
  snd result = [str "Failed to generate project. Please try again."].
Proof.
  intros Hp Ht Hend result.
  assert (Hv : invalidCode (cleanCode (concat (streamAppCode ai plan0)))
               = true).
  { unfold streamAppCode. cbv zeta. rewrite Hend, concat_app.
    cbn [concat]. rewrite app_nil_r. unfold invalidCode.
    rewrite cleanCode_keeps_marker. apply orb_true_r. }
  unfold result. rewrite (create_failure ai now st plan0 Hp Ht Hv).
  cbv zeta. cbn [fst snd projects activeProject currentView buildingStep].
  repeat split.
  apply (build_fold (streamAppCode ai plan0)). cbn [b_step]. lia.
Qed.

(** [brokenCodeBackend] delivers a whole page before it throws. *)
Lemma create_fails_on_backend_error_witness :
  projects (fst (handleCreateProject brokenCodeBackend 1730000000000 planned))
  = projects planned /\
  snd (handleCreateProject brokenCodeBackend 1730000000000 planned)
  = [str "Failed to generate project. Please try again."].
Proof.
  destruct (create_fails_on_backend_error brokenCodeBackend 1730000000000
              planned plan eq_refl eq_refl eq_refl)
    as (Hp & _ & _ & _ & Ha).
  split; [exact Hp|exact Ha].
Defined.

(** X18. When the cleaned code passes the validation, the new project is
    put in front of the list and opened in the editor.  It is of category
    [mine], its identifier is the time stamp, its title has at most 43
    characters, and its code has at least 100 characters, no code fence, no
    white space around it and not the error marker of the backend; the
    application opens it, and the editor shows the code as its root
    file. *)
Theorem created_project_is_sound (ai : CodeBackend) (now : N)
        (st : AppState) (plan0 : jsstring) :
  aiResponse st = Some plan0 -> truthy plan0 = true ->
  invalidCode (cleanCode (concat (streamAppCode ai plan0))) = false ->
  let result := handleCreateProject ai now st in
  exists created code0,
    projects (fst result) = created :: projects st /\
    activeProject (fst result) = Some created /\
    currentView (fst result) = editor /\
    buildingStep (fst result) = 4 /\
    snd result = [] /\
    p_id created = toString now /\
    p_category created = mine /\
    length (p_title created) <= 43 /\
    p_code created = Some code0 /\
    100 <= length code0 /\
    includes (str "```") code0 = false /\
    trim code0 = code0 /\
    includes (str "Error generating code") code0 = false /\
    snd (handleOpenProject created (fst result)) = [] /\
    rootContent (files (initialState (toEditor created))) = code0.
Proof.
  intros Hp Ht Hv result.
  unfold result. rewrite (create_success ai now st plan0 Hp Ht Hv).
  cbv zeta. cbn [fst snd projects activeProject currentView buildingStep].
  set (code0 := cleanCode (concat (streamAppCode ai plan0))) in *.
  unfold invalidCode in Hv.
  apply orb_false_iff in Hv as [Hv Hmark].
  apply orb_false_iff in Hv as [Hne Hlen].
  apply Nat.ltb_ge in Hlen. apply negb_false_iff in Hne.
  eexists _, code0.
  do 7 (split; [reflexivity|]).
  split; [cbn [newProject p_title]; apply (titleOf_length 40)|].
  split; [reflexivity|]. split; [exact Hlen|].
  split; [apply cleanCode_clean|]. split; [apply cleanCode_clean|].
  split; [exact Hmark|]. split.
  - unfold handleOpenProject. cbn [newProject p_code or_else].
    rewrite Hne. cbv iota. rewrite Hne. reflexivity.
  - rewrite initialState_files. cbn [toEditor newProject p_code code or_else].
    rewrite Hne. apply rootContent_parse.
Qed.

(** [codeBackend] answers the plan with [longPage] in a fence. *)
Lemma created_project_is_sound_witness :
  invalidCode (cleanCode (concat (streamAppCode codeBackend plan))) = false /\
  map (fun p => (p_id p, p_title p, p_code p))
    (firstn 1 (projects (fst (handleCreateProject codeBackend 1730000000000
                                planned))))
  = [(str "1730000000000", str "Task Manager", Some longPage)].
Proof.
  destruct (created_project_is_sound codeBackend 1730000000000 planned plan
              eq_refl eq_refl eq_refl)
    as (created & code0 & Hps & _).
  split; reflexivity.
Defined.

(** X19. While the code streams in, the text behind the building screen is
    the last 1000 characters of the code received so far, the step shown
    is at most 3, and further chunks never take the step back. *)
Theorem building_progress (received more : list jsstring) :
  let start := {| b_code := []; b_snippet := []; b_step := 0 |} in
  let built := fold_left buildChunk received start in
  b_code built = concat received /\
  b_snippet built = sliceLast 1000 (concat received) /\
  length (b_snippet built) <= 1000 /\
  b_step built <= 3 /\
  b_step built <= b_step (fold_left buildChunk (received ++ more) start).
Proof.
  intros start built.
  destruct (build_fold received start) as (Hc & Hs & _ & Hb).
  fold built in Hc, Hs, Hb. cbn [b_code start app] in Hc.
  split; [exact Hc|].
  assert (Hsn : b_snippet built = sliceLast 1000 (concat received))
    by (rewrite <- Hc; apply Hs; reflexivity).
  split; [exact Hsn|]. split; [rewrite Hsn; apply sliceLast_length|].
  split; [apply Hb; cbn; lia|].
  rewrite fold_left_app. fold built.
  apply (build_fold more built).
Qed.

(** X20. The image of a request is sent when its data URL has the form
    [data:image/<lower-case letters>;base64,<data on one line>], and then
    with exactly that type and data; conversely whatever is sent as type
    and data spells out the data URL it came from. *)
Theorem data_url_round_trip :
  (forall subtype data,
      subtype <> [] -> forallb is_lower subtype = true ->
      data <> [] ->
      forallb (fun c => negb (is_line_terminator c)) data = true ->
      parseDataUrl (str "data:image/" ++ subtype ++ str ";base64," ++ data)
      = Some (str "image/" ++ subtype, data)) /\
  (forall s mimeType data,
      parseDataUrl s = Some (mimeType, data) ->
      s = str "data:" ++ mimeType ++ str ";base64," ++ data).
Proof.
  assert (Htake : forall a rest,
             forallb is_lower a = true ->
             takeWhile is_lower (a ++ 59%N :: rest) = a /\
             dropWhile is_lower (a ++ 59%N :: rest) = 59%N :: rest).
  { induction a as [|c a IH]; intros rest H; [split; reflexivity|].
    cbn [forallb] in H. apply andb_true_iff in H as [Hc H].
    cbn [app takeWhile dropWhile]. rewrite Hc.
    destruct (IH rest H) as [-> ->]. split; reflexivity. }
  assert (Hsplit : forall r, takeWhile is_lower r ++ dropWhile is_lower r = r).
  { induction r as [|c r IH]; [reflexivity|]. cbn [takeWhile dropWhile].
    destruct (is_lower c); [cbn [app]; f_equal; exact IH|reflexivity]. }
  assert (Hstrip : forall pre s r,
             stripPrefix pre s = Some r <-> s = pre ++ r).
  { intros pre s r. unfold stripPrefix. split.
    - destruct (starts_with pre s) eqn:E; [|discriminate].
      apply starts_with_iff in E as [post ->].
      destruct (firstn_skipn_at pre post) as [_ ->]. intros [= ->]. reflexivity.
    - intros ->. rewrite starts_with_app.
      destruct (firstn_skipn_at pre r) as [_ ->]. reflexivity. }
  split.
  - intros subtype data Hs Hl Hd Hline. unfold parseDataUrl.
    rewrite (proj2 (Hstrip _ _ _) eq_refl). cbv zeta.
    change (str ";base64," ++ data)
      with (59%N :: (tl (str ";base64,") ++ data)).
    destruct (Htake subtype (tl (str ";base64,") ++ data) Hl) as [-> ->].
    destruct subtype as [|c0 r0]; [congruence|]. cbn [truthy negb].
    change (59%N :: tl (str ";base64,") ++ data)
      with (str ";base64," ++ data).
    rewrite (proj2 (Hstrip _ _ _) eq_refl), Hline.
    destruct data; [congruence|]. reflexivity.
  - intros s mimeType data. unfold parseDataUrl.
    destruct (stripPrefix (str "data:image/") s) as [r|] eqn:E1; [|discriminate].
    apply Hstrip in E1. cbv zeta.
    destruct (negb (truthy (takeWhile is_lower r))); [discriminate|].
    destruct (stripPrefix (str ";base64,") (dropWhile is_lower r))
      as [d|] eqn:E2; [|discriminate].
    apply Hstrip in E2.
    destruct (truthy d && forallb _ d); [|discriminate].
    intros [= <- <-]. rewrite E1, <- (Hsplit r) at 1. rewrite E2.
    reflexivity.
Qed.

(** A PNG is sent along; an SVG, whose type holds a plus sign, is not. *)
Lemma data_url_round_trip_witness :
  parseDataUrl
    (str "data:image/" ++ str "png" ++ str ";base64," ++ str "iVBORw0KGgo=")
  = Some (str "image/" ++ str "png", str "iVBORw0KGgo=") /\
  ideaParts (str "an app") (Some (str "data:image/png;base64,iVBORw0KGgo="))
  = [InlineData (str "image/png") (str "iVBORw0KGgo="); TextPart (str "an app")]
  /\
  ideaParts (str "an app") (Some (str "data:image/svg+xml;base64,PHN2Zz4="))
  = [TextPart (str "an app")].
Proof.
  split; [|split; reflexivity].
  apply (proj1 data_url_round_trip (str "png") (str "iVBORw0KGgo="));
    try reflexivity; discriminate.
Defined.

(** X21. A request for a plan ends with the busy flag released and the
    plan on the screen: the response is the text the stream delivered, in
    whatever chunks, followed by an apology when the backend threw.  After
    an error the response is therefore not empty. *)
Theorem search_collects_response (ai : IdeaBackend) (prompt : jsstring)
        (image : option jsstring) (st : AppState) :
  let st' := fst (handleSearch ai prompt image false st) in
  let response := ai (ideaParts prompt image) in
  aiResponse st'
  = Some (concat (chunk_texts (chunks response))
          ++ match stream_end response with
             | Throws => apology
             | Completes => []
             end) /\
  isGenerating st' = false /\
  showModal st' = true /\
  originalPrompt st' = prompt /\
  projects st' = projects st /\
  (stream_end response = Throws -> or_else (aiResponse st') [] <> []).
Proof.
  intros st' response.
  assert (E : st'
              = setIsGenerating false
                  (setAiResponse
                     (Some (concat (streamIdeaResponse ai prompt image)))
                     (setOriginalPrompt prompt
                        (setShowModal true (setIsGenerating true st))))).
  { unfold st', handleSearch. cbv zeta. cbn [fst].
    change (setOriginalPrompt prompt
              (setAiResponse (Some []) (setShowModal true (setIsGenerating true st))))
      with (setAiResponse (Some [])
              (setOriginalPrompt prompt
                 (setShowModal true (setIsGenerating true st)))).
    rewrite fold_response. reflexivity. }
  assert (Ec : concat (streamIdeaResponse ai prompt image)
               = concat (chunk_texts (chunks response))
                 ++ match stream_end response with
                    | Throws => apology
                    | Completes => []
                    end).
  { unfold streamIdeaResponse. cbv zeta. fold response.
    rewrite concat_app. destruct (stream_end response); cbn [concat];
      rewrite ?app_nil_r; reflexivity. }
  rewrite E. cbn [aiResponse isGenerating showModal originalPrompt projects
                  setIsGenerating setAiResponse setOriginalPrompt setShowModal].
  rewrite Ec. do 5 (split; [reflexivity|]).
  intros ->. cbn [or_else].
  destruct (concat (chunk_texts (chunks response)) ++ apology) eqn:En.
  - apply app_eq_nil in En as [_ En]. discriminate.
  - cbn [truthy]. discriminate.
Qed.

(** A backend that throws after one chunk: the plan ends with the apology. *)
Lemma search_collects_response_witness :
  let ai : IdeaBackend :=
    fun _ => {| chunks := [Some (str "Plan"); None]; stream_end := Throws |} in
  let st' := fst (handleSearch ai (str "an app") None false
                    (initialApp stored)) in
  aiResponse st' = Some (str "Plan" ++ apology) /\
  (or_else (aiResponse st') [] <> []).
Proof.
  cbv zeta.
  pose proof (search_collects_response
                (fun _ => {| chunks := [Some (str "Plan"); None];
                             stream_end := Throws |})
                (str "an app") None (initialApp stored)) as H.
  cbv zeta in H. destruct H as (H1 & _ & _ & _ & _ & H6).
  split; [exact H1 | apply H6; reflexivity].
Defined.

End AppExtra.
